(** * xmlplot/plot.py: variables, slices, transforms and the figure update

    A shallow embedding of [gui.py/xmlplot/plot.py].  Python objects become
    records of their fields and methods, numpy arrays become a shape
    together with the row-major list of their elements, and every call that
    can raise returns a [result].  Floating point numbers are idealised as
    rationals ([Q]); [numpy.sqrt] is a parameter of the development. *)

From Stdlib Require Import String Ascii List Bool Arith ZArith QArith Qround Qabs Lia Lqa.
Import ListNotations.

Set Warnings "-register-all".

Open Scope string_scope.
Open Scope list_scope.
Open Scope nat_scope.

(** ** Exceptions and the error monad *)

Inductive exn : Type :=
| NameError (name : string)
| AssertionError (msg : string)
| AttributeError (attr : string)
| TypeError (msg : string)
| KeyError (key : string)
| IndexError
| ValueError (msg : string)
| ZeroDivisionError.

Inductive result (A : Type) : Type :=
| Ok (a : A)
| Raise (e : exn).

Arguments Ok {A} a.
Arguments Raise {A} e.

Definition bind {A B : Type} (m : result A) (k : A -> result B) : result B :=
  match m with
  | Ok a => k a
  | Raise e => Raise e
  end.

Notation "x <- m ;; k" := (bind m (fun x => k))
  (at level 61, m at next level, right associativity).
Notation "' pat <- m ;; k" := (bind m (fun x => match x with pat => k end))
  (at level 61, pat pattern, m at next level, right associativity).
Notation "m ;;; k" := (bind m (fun _ => k))
  (at level 61, right associativity).

Definition assert (b : bool) (msg : string) : result unit :=
  if b then Ok tt else Raise (AssertionError msg).

(** [obj.attr] where [obj] may be [None]. *)
Definition attr_of {A : Type} (o : option A) (attr : string) : result A :=
  match o with
  | Some a => Ok a
  | None => Raise (AttributeError attr)
  end.

(** [l[i]] on a Python list, for a non-negative [i]. *)
Definition list_item {A : Type} (l : list A) (i : nat) : result A :=
  match nth_error l i with
  | Some a => Ok a
  | None => Raise IndexError
  end.

(** [l[i] = x] on a Python list. *)
Fixpoint list_setitem {A : Type} (l : list A) (i : nat) (x : A) : result (list A) :=
  match l, i with
  | [], _ => Raise IndexError
  | _ :: r, O => Ok (x :: r)
  | a :: r, S i' => r' <- list_setitem r i' x ;; Ok (a :: r')
  end.

(** [l.insert(i, x)] for a non-negative [i]: past the end it appends. *)
Fixpoint list_insert {A : Type} (l : list A) (i : nat) (x : A) : list A :=
  match i, l with
  | O, _ => x :: l
  | S i', a :: r => a :: list_insert r i' x
  | S _, [] => [x]
  end.

(** [del l[i]]. *)
Fixpoint list_del {A : Type} (l : list A) (i : nat) : result (list A) :=
  match l, i with
  | [], _ => Raise IndexError
  | _ :: r, O => Ok r
  | a :: r, S i' => r' <- list_del r i' ;; Ok (a :: r')
  end.

(** [for x in l: acc = body(acc, x)], stopping at the first exception. *)
Fixpoint foldM {A B : Type} (body : A -> B -> result A) (l : list B) (acc : A) : result A :=
  match l with
  | [] => Ok acc
  | x :: r => acc' <- body acc x ;; foldM body r acc'
  end.

Fixpoint mapM {A B : Type} (f : A -> result B) (l : list A) : result (list B) :=
  match l with
  | [] => Ok []
  | x :: r => y <- f x ;; ys <- mapM f r ;; Ok (y :: ys)
  end.

(** [enumerate(l)]. *)
Definition enumerate {A : Type} (l : list A) : list (nat * A) :=
  combine (seq 0 (length l)) l.

Definition is_some {A : Type} (o : option A) : bool :=
  match o with Some _ => true | None => false end.

(** ** numpy arrays

    An n-dimensional array is its shape and the list of its elements in
    row-major (C) order, which is how numpy lays out the arrays that
    [empty], arithmetic, [take] and [squeeze] return. *)

Module Numerix.

Record ndarray (A : Type) : Type := mkarray { shape : list nat; flat : list A }.
Arguments mkarray {A} shape flat.
Arguments shape {A} n.
Arguments flat {A} n.

(** Number of elements of an array of shape [sh]. *)
Fixpoint size (sh : list nat) : nat :=
  match sh with
  | [] => 1
  | n :: r => n * size r
  end.

(** Position of the element at multi-index [idx] in the row-major list. *)
Fixpoint offset (sh idx : list nat) : nat :=
  match sh, idx with
  | _ :: r, i :: js => i * size r + offset r js
  | _, _ => 0
  end.

(** The multi-index of the [k]-th element. *)
Fixpoint unravel (sh : list nat) (k : nat) : list nat :=
  match sh with
  | [] => []
  | _ :: r => (k / size r) :: unravel r (k mod size r)
  end.

Fixpoint in_bounds (sh idx : list nat) : bool :=
  match sh, idx with
  | [], [] => true
  | n :: r, i :: js => (i <? n) && in_bounds r js
  | _, _ => false
  end.

Definition wf {A : Type} (a : ndarray A) : Prop := length (flat a) = size (shape a).

(** Basic slicing: [a[i]] ([At]) and [a[lo:hi:1]] ([Range]) on one axis. *)
Inductive index : Type :=
| At (i : nat)
| Range (lo : nat) (hi : option nat).

Section Generic.
Context {A : Type} (d : A).

Definition get (a : ndarray A) (idx : list nat) : A :=
  nth (offset (shape a) idx) (flat a) d.

(** The array of shape [sh] whose element at [idx] is [f idx]. *)
Definition build (sh : list nat) (f : list nat -> A) : ndarray A :=
  mkarray sh (map (fun k => f (unravel sh k)) (seq 0 (size sh))).

(** [numerix.empty(shape)]: the contents are unspecified until they are
    assigned; the model fills the array with [d]. *)
Definition empty (sh : list nat) : ndarray A := build sh (fun _ => d).

(** A numpy scalar is a 0-dimensional array. *)
Definition scalar (x : A) : ndarray A := mkarray [] [x].

(** [a.squeeze()]: the axes of length one are dropped, the elements stay. *)
Definition squeeze (a : ndarray A) : ndarray A :=
  mkarray (filter (fun n => negb (n =? 1)) (shape a)) (flat a).

(** [a[0]]: the first entry along the leading axis. *)
Definition item0 (a : ndarray A) : result (ndarray A) :=
  match shape a with
  | [] => Raise IndexError
  | O :: _ => Raise IndexError
  | S _ :: r => Ok (mkarray r (firstn (size r) (flat a)))
  end.

(** *** Basic slicing: [a[i]] and [a[lo:hi:1]] per axis *)

Definition range_start (n lo : nat) : nat := Nat.min lo n.
Definition range_stop (n : nat) (hi : option nat) : nat :=
  match hi with Some h => Nat.min h n | None => n end.

(** Shape of the block that basic indexing selects. *)
Fixpoint block_shape (sh : list nat) (ix : list index) : result (list nat) :=
  match ix, sh with
  | [], _ => Ok sh
  | _ :: _, [] => Raise IndexError
  | At i :: ixs, n :: r => if i <? n then block_shape r ixs else Raise IndexError
  | Range lo hi :: ixs, n :: r =>
      bs <- block_shape r ixs ;;
      Ok ((range_stop n hi - range_start n lo) :: bs)
  end.

(** From a position inside the block to the position in the array. *)
Fixpoint abs_index (sh : list nat) (ix : list index) (b : list nat) : list nat :=
  match ix, sh with
  | At i :: ixs, _ :: r => i :: abs_index r ixs b
  | Range lo _ :: ixs, n :: r =>
      match b with
      | k :: b' => (range_start n lo + k) :: abs_index r ixs b'
      | [] => []
      end
  | _, _ => b
  end.

(** From a position in the array to the position inside the block, when
    the block covers it. *)
Fixpoint locate (sh : list nat) (ix : list index) (idx : list nat) : option (list nat) :=
  match ix, sh, idx with
  | [], _, _ => Some idx
  | At i :: ixs, _ :: r, k :: idx' =>
      if k =? i then locate r ixs idx' else None
  | Range lo hi :: ixs, n :: r, k :: idx' =>
      if (range_start n lo <=? k) && (k <? range_stop n hi)
      then option_map (cons (k - range_start n lo)) (locate r ixs idx')
      else None
  | _, _, _ => None
  end.

Definition getitem (a : ndarray A) (ix : list index) : result (ndarray A) :=
  bs <- block_shape (shape a) ix ;;
  Ok (build bs (fun b => get a (abs_index (shape a) ix b))).

(** *** Broadcasting a value into a block

    numpy copies a value into an indexed block by broadcasting it to the
    block's shape: when the value has more axes than the block, leading
    axes of length one are dropped from the value (and only those); then
    the shapes are aligned at their last axis and each axis of the value
    must have the block's length or length one. *)

Fixpoint strip_leading (k : nat) (sh : list nat) : list nat :=
  match k, sh with
  | S k', 1 :: r => strip_leading k' r
  | _, _ => sh
  end.

Fixpoint broadcastable (vs bs : list nat) : bool :=
  match vs, bs with
  | [], [] => true
  | v :: vs', b :: bs' => ((v =? b) || (v =? 1)) && broadcastable vs' bs'
  | _, _ => false
  end.

Fixpoint source_index (vs b : list nat) : list nat :=
  match vs, b with
  | v :: vs', i :: b' => (if v =? 1 then 0 else i) :: source_index vs' b'
  | _, _ => []
  end.

Definition broadcast_to (v : ndarray A) (bs : list nat) : result (ndarray A) :=
  let vs := strip_leading (length (shape v) - length bs) (shape v) in
  if length bs <? length vs then Raise (ValueError "could not broadcast input array")
  else
    let vs' := repeat 1 (length bs - length vs) ++ vs in
    if broadcastable vs' bs
    then Ok (build bs (fun b => get (mkarray vs' (flat v)) (source_index vs' b)))
    else Raise (ValueError "could not broadcast input array").

(** [a[ix] = v]. *)
Definition setitem (a : ndarray A) (ix : list index) (v : ndarray A) : result (ndarray A) :=
  bs <- block_shape (shape a) ix ;;
  v' <- broadcast_to v bs ;;
  Ok (build (shape a)
        (fun idx => match locate (shape a) ix idx with
                    | Some b => get v' b
                    | None => get a idx
                    end)).

(** *** Operations along one axis *)

(** The entries of [a] along [axis] at the position [idx] of the other axes. *)
Definition lane (a : ndarray A) (axis : nat) (idx : list nat) : list A :=
  map (fun j => get a (list_insert idx axis j)) (seq 0 (nth axis (shape a) 0)).

(** [a.take(indices, axis)]. *)
Definition take (a : ndarray A) (indices : list nat) (axis : nat) : result (ndarray A) :=
  n <- list_item (shape a) axis ;;
  sh' <- list_setitem (shape a) axis (length indices) ;;
  if forallb (fun i => i <? n) indices
  then Ok (build sh' (fun idx =>
             get a (firstn axis idx ++ [nth (nth axis idx 0) indices 0] ++ skipn (S axis) idx)))
  else Raise IndexError.

(** [a.take((-1,), axis)]. *)
Definition take_last (a : ndarray A) (axis : nat) : result (ndarray A) :=
  n <- list_item (shape a) axis ;;
  match n with
  | O => Raise IndexError
  | S m => take a [m] axis
  end.

(** [a.shape = newshape]: allowed when the number of elements agrees. *)
Definition reshape (a : ndarray A) (sh : list nat) : result (ndarray A) :=
  if size sh =? size (shape a) then Ok (mkarray sh (flat a))
  else Raise (ValueError "total size of new array must be unchanged").

(** [numpy.concatenate((a, b), axis)]. *)
Definition concatenate (a b : ndarray A) (axis : nat) : result (ndarray A) :=
  na <- list_item (shape a) axis ;;
  nb <- list_item (shape b) axis ;;
  ra <- list_del (shape a) axis ;;
  rb <- list_del (shape b) axis ;;
  if list_eq_dec Nat.eq_dec ra rb
  then
    sh' <- list_setitem (shape a) axis (na + nb) ;;
    Ok (build sh' (fun idx =>
          let j := nth axis idx 0 in
          if j <? na then get a idx
          else get b (firstn axis idx ++ [j - na] ++ skipn (S axis) idx)))
  else Raise (ValueError "array dimensions must agree except for d_0").

(** Elementwise operations on arrays of one shape.  (numpy would also
    broadcast some arrays of different shapes; the transforms below only
    combine arrays of one shape.) *)
Definition map1 (f : A -> A) (a : ndarray A) : ndarray A :=
  mkarray (shape a) (map f (flat a)).

Definition map2 (f : A -> A -> A) (a b : ndarray A) : result (ndarray A) :=
  if list_eq_dec Nat.eq_dec (shape a) (shape b)
  then Ok (mkarray (shape a) (map (fun p => f (fst p) (snd p)) (combine (flat a) (flat b))))
  else Raise (ValueError "shape mismatch: objects cannot be broadcast to a single shape").

End Generic.

End Numerix.

Import Numerix.

(** Arrays of numbers; elements read outside an array default to [0]. *)
Definition array : Type := ndarray Q.
Definition qget : array -> list nat -> Q := get 0%Q.
Definition vector (l : list Q) : array := mkarray [length l] l.

(** ** class Variable.Slice *)

Record Slice : Type := mkSlice {
  dimensions : list string;
  ndim : nat;
  data : option array;
  coords : list (option array);
  coords_stag : list (option array);
  lbound : option array;
  ubound : option array;
  (* set by [squeeze] only *)
  fixedcoords : option (list (string * array))
}.

(** [Slice(dimensions)]. *)
Definition newSlice (dims : list string) : Slice :=
  {| dimensions := dims;
     ndim := length dims;
     data := None;
     coords := repeat None (length dims);
     coords_stag := repeat None (length dims);
     lbound := None;
     ubound := None;
     fixedcoords := None |}.

Definition isValid (self : Slice) : bool :=
  (0 <? ndim self) && is_some (data self)
  && forallb is_some (coords self) && forallb is_some (coords_stag self).

(** The loop of [squeeze] over [enumerate(self.dimensions)]: the indices and
    names of the dimensions longer than one, and the fixed coordinates of
    the dimensions of length one. *)
Definition squeeze_step (self : Slice)
    (acc : list nat * list string * list (string * array)) (p : nat * string)
    : result (list nat * list string * list (string * array)) :=
  let '(gooddimindices, gooddimnames, fixed) := acc in
  let '(idim, dimname) := p in
  d <- attr_of (data self) "shape" ;;
  n <- list_item (shape d) idim ;;
  if 1 <? n then Ok (gooddimindices ++ [idim], gooddimnames ++ [dimname], fixed)
  else if n =? 1 then
    c <- list_item (coords self) idim ;;
    c <- match c with
         | Some c => Ok c
         | None => Raise (TypeError "'NoneType' object is unsubscriptable")
         end ;;
    x <- item0 c ;;
    Ok (gooddimindices, gooddimnames, fixed ++ [(dimname, x)])
  else Ok acc.

Definition squeeze_all (cs : list (option array)) (indices : list nat) : result (list (option array)) :=
  mapM (fun i => c <- list_item cs i ;;
                 c <- attr_of c "squeeze" ;;
                 Ok (Some (Numerix.squeeze c))) indices.

Definition squeeze (self : Slice) : result Slice :=
  '(gooddimindices, gooddimnames, fixed) <-
     foldM (squeeze_step self) (enumerate (dimensions self)) ([], [], []) ;;
  cs <- squeeze_all (coords self) gooddimindices ;;
  ss <- squeeze_all (coords_stag self) gooddimindices ;;
  d <- attr_of (data self) "squeeze" ;;
  Ok {| dimensions := gooddimnames;
        ndim := length gooddimnames;
        data := Some (Numerix.squeeze d);
        coords := cs;
        coords_stag := ss;
        lbound := option_map (@Numerix.squeeze Q) (lbound self);
        ubound := option_map (@Numerix.squeeze Q) (ubound self);
        fixedcoords := Some fixed |}.

(** Modelled from the spec: [common.getCenters(c, addends=True)]; the module
    [common] is not among the sources.  The spec gives the rule
    [stag[0] = c[0] - (c[1]-c[0])/2], [stag[i] = (c[i-1]+c[i])/2] and
    [stag[-1] = c[-1] + (c[-1]-c[-2])/2] for vectors of at least two centers;
    on shorter vectors the rule has no first difference and the model raises. *)
Fixpoint midpoints (c : list Q) : list Q :=
  match c with
  | a :: (b :: _) as r => ((a + b) / 2)%Q :: midpoints r
  | _ => []
  end.

Definition getCenters (c : array) : result array :=
  match shape c with
  | [_] =>
      match flat c, rev (flat c) with
      | c0 :: c1 :: _, l0 :: l1 :: _ =>
          Ok (vector ([c0 - (c1 - c0) / 2] ++ midpoints (flat c) ++ [l0 + (l0 - l1) / 2])%Q)
      | _, _ => Raise IndexError
      end
  | _ => Raise (ValueError "getCenters expects a vector")
  end.

(** [generateStaggered]. *)
Definition generateStaggered (self : Slice) : result Slice :=
  stag <- foldM (fun stag idim =>
            c <- list_item (coords self) idim ;;
            assert (is_some c) "Cannot generate staggered coordinates because centered coordinates have not been set." ;;;
            c <- attr_of c "ndim" ;;
            assert (length (shape c) =? 1) "Currently a staggered grid can only be generated automatically for 1D coordinate vectors." ;;;
            s <- getCenters c ;;
            list_setitem stag idim (Some s))
          (seq 0 (ndim self)) (coords_stag self) ;;
  Ok {| dimensions := dimensions self; ndim := ndim self; data := data self;
        coords := coords self; coords_stag := stag;
        lbound := lbound self; ubound := ubound self;
        fixedcoords := fixedcoords self |}.

(** ** class Variable *)

Record DimensionInfo : Type := mkDimensionInfo {
  info_label : string;
  info_unit : string;
  info_preferredaxis : option string;
  info_datatype : string
}.

(** One (lower, upper) pair per dimension; [None] leaves the side open. *)
Definition bound : Type := (option Q * option Q)%type.

(** A variable is the record of its methods.  ([Variable] is a reserved
    word of Rocq, hence the name.) *)
Record PlotVariable : Type := mkVariable {
  getName : string;
  getLongName : string;
  getUnit : string;
  getDimensions : list string;
  getSlice : list bound -> result Slice;
  getDimensionInfo : string -> result DimensionInfo
}.

(** [VariableStore.getDimensionInfo] of the base class. *)
Definition base_getDimensionInfo (dimname : string) : DimensionInfo :=
  {| info_label := ""; info_unit := ""; info_preferredaxis := None; info_datatype := "float" |}.

(** The methods of the abstract class [Variable] itself. *)
Definition baseVariable (store_getDimensionInfo : string -> result DimensionInfo) : PlotVariable :=
  {| getName := ""; getLongName := ""; getUnit := "";
     getDimensions := [];
     getSlice := fun _ => Ok (newSlice []);
     getDimensionInfo := store_getDimensionInfo |}.

Definition set_data (s : Slice) (d : option array) : Slice :=
  {| dimensions := dimensions s; ndim := ndim s; data := d;
     coords := coords s; coords_stag := coords_stag s;
     lbound := lbound s; ubound := ubound s; fixedcoords := fixedcoords s |}.

Definition set_coords (s : Slice) (cs : list (option array)) : Slice :=
  {| dimensions := dimensions s; ndim := ndim s; data := data s;
     coords := cs; coords_stag := coords_stag s;
     lbound := lbound s; ubound := ubound s; fixedcoords := fixedcoords s |}.

Definition set_coords_stag (s : Slice) (ss : list (option array)) : Slice :=
  {| dimensions := dimensions s; ndim := ndim s; data := data s;
     coords := coords s; coords_stag := ss;
     lbound := lbound s; ubound := ubound s; fixedcoords := fixedcoords s |}.

Definition set_bounds (s : Slice) (lb ub : option array) : Slice :=
  {| dimensions := dimensions s; ndim := ndim s; data := data s;
     coords := coords s; coords_stag := coords_stag s;
     lbound := lb; ubound := ub; fixedcoords := fixedcoords s |}.

(** ** class MergedVariableStore.MergedVariable *)

Definition Qltb (a b : Q) : bool := negb (Qle_bool b a).

(** [numpy.linspace(start, stop, num)] with both ends included; no samples
    when [num] is not positive. *)
Definition linspace (start stop : Q) (num : Z) : array :=
  match num with
  | Zpos p =>
      let n := Pos.to_nat p in
      vector (map (fun k => if n =? 1 then start
                            else (start + inject_Z (Z.of_nat k) * ((stop - start) / inject_Z (num - 1)))%Q)
                  (seq 0 n))
  | _ => vector []
  end.

(** [l[lo:hi]] with Python's reading of negative and oversized indices. *)
Definition clip_index (n : nat) (i : Z) : nat :=
  if (i <? 0)%Z then Z.to_nat (Z.max 0 (i + Z.of_nat n)) else Nat.min (Z.to_nat i) n.

Definition py_slice {A : Type} (l : list A) (lo hi : Z) : list A :=
  skipn (clip_index (length l) lo) (firstn (clip_index (length l) hi) l).

(** The index range over the stores that [getSlice] derives from the bounds
    of the merged dimension. *)
Definition merged_range (nvars : nat) (b0 : bound) : Z * Z :=
  let ifirst := 0%Z in
  let ilast := (Z.of_nat nvars - 1)%Z in
  let ifirst := match fst b0 with
                | Some lo => if Qltb (inject_Z ifirst) lo then Qfloor lo else ifirst
                | None => ifirst
                end in
  let ilast := match snd b0 with
               | Some hi => if Qltb hi (inject_Z ilast) then Qceiling hi else ilast
               | None => ilast
               end in
  (ifirst, ilast).

Definition MergedVariable_getDimensions (vars : list PlotVariable) (mergedimid : string)
    : result (list string) :=
  v0 <- list_item vars 0 ;;
  Ok (mergedimid :: getDimensions v0).

(** The body of the loop over [enumerate(self.vars[ifirst:ilast+1])]. *)
Definition merged_step (bounds : list bound) (count : Z)
    (acc : Slice * bool) (p : nat * PlotVariable) : result (Slice * bool) :=
  let '(slice, first) := acc in
  let '(ivar, var) := p in
  curslice <- getSlice var (tl bounds) ;;
  slice <- (if first then
              cd <- attr_of (data curslice) "shape" ;;
              (if (count <? 0)%Z then Raise (ValueError "negative dimensions are not allowed")
               else Ok tt) ;;;
              Ok (set_data
                    (set_coords_stag
                       (set_coords slice (firstn 1 (coords slice) ++ coords curslice))
                       (firstn 1 (coords_stag slice) ++ coords_stag curslice))
                    (Some (empty 0%Q (Z.to_nat count :: shape cd))))
            else Ok slice) ;;
  d <- attr_of (data slice) "__setitem__" ;;
  v <- match data curslice with
       | Some v => Ok v
       | None => Raise (TypeError "float() argument must be a string or a number")
       end ;;
  d' <- setitem 0%Q d [At ivar] v ;;
  Ok (set_data slice (Some d'), false).

Definition MergedVariable_getSlice (vars : list PlotVariable) (mergedimid : string)
    (bounds : list bound) : result Slice :=
  dims <- MergedVariable_getDimensions vars mergedimid ;;
  let slice := newSlice dims in
  assert (length bounds =? ndim slice)
    "Number of specified dimensions does not equal number of data dimensions." ;;;
  b0 <- list_item bounds 0 ;;
  let '(ifirst, ilast) := merged_range (length vars) b0 in
  let count := (ilast - ifirst + 1)%Z in
  let c0 := linspace (inject_Z ifirst) (inject_Z ilast) count in
  cs <- list_setitem (coords slice) 0 (Some c0) ;;
  s0 <- getCenters c0 ;;
  ss <- list_setitem (coords_stag slice) 0 (Some s0) ;;
  let slice := set_coords_stag (set_coords slice cs) ss in
  r <- foldM (merged_step bounds count)
         (enumerate (py_slice vars ifirst (ilast + 1))) (slice, true) ;;
  Ok (fst r).

(** [MergedVariable(store, variables, mergedimid)].  The name, long name
    and unit are those of [vars[0]]; the record is built at once, so the
    [IndexError] of an empty [vars] shows at construction. *)
Definition MergedVariable (store_getDimensionInfo : string -> result DimensionInfo)
    (vars : list PlotVariable) (mergedimid : string) : result PlotVariable :=
  v0 <- list_item vars 0 ;;
  Ok {| getName := getName v0;
        getLongName := getLongName v0;
        getUnit := getUnit v0;
        getDimensions := mergedimid :: getDimensions v0;
        getSlice := MergedVariable_getSlice vars mergedimid;
        getDimensionInfo := store_getDimensionInfo |}.

(** ** Variable stores *)

(** What [getVariableLongNames] can return: a dictionary from short names to
    long names, or a list of long names. *)
Inductive pyobj : Type :=
| PyDict (items : list (string * string))
| PyList (items : list string).

Fixpoint dict_set (d : list (string * string)) (k v : string) : list (string * string) :=
  match d with
  | [] => [(k, v)]
  | (k', v') :: r => if (k' =? k)%string then (k', v) :: r else (k', v') :: dict_set r k v
  end.

(** [dict(pairs)]: a later pair replaces an earlier one with the same key. *)
Definition dict (pairs : list (string * string)) : list (string * string) :=
  fold_left (fun d p => dict_set d (fst p) (snd p)) pairs [].

Fixpoint dict_get (d : list (string * string)) (k : string) : option string :=
  match d with
  | [] => None
  | (k', v) :: r => if (k' =? k)%string then Some v else dict_get r k
  end.

Definition mem (x : string) (l : list string) : bool :=
  existsb (fun y => (y =? x)%string) l.

(** [k in obj]. *)
Definition py_contains (obj : pyobj) (k : string) : bool :=
  match obj with
  | PyDict items => is_some (dict_get items k)
  | PyList items => mem k items
  end.

(** [obj[k]] for a string [k]. *)
Definition py_getitem (obj : pyobj) (k : string) : result string :=
  match obj with
  | PyDict items =>
      match dict_get items k with
      | Some v => Ok v
      | None => Raise (KeyError k)
      end
  | PyList _ => Raise (TypeError "list indices must be integers")
  end.

(** [obj.keys()]. *)
Definition py_keys (obj : pyobj) : result (list string) :=
  match obj with
  | PyDict items => Ok (map fst items)
  | PyList _ => Raise (AttributeError "keys")
  end.

(** *** class CustomVariableStore *)

Module CustomVariableStore.

Record t : Type := mk { vars : list PlotVariable }.

Definition init : t := {| vars := [] |}.

Definition addVariable (self : t) (var : PlotVariable) : t :=
  {| vars := vars self ++ [var] |}.

Definition getVariableNames (self : t) : list string :=
  map getName (vars self).

Definition getVariableLongNames (self : t) : pyobj :=
  PyList (map getLongName (vars self)).

Definition getDimensionInfo (self : t) (dimname : string) : result DimensionInfo :=
  Ok (base_getDimensionInfo dimname).

(** [for v in self.vars: if v.getName()==varname: return v]. *)
Fixpoint scan (l : list PlotVariable) (varname : string) : option PlotVariable :=
  match l with
  | [] => None
  | v :: r => if (getName v =? varname)%string then Some v else scan r varname
  end.

Definition getVariable (self : t) (varname : string) : option PlotVariable :=
  scan (vars self) varname.

End CustomVariableStore.

(** *** The store classes

    [Plain] stands for a store class defined outside this file: it
    overrides [getVariableNames], [getVariable] and [getDimensionInfo] and
    inherits the other methods of [VariableStore]. *)
Inductive VariableStore : Type :=
| Plain (names : list string) (lookup : string -> option PlotVariable)
        (diminfo : string -> DimensionInfo)
| Merged (stores : list VariableStore) (mergedimid mergedimname : string)
| Custom (c : CustomVariableStore.t).

Fixpoint store_getDimensionInfo (self : VariableStore) (dimname : string) : result DimensionInfo :=
  match self with
  | Plain _ _ diminfo => Ok (diminfo dimname)
  | Merged stores mergedimid mergedimname =>
      if (dimname =? mergedimid)%string
      then Ok {| info_label := mergedimname; info_unit := "";
                 info_preferredaxis := None; info_datatype := "float" |}
      else match stores with
           | [] => Raise IndexError
           | s0 :: _ => store_getDimensionInfo s0 dimname
           end
  | Custom c => CustomVariableStore.getDimensionInfo c dimname
  end.

Fixpoint store_getVariableNames (self : VariableStore) : result (list string) :=
  match self with
  | Plain names _ _ => Ok names
  | Merged stores _ _ =>
      match stores with
      | [] => Raise IndexError
      | s0 :: _ => store_getVariableNames s0
      end
  | Custom c => Ok (CustomVariableStore.getVariableNames c)
  end.

Fixpoint store_getVariable (self : VariableStore) (varname : string)
    : result (option PlotVariable) :=
  match self with
  | Plain _ lookup _ => Ok (lookup varname)
  | Merged stores mergedimid _ =>
      let fix collect (l : list VariableStore) : result (option (list PlotVariable)) :=
        match l with
        | [] => Ok (Some [])
        | store :: r =>
            var <- store_getVariable store varname ;;
            match var with
            | None => Ok None
            | Some v => vs <- collect r ;; Ok (option_map (cons v) vs)
            end
        end in
      vs <- collect stores ;;
      match vs with
      | None => Ok None
      | Some vars =>
          v <- MergedVariable (store_getDimensionInfo self) vars mergedimid ;;
          Ok (Some v)
      end
  | Custom c => Ok (CustomVariableStore.getVariable c varname)
  end.

(** [VariableStore.getVariableLongNames] of the base class:
    [dict([(name,self.getVariable(name).getLongName()) for name in names])]. *)
Definition base_getVariableLongNames (self : VariableStore) : result pyobj :=
  names <- store_getVariableNames self ;;
  pairs <- mapM (fun name =>
             var <- store_getVariable self name ;;
             v <- attr_of var "getLongName" ;;
             Ok (name, getLongName v)) names ;;
  Ok (PyDict (dict pairs)).

Fixpoint store_getVariableLongNames (self : VariableStore) : result pyobj :=
  match self with
  | Plain _ _ _ => base_getVariableLongNames self
  | Merged stores _ _ =>
      match stores with
      | [] => Raise IndexError
      | s0 :: _ => store_getVariableLongNames s0
      end
  | Custom c => Ok (CustomVariableStore.getVariableLongNames c)
  end.

(** *** getVariableTree

    The schema is a tree of [element] nodes with their [name], [label] and
    [type] attributes; a document may have lost its root. *)
Inductive element : Type :=
| Element (name : string) (label type : option string) (children : list element).

Definition set_add (x : string) (s : list string) : list string :=
  if mem x s then s else s ++ [x].

Definition set_union (s1 s2 : list string) : list string :=
  fold_left (fun acc x => set_add x acc) s2 s1.

Fixpoint filterNodes (node : element) (vardict : pyobj)
    : result (option element * list string) :=
  match node with
  | Element nodeid label type children =>
      assert (negb (nodeid =? "")%string) "Node lacks name attribute." ;;;
      r <- (if py_contains vardict nodeid then
              label' <- match label with
                        | Some l => Ok (Some l)
                        | None => v <- py_getitem vardict nodeid ;; Ok (Some v)
                        end ;;
              Ok (label', Some "bool", [nodeid])
            else Ok (label, type, [])) ;;
      let '(label', type', nodeids) := r in
      let fix visit (l : list element) (ids : list string)
          : result (list element * list string) :=
        match l with
        | [] => Ok ([], ids)
        | ch :: rest =>
            c <- filterNodes ch vardict ;;
            r <- visit rest (set_union ids (snd c)) ;;
            Ok (match fst c with
                | Some ch' => ch' :: fst r
                | None => fst r
                end, snd r)
        end in
      r <- visit children nodeids ;;
      let '(children', nodeids) := r in
      if (length nodeids =? 0) && negb (nodeid =? "other")%string
      then Ok (None, nodeids)
      else Ok (Some (Element nodeid label' type' children'), nodeids)
  end.

(** Apply [f] to the first node named [other] in document order. *)
Fixpoint edit_other (f : element -> option element) (e : element) : option element * bool :=
  match e with
  | Element name label type children =>
      if (name =? "other")%string then (f e, true)
      else
        let fix visit (l : list element) : list element * bool :=
          match l with
          | [] => ([], false)
          | c :: r =>
              let '(c', found) := edit_other f c in
              if found then (match c' with Some c'' => c'' :: r | None => r end, true)
              else let '(r', found') := visit r in (c :: r', found')
          end in
        let '(children', found) := visit children in
        (Some (Element name label type children'), found)
  end.

Definition lower_ascii (c : ascii) : ascii :=
  let n := nat_of_ascii c in
  if (65 <=? n) && (n <=? 90) then ascii_of_nat (n + 32) else c.

Fixpoint lower (s : string) : string :=
  match s with
  | EmptyString => EmptyString
  | String c r => String (lower_ascii c) (lower r)
  end.

(** Stable insertion sort of (id, long name) pairs on the lower-cased long name. *)
Fixpoint insert_by_label (p : string * string) (l : list (string * string))
    : list (string * string) :=
  match l with
  | [] => [p]
  | q :: r => if String.ltb (lower (snd p)) (lower (snd q)) then p :: q :: r
              else q :: insert_by_label p r
  end.

Definition sort_by_label (l : list (string * string)) : list (string * string) :=
  fold_left (fun acc p => insert_by_label p acc) l [].

Definition getVariableTree (self : VariableStore) (xmlschema : element)
    : result (option element) :=
  vardict <- store_getVariableLongNames self ;;
  r <- filterNodes xmlschema vardict ;;
  let '(root, found) := r in
  keys <- py_keys vardict ;;
  let remaining := filter (fun k => negb (mem k found)) keys in
  match root with
  | None => Ok None
  | Some root =>
      if length remaining =? 0
      then Ok (fst (edit_other (fun _ => None) root))
      else
        labelled <- mapM (fun varid => l <- py_getitem vardict varid ;; Ok (varid, l)) remaining ;;
        let extra := map (fun p => Element (fst p) (Some (snd p)) (Some "bool") [])
                         (sort_by_label labelled) in
        Ok (fst (edit_other
                   (fun other => match other with
                                 | Element n l t ch => Some (Element n l t (ch ++ extra))
                                 end) root))
  end.

(** ** More numpy: reductions along an axis *)

Definition Qsum (l : list Q) : Q := fold_right Qplus 0%Q l.

(** The multi-index [idx] without its component at [axis]. *)
Definition drop_nth (axis : nat) (idx : list nat) : list nat :=
  firstn axis idx ++ skipn (S axis) idx.

(** [a.sum(axis)]. *)
Definition sum_axis (a : array) (axis : nat) : result array :=
  rsh <- list_del (shape a) axis ;;
  Ok (build rsh (fun idx => Qsum (lane 0%Q a axis idx))).

(** [numpy.diff(a, axis=axis)]. *)
Definition diff_axis (a : array) (axis : nat) : result array :=
  n <- list_item (shape a) axis ;;
  sh' <- list_setitem (shape a) axis (n - 1) ;;
  Ok (build sh' (fun idx =>
        let next := firstn axis idx ++ [S (nth axis idx 0)] ++ skipn (S axis) idx in
        (qget a next - qget a idx)%Q)).

(** [a.cumsum(axis)]. *)
Definition cumsum_axis (a : array) (axis : nat) : result array :=
  _ <- list_item (shape a) axis ;;
  Ok (build (shape a) (fun idx =>
        Qsum (firstn (S (nth axis idx 0)) (lane 0%Q a axis (drop_nth axis idx))))).

(** [s.reshape(newshape).repeat(n, axis)] where [newshape] is the shape of
    [s] with a one inserted at [axis]. *)
Definition expand_axis (s : array) (n axis : nat) : array :=
  build (list_insert (shape s) axis n) (fun idx => qget s (drop_nth axis idx)).

(** Stable insertion sort of (value, position) pairs on the value. *)
Fixpoint insert_sorted (p : Q * nat) (l : list (Q * nat)) : list (Q * nat) :=
  match l with
  | [] => [p]
  | q :: r => if Qltb (fst p) (fst q) then p :: q :: r else q :: insert_sorted p r
  end.

Definition argsort_list (l : list Q) : list nat :=
  map snd (fold_left (fun acc p => insert_sorted p acc) (combine l (seq 0 (length l))) []).

(** [a.argsort(axis)]: along each lane, the positions in increasing order of
    their values. *)
Definition argsort (a : array) (axis : nat) : result (ndarray nat) :=
  _ <- list_item (shape a) axis ;;
  Ok (build (shape a) (fun idx =>
        nth (nth axis idx 0) (argsort_list (lane 0%Q a axis (drop_nth axis idx))) 0)).

(** Modelled from the spec: [common.argtake(a, indices, axis)]; the module
    [common] is not among the sources.  The spec has the data and the
    weights "identically permuted" along the reduced dimension by the sort
    indices: the result at a position is the entry of [a] whose component
    along [axis] is the index stored at that position. *)
Definition argtake (a : array) (indices : ndarray nat) (axis : nat) : result array :=
  if list_eq_dec Nat.eq_dec (shape a) (shape indices)
  then Ok (build (shape a) (fun idx =>
             qget a (firstn axis idx ++ [get 0 indices idx] ++ skipn (S axis) idx)))
  else Raise (ValueError "shape mismatch").

(** Modelled from the spec: [common.replicateCoordinates(w, data, axis)]; the
    module [common] is not among the sources.  The spec has the vector of
    cell widths "broadcast across other dimensions": an array of the shape
    of [data] that holds [w[j]] wherever the component along [axis] is [j]. *)
Definition replicateCoordinates (w : array) (data : array) (axis : nat) : result array :=
  n <- list_item (shape data) axis ;;
  assert (match shape w with [m] => m =? n | _ => false end)
    "replicateCoordinates: length of the vector does not match the axis" ;;;
  Ok (build (shape data) (fun idx => qget w [nth axis idx 0])).

(** Linear interpolation of [ys] over the grid [xs] at [x]; outside the grid
    the nearest end value. *)
Fixpoint interp (xs ys : list Q) (x : Q) : Q :=
  match xs, ys with
  | x0 :: ((x1 :: _) as xs'), y0 :: ((y1 :: _) as ys') =>
      if Qle_bool x x0 then y0
      else if Qle_bool x x1 then (y0 + (x - x0) / (x1 - x0) * (y1 - y0))%Q
      else interp xs' ys' x
  | _, y0 :: _ => y0
  | _, _ => 0%Q
  end.

(** Modelled from the spec: [common.getPercentile(data, cumweights, crit,
    axis)]; the module [common] is not among the sources.  The spec has it
    "interpolate the data value at a target cumulative fraction" on the
    cumulative-weight axis anchored at 0, along the reduced dimension. *)
Definition getPercentile (sorteddata cumweights : array) (crit : Q) (axis : nat) : result array :=
  rsh <- list_del (shape sorteddata) axis ;;
  if list_eq_dec Nat.eq_dec (shape sorteddata) (shape cumweights)
  then Ok (build rsh (fun idx =>
             interp (lane 0%Q cumweights axis idx) (lane 0%Q sorteddata axis idx) crit))
  else Raise (ValueError "shape mismatch").

Definition Qsquare (x : Q) : Q := (x * x)%Q.

(** ** Variable transforms *)

(** The names bound at module level in [plot.py]. *)
Definition module_globals : list string :=
  ["math"; "os"; "xml"; "matplotlib"; "numpy"; "common"; "xmlstore"; "colormaps";
   "VariableStore"; "Variable"; "MergedVariableStore"; "CustomVariableStore";
   "CustomDateFormatter"; "VariableTransform"; "VariableReduceDimension";
   "VariableSlice"; "VariableAverage"; "VariableFlat"; "FigureProperties"; "Figure";
   "setLineProperties"; "getLineProperties"; "getTimeLocator"; "getTimeTickSettings"].

(** Reading a name that is not a local of the function: Python looks it up
    among the module's globals (and the builtins, which have neither [dims]
    nor [data]). *)
Definition load_global (name : string) : result unit :=
  if mem name module_globals then Ok tt else Raise (NameError name).

Fixpoint index_of (x : string) (l : list string) : option nat :=
  match l with
  | [] => None
  | y :: r => if (y =? x)%string then Some 0 else option_map S (index_of x r)
  end.

(** *** class VariableReduceDimension (with the fields of VariableTransform) *)

Record VariableReduceDimension : Type := mkReduce {
  sourcevar : PlotVariable;
  name : string;
  longname : string;
  dimension : string;
  idimension : nat
}.

(** [VariableReduceDimension.__init__(variable, dimension, nameprefix=..,
    longnameprefix=..)]. *)
Definition VariableReduceDimension_init (variable : PlotVariable) (dimension : string)
    (nameprefix longnameprefix : string) : result VariableReduceDimension :=
  match index_of dimension (getDimensions variable) with
  | Some i =>
      Ok {| sourcevar := variable;
            name := (nameprefix ++ getName variable)%string;
            longname := (longnameprefix ++ getLongName variable)%string;
            dimension := dimension;
            idimension := i |}
  | None => Raise (AssertionError "Dimension is not present for this variable.")
  end.

Definition Reduce_getDimensions (self : VariableReduceDimension) : list string :=
  filter (fun d => negb (d =? dimension self)%string) (getDimensions (sourcevar self)).

(** *** class VariableSlice *)

(** [a.searchsorted(v)] of numpy, which is not among the sources: on a
    vector in ascending order, which is what numpy asks for, it returns the
    position of the first entry that is not below [v].  The scan below
    returns that position; on a vector that is not in ascending order
    numpy's bisection may return another one, so a statement that depends on
    the position assumes [ascending]. *)
Fixpoint searchsorted (a : list Q) (v : Q) : nat :=
  match a with
  | [] => 0
  | x :: r => if Qltb x v then S (searchsorted r v) else 0
  end.

(** A vector in ascending order: no entry is above the next one. *)
Fixpoint ascending (a : list Q) : Prop :=
  match a with
  | x :: ((y :: _) as r) => (x <= y)%Q /\ ascending r
  | _ => True
  end.

(** [sourceslice.isValid] without the call: a bound method, which is true. *)
Definition bound_method_truth : bool := true.

Definition VariableSlice_getSlice (self : VariableReduceDimension) (sliceval : Q)
    (bounds : list bound) : result Slice :=
  let newslice := newSlice (Reduce_getDimensions self) in
  let newbounds := list_insert bounds (idimension self) (Some sliceval, Some sliceval) in
  sourceslice <- getSlice (sourcevar self) newbounds ;;
  if negb bound_method_truth then Ok newslice
  else
    c <- list_item (coords sourceslice) (idimension self) ;;
    c <- attr_of c "ndim" ;;
    assert (length (shape c) =? 1)
      "Slicing is not (yet) supported for dimensions that have coordinates that depend on other dimensions." ;;;
    let ipos := searchsorted (flat c) sliceval in
    n <- list_item (shape c) 0 ;;
    if (ipos =? 0) || (n <=? ipos) then Ok newslice
    else
      leftx <- list_item (flat c) (ipos - 1) ;;
      rightx <- list_item (flat c) ipos ;;
      let deltax := (rightx - leftx)%Q in
      let stepx := (sliceval - leftx)%Q in
      let relstep := (stepx / deltax)%Q in
      (* [if len(dims)==1:] reads [dims]; the branch under it reads [data].
         Neither is a local or a global.  Nothing below assigns to
         [newslice], which is what the last line returns. *)
      load_global "dims" ;;;
      load_global "data" ;;;
      Ok newslice.

Definition VariableSlice (variable : PlotVariable) (slicedimension : string)
    (slicecoordinate : Q) : result PlotVariable :=
  self <- VariableReduceDimension_init variable slicedimension "" "" ;;
  Ok {| getName := name self;
        getLongName := longname self;
        getUnit := getUnit (sourcevar self);
        getDimensions := Reduce_getDimensions self;
        getSlice := VariableSlice_getSlice self slicecoordinate;
        getDimensionInfo := getDimensionInfo (sourcevar self) |}.

(** *** class VariableAverage *)

Section NumpySqrt.

(** [numpy.sqrt] on one number.  Its results are not rational in general,
    so the function is a parameter; it receives the number in lowest
    terms. *)
Variable sqrt : Q -> Q.

Definition np_sqrt (a : array) : array := map1 (fun x => sqrt (Qred x)) a.

Record VariableAverage : Type := mkAverage {
  avg_base : VariableReduceDimension;
  centermeasure : Z;
  boundsmeasure : Z;
  percentilewidth : Q
}.

(** The loop that copies the coordinates of the dimensions that stay. *)
Definition average_coords_step (axis : nat) (sourceslice : Slice)
    (slice : Slice) (idim : nat) : result Slice :=
  if idim =? axis then Ok slice
  else
    c <- list_item (coords sourceslice) idim ;;
    s <- list_item (coords_stag sourceslice) idim ;;
    c0 <- attr_of c "ndim" ;;
    cs <- (if 1 <? length (shape c0) then
             c1 <- take 0%Q c0 [0] axis ;;
             s0 <- attr_of s "take" ;;
             s1 <- take 0%Q s0 [0] axis ;;
             c2 <- reshape c1 (drop_nth axis (shape c1)) ;;
             s2 <- reshape s1 (drop_nth axis (shape s1)) ;;
             Ok (Some c2, Some s2)
           else Ok (c, s)) ;;
    let itargetdim := if axis <? idim then idim - 1 else idim in
    cs' <- list_setitem (coords slice) itargetdim (fst cs) ;;
    ss' <- list_setitem (coords_stag slice) itargetdim (snd cs) ;;
    Ok (set_coords_stag (set_coords slice cs') ss').

(** The weights: cell widths along [axis], normalised so that they sum to
    one along [axis]. *)
Definition average_weights (axis : nat) (sourceslice : Slice) (d : array) : result array :=
  w <- list_item (coords_stag sourceslice) axis ;;
  w <- attr_of w "ndim" ;;
  weights <- (if length (shape w) =? 1 then
                dw <- diff_axis w 0 ;;
                replicateCoordinates dw d axis
              else diff_axis w axis) ;;
  summedweights <- sum_axis weights axis ;;
  n <- list_item (shape d) axis ;;
  map2 Qdiv weights (expand_axis summedweights n axis).

(** The data at the interfaces between the sorted points, and the
    cumulative weights anchored at zero. *)
Definition average_distribution (axis : nat) (d weights : array) : result (array * array) :=
  sortedindices <- argsort d axis ;;
  sorteddata <- argtake d sortedindices axis ;;
  sortedweights <- argtake weights sortedindices axis ;;
  cumsortedweights <- cumsum_axis sortedweights axis ;;
  first <- take 0%Q sorteddata [0] axis ;;
  last <- take_last 0%Q sorteddata axis ;;
  lo <- concatenate 0%Q first sorteddata axis ;;
  hi <- concatenate 0%Q sorteddata last axis ;;
  both <- map2 Qplus lo hi ;;
  let sorteddata := map1 (fun x => x / 2)%Q both in
  c0 <- take 0%Q cumsortedweights [0] axis ;;
  cumsortedweights <- concatenate 0%Q (empty 0%Q (shape c0)) cumsortedweights axis ;;
  Ok (sorteddata, cumsortedweights).

(** A local that is read must have been assigned. *)
Definition load_local {A : Type} (name : string) (v : option A) : result A :=
  match v with
  | Some a => Ok a
  | None => Raise (NameError name)
  end.

Definition VariableAverage_getSlice (self : VariableAverage) (bounds : list bound)
    : result Slice :=
  let base := avg_base self in
  let axis := idimension base in
  let newbounds := list_insert bounds axis (None, None) in
  sourceslice <- getSlice (sourcevar base) newbounds ;;
  if negb (isValid sourceslice) then Ok (newSlice [])
  else
    slice <- foldM (average_coords_step axis sourceslice)
               (seq 0 (length (coords sourceslice)))
               (newSlice (Reduce_getDimensions base)) ;;
    d <- attr_of (data sourceslice) "shape" ;;
    weights <- average_weights axis sourceslice d ;;
    mean <- (if (centermeasure self =? 0)%Z || (boundsmeasure self =? 0)%Z then
               dw <- map2 Qmult d weights ;;
               m <- sum_axis dw axis ;;
               Ok (Some m)
             else Ok None) ;;
    dist <- (if (centermeasure self =? 1)%Z || (boundsmeasure self =? 1)%Z then
               p <- average_distribution axis d weights ;;
               Ok (Some p)
             else Ok None) ;;
    center <- (if (centermeasure self =? 0)%Z then load_local "mean" mean
               else if (centermeasure self =? 1)%Z then
                 p <- load_local "sorteddata" dist ;;
                 getPercentile (fst p) (snd p) (1 # 2) axis
               else Raise (AssertionError "Unknown choice for center measure.")) ;;
    let slice := set_data slice (Some center) in
    if (boundsmeasure self =? 0)%Z then
      d2 <- map2 Qmult (map1 Qsquare d) weights ;;
      e2 <- sum_axis d2 axis ;;
      m <- load_local "mean" mean ;;
      var <- map2 Qminus e2 (map1 Qsquare m) ;;
      let sd := np_sqrt var in
      lb <- map2 Qminus center sd ;;
      ub <- map2 Qplus center sd ;;
      Ok (set_bounds slice (Some lb) (Some ub))
    else if (boundsmeasure self =? 1)%Z then
      let lowcrit := ((1 - percentilewidth self) / 2)%Q in
      let highcrit := (1 - lowcrit)%Q in
      p <- load_local "sorteddata" dist ;;
      lb <- getPercentile (fst p) (snd p) lowcrit axis ;;
      ub <- getPercentile (fst p) (snd p) highcrit axis ;;
      Ok (set_bounds slice (Some lb) (Some ub))
    else Raise (AssertionError "Unknown choice for bounds measure.").

Definition VariableAverage_init (variable : PlotVariable) (dimname : string)
    (centermeasure boundsmeasure : Z) (percentilewidth : Q) : result VariableAverage :=
  info <- getDimensionInfo variable dimname ;;
  base <- VariableReduceDimension_init variable dimname "avg_"
            (info_label info ++ "-averaged ")%string ;;
  Ok {| avg_base := base; centermeasure := centermeasure;
        boundsmeasure := boundsmeasure; percentilewidth := percentilewidth |}.

Definition VariableAverage_new (variable : PlotVariable) (dimname : string)
    (centermeasure boundsmeasure : Z) (percentilewidth : Q) : result PlotVariable :=
  self <- VariableAverage_init variable dimname centermeasure boundsmeasure percentilewidth ;;
  Ok {| getName := name (avg_base self);
        getLongName := longname (avg_base self);
        getUnit := getUnit variable;
        getDimensions := Reduce_getDimensions (avg_base self);
        getSlice := VariableAverage_getSlice self;
        getDimensionInfo := getDimensionInfo variable |}.

End NumpySqrt.

(** *** class VariableFlat *)

Record VariableFlat : Type := mkFlat {
  flat_base : VariableReduceDimension;
  targetdim : string;
  itargetdim : nat;
  inewtargetdim : nat
}.

Definition VariableFlat_init (variable : PlotVariable) (dimname targetdim : string)
    : result VariableFlat :=
  info <- getDimensionInfo variable dimname ;;
  base <- VariableReduceDimension_init variable dimname "flat_"
            (info_label info ++ "-combined ")%string ;;
  match index_of targetdim (getDimensions variable) with
  | None => Raise (ValueError "list.index(x): x not in list")
  | Some it =>
      Ok {| flat_base := base; targetdim := targetdim; itargetdim := it;
            inewtargetdim := if idimension base <? it then it - 1 else it |}
  end.

(** The body of the inner loop over [j]: one block of the source goes to one
    block of the new array. *)
Definition flat_copy (self : VariableFlat) (sourceslice : Slice) (d : array)
    (sourcecount i : nat) (newdata : array) (j : nat) : result array :=
  let sourceindices := repeat (Range 0 None) (ndim sourceslice) in
  sourceindices <- list_setitem sourceindices (itargetdim self) (Range i (Some (i + 1))) ;;
  sourceindices <- list_setitem sourceindices (idimension (flat_base self))
                     (Range j (Some (j + 1))) ;;
  let targetindices := repeat (Range 0 None) (length (shape newdata)) in
  targetindices <- list_setitem targetindices (inewtargetdim self)
                     (Range (i * sourcecount + j) (Some (i * sourcecount + j + 1))) ;;
  block <- getitem 0%Q d sourceindices ;;
  setitem 0%Q newdata targetindices block.

(** The body of the outer loop over [i]. *)
Definition flat_fill (self : VariableFlat) (sourceslice : Slice) (d ctarget : array)
    (sourcecount : nat) (acc : array * array) (i : nat) : result (array * array) :=
  let '(newtargetcoords, newdata) := acc in
  ci <- list_item (flat ctarget) i ;;
  newtargetcoords <- setitem 0%Q newtargetcoords
                       [Range (i * sourcecount) (Some ((i + 1) * sourcecount))] (scalar ci) ;;
  newdata <- foldM (flat_copy self sourceslice d sourcecount i) (seq 0 sourcecount) newdata ;;
  Ok (newtargetcoords, newdata).

Definition remove_at {A : Type} (i : nat) (l : list A) : list A :=
  map snd (filter (fun p => negb (fst p =? i)) (enumerate l)).

Definition VariableFlat_getSlice (self : VariableFlat) (bounds : list bound) : result Slice :=
  let base := flat_base self in
  assert (length bounds =? length (getDimensions (sourcevar base)) - 1)
    "Invalid number of dimension specified." ;;;
  let newbounds := list_insert bounds (idimension base) (None, None) in
  sourceslice <- getSlice (sourcevar base) newbounds ;;
  let newslice := newSlice (Reduce_getDimensions base) in
  csource <- list_item (coords sourceslice) (idimension base) ;;
  csource <- attr_of csource "ndim" ;;
  assert (length (shape csource) =? 1)
    "Currently, the dimension to flatten cannot depend on other dimensions." ;;;
  ctarget <- list_item (coords sourceslice) (itargetdim self) ;;
  ctarget <- attr_of ctarget "ndim" ;;
  assert (length (shape ctarget) =? 1)
    "Currently, the dimension to absorb flattened values cannot depend on other dimensions." ;;;
  sourcecount <- list_item (shape csource) 0 ;;
  targetcount <- list_item (shape ctarget) 0 ;;
  let newtargetcoords := empty 0%Q [targetcount * sourcecount] in
  d <- attr_of (data sourceslice) "shape" ;;
  nt <- list_item (shape d) (itargetdim self) ;;
  newdatashape <- list_setitem (shape d) (itargetdim self) (nt * sourcecount) ;;
  newdatashape <- list_del newdatashape (idimension base) ;;
  let newdata := empty 0%Q newdatashape in
  r <- foldM (flat_fill self sourceslice d ctarget sourcecount)
         (seq 0 targetcount) (newtargetcoords, newdata) ;;
  let '(newtargetcoords, newdata) := r in
  let cs := remove_at (idimension base) (coords sourceslice) in
  let ss := remove_at (idimension base) (coords_stag sourceslice) in
  cs <- list_setitem cs (inewtargetdim self) (Some newtargetcoords) ;;
  Ok (set_data (set_coords_stag (set_coords newslice cs) ss) (Some newdata)).

Definition VariableFlat_new (variable : PlotVariable) (dimname targetdim : string)
    : result PlotVariable :=
  self <- VariableFlat_init variable dimname targetdim ;;
  Ok {| getName := name (flat_base self);
        getLongName := longname (flat_base self);
        getUnit := getUnit variable;
        getDimensions := Reduce_getDimensions (flat_base self);
        getSlice := VariableFlat_getSlice self;
        getDimensionInfo := getDimensionInfo variable |}.

(** ** Time ticks: getTimeTickSettings *)

(** A [TicksMajor] or [TicksMinor] node of a property tree: each value is
    set or not. *)
Record TickSettings : Type := mkTicks {
  LocationTime : option Z;
  FormatTime : option Z;
  IntervalTime : option Q
}.

(** [node.getValue(usedefault=True)]: the value set in the tree, else the
    value of the linked default tree. *)
Definition getValue_usedefault {A : Type} (forced : option A) (default : A) : A :=
  match forced with
  | Some v => v
  | None => default
  end.

(** [unitlengths[location]]. *)
Definition unitlengths (location : Z) : result Q :=
  match location with
  | 0%Z => Ok 365%Q
  | 1%Z => Ok (61 # 2)%Q
  | 2%Z => Ok 1%Q
  | 3%Z => Ok (1 # 24)%Q
  | 4%Z => Ok (1 # 1440)%Q
  | _ => Raise (KeyError "location")
  end.

(** The unit and format chosen from the span in days. *)
Definition default_location (dayspan : Q) : Z * Z :=
  if Qle_bool 2 (dayspan / 365) then (0, 10)%Z
  else if Qle_bool 61 dayspan then (1, 4)%Z
  else if Qle_bool 2 dayspan then (2, 19)%Z
  else if Qle_bool 2 (24 * dayspan) then (3, 15)%Z
  else (4, 15)%Z.

(** [a/b] on Python floats. *)
Definition py_div (a b : Q) : result Q :=
  if Qeq_bool b 0 then Raise ZeroDivisionError else Ok (a / b)%Q.

(** [float(math.ceil(x))]. *)
Definition ceil (x : Q) : Q := inject_Z (Qceiling x).

Record TickResult : Type := mkTickResult {
  tick_location : Z;
  tick_interval : Q;
  tick_format : Z;
  tick_span : Q;
  (* the default node after the call *)
  tick_defaults : TickSettings
}.

Definition getTimeTickSettings (dayspan : Q) (settings defsettings : TickSettings)
    (preferredcount : Q) : result TickResult :=
  let '(location, tickformat) := default_location dayspan in
  (* defsettings['LocationTime'].setValue(location), and the same for FormatTime *)
  let deflocation := location in
  let defformat := tickformat in
  let location := getValue_usedefault (LocationTime settings) deflocation in
  let tickformat := getValue_usedefault (FormatTime settings) defformat in
  unitlength <- unitlengths location ;;
  let tickcount := (dayspan / unitlength)%Q in
  perinterval <- py_div tickcount preferredcount ;;
  let interval := ceil perinterval in
  let interval := if Qltb interval 1 then 1%Q else interval in
  let defsettings := {| LocationTime := Some deflocation;
                        FormatTime := Some defformat;
                        IntervalTime := Some interval |} in
  let interval := getValue_usedefault (IntervalTime settings) interval in
  ticks <- py_div tickcount interval ;;
  let interval := if Qltb 100 ticks then ceil (tickcount / 100) else interval in
  Ok {| tick_location := location; tick_interval := interval; tick_format := tickformat;
        tick_span := (interval * unitlength)%Q; tick_defaults := defsettings |}.

(** ** class Figure *)

Record SeriesNode : Type := mkSeries {
  series_id : string;             (* getSecondaryId(): "source/variable" *)
  series_label : option string;   (* Label, when set *)
  series_plottype3d : option Z;   (* PlotType3D, when set *)
  series_hasline : bool           (* the line style or the marker is not empty *)
}.

Record AxisNode : Type := mkAxis {
  axis_id : string;
  axis_minimum : option Q;
  axis_maximum : option Q
}.

(** What a rebuild asks the plotting backend to draw for one series. *)
Inductive drawing : Type :=
| Line (label : string) (x y : array)
| Mesh (label : string) (z : array)
| Contour (label : string) (filled : bool) (z : array).

Record Figure : Type := mkFigure {
  updating : bool;
  dirty : bool;
  haschanged : bool;
  sources : list (string * VariableStore);
  defaultsource : option string;
  forcedseries : list SeriesNode;   (* properties['Data'], the Series nodes *)
  forcedaxes : list AxisNode;       (* properties['Axes'], the Axis nodes *)
  defaultseries : list string;      (* defaultproperties['Data'], ids of the Series nodes *)
  defaulttitle : string;            (* defaultproperties['Title'] *)
  callbacks : list nat;             (* callbacks['completeStateChange'] *)
  canvas : list drawing;            (* the series the figure shows *)
  notified : list (nat * bool);     (* the calls made to the callbacks, oldest first *)
  rebuilds : nat                    (* how often figure.clear() started a rebuild *)
}.

Definition set_dirty (f : Figure) (b : bool) : Figure :=
  {| updating := updating f; dirty := b; haschanged := haschanged f;
     sources := sources f; defaultsource := defaultsource f;
     forcedseries := forcedseries f; forcedaxes := forcedaxes f;
     defaultseries := defaultseries f; defaulttitle := defaulttitle f;
     callbacks := callbacks f; canvas := canvas f; notified := notified f;
     rebuilds := rebuilds f |}.

Definition set_updating (f : Figure) (b : bool) : Figure :=
  {| updating := b; dirty := dirty f; haschanged := haschanged f;
     sources := sources f; defaultsource := defaultsource f;
     forcedseries := forcedseries f; forcedaxes := forcedaxes f;
     defaultseries := defaultseries f; defaulttitle := defaulttitle f;
     callbacks := callbacks f; canvas := canvas f; notified := notified f;
     rebuilds := rebuilds f |}.

Definition set_haschanged (f : Figure) (b : bool) : Figure :=
  {| updating := updating f; dirty := dirty f; haschanged := b;
     sources := sources f; defaultsource := defaultsource f;
     forcedseries := forcedseries f; forcedaxes := forcedaxes f;
     defaultseries := defaultseries f; defaulttitle := defaulttitle f;
     callbacks := callbacks f; canvas := canvas f; notified := notified f;
     rebuilds := rebuilds f |}.

Definition registerCallback (f : Figure) (callback : nat) : Figure :=
  {| updating := updating f; dirty := dirty f; haschanged := haschanged f;
     sources := sources f; defaultsource := defaultsource f;
     forcedseries := forcedseries f; forcedaxes := forcedaxes f;
     defaultseries := defaultseries f; defaulttitle := defaulttitle f;
     callbacks := callbacks f ++ [callback]; canvas := canvas f;
     notified := notified f; rebuilds := rebuilds f |}.

(** [varpath.split('/',1)] when it yields two parts. *)
Fixpoint split_first (s : string) : option (string * string) :=
  match s with
  | EmptyString => None
  | String c r =>
      if Ascii.eqb c "/"%char then Some (EmptyString, r)
      else option_map (fun p => (String c (fst p), snd p)) (split_first r)
  end.

Fixpoint assoc {A : Type} (k : string) (l : list (string * A)) : option A :=
  match l with
  | [] => None
  | (k', v) :: r => if (k' =? k)%string then Some v else assoc k r
  end.

Definition Qopt_eqb (a b : option Q) : bool :=
  match a, b with
  | Some x, Some y => Qeq_bool x y
  | None, None => true
  | _, _ => false
  end.

(** The loop over [originaldims]: a dimension with a forced range whose ends
    coincide is sliced out, the others contribute their bounds. *)
Definition dimension_step (dim2data : list (string * bound))
    (acc : PlotVariable * list bound) (dimname : string)
    : result (PlotVariable * list bound) :=
  let '(var, dimbounds) := acc in
  match assoc dimname dim2data with
  | Some forcedrange =>
      if Qopt_eqb (fst forcedrange) (snd forcedrange) && is_some (fst forcedrange)
      then
        match fst forcedrange with
        | Some x => var' <- VariableSlice var dimname x ;; Ok (var', dimbounds)
        | None => Ok acc
        end
      else Ok (var, dimbounds ++ [forcedrange])
  | None => Ok (var, dimbounds ++ [(None, None)])
  end.

(** The title that [update] stores as default. *)
Definition default_title (titles : list string) : string :=
  match titles with
  | [] => ""
  | t :: rest =>
      if forallb (fun ln => (ln =? t)%string) rest then t
      else fold_left (fun acc ln => (acc ++ ", " ++ ln)%string) rest t
  end.

(** What the loop over the series carries along. *)
Record LoopState : Type := mkLoop {
  loop_canvas : list drawing;
  loop_defaults : list string;
  loop_olddefaults : list string;
  loop_titles : list string;
  loop_colorbar : bool
}.

Fixpoint remove_first (x : string) (l : list string) : list string :=
  match l with
  | [] => []
  | y :: r => if (y =? x)%string then r else y :: remove_first x r
  end.

Section FigureUpdate.

(** The parts of [update] that only talk to the plotting backend and to the
    property trees of the axes, and can raise:
    [series_ranges] is the bookkeeping of data ranges per dimension for
    one plotted series, [decorate] is everything between the loop over the
    series and the callbacks (title, legend, axes, ticks, grid, drawing). *)
Variable series_ranges : Slice -> result unit.
Variable decorate : list drawing -> result unit.

(** Drawing one series once its slice is squeezed. *)
Definition plot_series (st : LoopState) (seriesnode : SeriesNode) (label : string)
    (varslice : Slice) : result LoopState :=
  d <- attr_of (data varslice) "min" ;;
  match ndim varslice with
  | 1 =>
      x <- list_item (coords varslice) 0 ;;
      x <- attr_of x "ndim" ;;
      Ok {| loop_canvas := if series_hasline seriesnode
                           then loop_canvas st ++ [Line label x d] else loop_canvas st;
            loop_defaults := loop_defaults st;
            loop_olddefaults := loop_olddefaults st;
            loop_titles := loop_titles st;
            loop_colorbar := loop_colorbar st |}
  | 2 =>
      let plottype3d := getValue_usedefault (series_plottype3d seriesnode) 0%Z in
      let contour := (plottype3d =? 1)%Z || (plottype3d =? 2)%Z in
      let fill := (plottype3d =? 1)%Z in
      let pc := if contour then fill else true in
      (if pc then assert (negb (loop_colorbar st))
                    "Currently only one object that needs a colorbar is supported per figure."
       else Ok tt) ;;;
      Ok {| loop_canvas := loop_canvas st
                           ++ [if contour then Contour label fill d else Mesh label d];
            loop_defaults := loop_defaults st;
            loop_olddefaults := loop_olddefaults st;
            loop_titles := loop_titles st;
            loop_colorbar := loop_colorbar st || pc |}
  | _ => Ok st
  end.

(** The body of the loop over the configured series. *)
Definition series_step (self : Figure) (dim2data : list (string * bound))
    (st : LoopState) (seriesnode : SeriesNode) : result LoopState :=
  let varpath := series_id seriesnode in
  if (varpath =? "")%string then Ok st
  else
    match split_first varpath with
    | None => Raise (ValueError "need more than 1 value to unpack")
    | Some (varsource, varname) =>
        varsource <- (if (varsource =? "")%string then
                        match defaultsource self with
                        | Some s => Ok s
                        | None => Raise (AssertionError
                            "No data source set for variable, but no default source available either.")
                        end
                      else Ok varsource) ;;
        varstore <- match assoc varsource (sources self) with
                    | Some s => Ok s
                    | None => Raise (KeyError varsource)
                    end ;;
        var <- store_getVariable varstore varname ;;
        var <- match var with
               | Some v => Ok v
               | None => Raise (AssertionError "Source does not contain variable with this name.")
               end ;;
        let longname := getLongName var in
        let label := getValue_usedefault (series_label seriesnode) longname in
        let st := {| loop_canvas := loop_canvas st;
                     loop_defaults := set_add varpath (loop_defaults st);
                     loop_olddefaults := remove_first varpath (loop_olddefaults st);
                     loop_titles := loop_titles st ++ [label];
                     loop_colorbar := loop_colorbar st |} in
        let originaldims := getDimensions var in
        r <- foldM (dimension_step dim2data) originaldims (var, []) ;;
        let '(var, dimbounds) := r in
        varslice <- getSlice var dimbounds ;;
        if negb (isValid varslice) then Ok st
        else
          foldM (fun _ dimname => getDimensionInfo var dimname ;;; Ok tt) originaldims tt ;;;
          varslice <- squeeze varslice ;;
          series_ranges varslice ;;;
          plot_series st seriesnode label varslice
    end.

Definition update (self : Figure) : result Figure :=
  if negb (updating self) then Ok (set_dirty self true)
  else
    let dim2data := map (fun a => (axis_id a, (axis_minimum a, axis_maximum a)))
                        (forcedaxes self) in
    let olddefaults := defaultseries self in
    st <- foldM (series_step self dim2data) (forcedseries self)
            {| loop_canvas := []; loop_defaults := defaultseries self;
               loop_olddefaults := olddefaults; loop_titles := [];
               loop_colorbar := false |} ;;
    let defaults := fold_left (fun l oldname => remove_first oldname l)
                              (loop_olddefaults st) (loop_defaults st) in
    decorate (loop_canvas st) ;;;
    let calls := map (fun cb => (cb, 0 <? length (forcedseries self))) (callbacks self) in
    Ok {| updating := updating self; dirty := false; haschanged := haschanged self;
          sources := sources self; defaultsource := defaultsource self;
          forcedseries := forcedseries self; forcedaxes := forcedaxes self;
          defaultseries := defaults; defaulttitle := default_title (loop_titles st);
          callbacks := callbacks self; canvas := loop_canvas st;
          notified := notified self ++ calls; rebuilds := S (rebuilds self) |}.

Definition setUpdating (self : Figure) (allowupdates : bool) : result (Figure * bool) :=
  let oldval := updating self in
  if negb (Bool.eqb oldval allowupdates) then
    let self := set_updating self allowupdates in
    self <- (if allowupdates && dirty self then update self else Ok self) ;;
    Ok (self, oldval)
  else Ok (self, oldval).

Definition onPropertyStoreChanged (self : Figure) : result Figure :=
  update (set_haschanged self true).

Definition onPropertyChanged (self : Figure) (feature : string) : result Figure :=
  if (feature =? "value")%string then onPropertyStoreChanged self else Ok self.

End FigureUpdate.

(** ** Inputs of the scenarios *)

Definition no_bounds : bound := (None, None).

(** A source variable that always returns [slice]. *)
Definition source_variable (name : string) (slice : Slice) : PlotVariable :=
  {| getName := name; getLongName := name; getUnit := "";
     getDimensions := dimensions slice;
     getSlice := fun _ => Ok slice;
     getDimensionInfo := fun d => Ok (base_getDimensionInfo d) |}.

Definition series_slice (dim : string) (times values : list Q) (stag : list Q) : Slice :=
  {| dimensions := [dim]; ndim := 1;
     data := Some (vector values);
     coords := [Some (vector times)];
     coords_stag := [Some (vector stag)];
     lbound := None; ubound := None; fixedcoords := None |}.

(** "temp" over "time": values 10, 12, 14 at times 0, 1, 2. *)
Definition temp_slice : Slice :=
  series_slice "time" [0; 1; 2]%Q [10; 12; 14]%Q [-(1 # 2); 1 # 2; 3 # 2; 5 # 2]%Q.

Definition temp : PlotVariable := source_variable "temp" temp_slice.

(** Values 10, 12, 20 at the same times: the mean is 14, the median is not. *)
Definition skewed_slice : Slice :=
  series_slice "time" [0; 1; 2]%Q [10; 12; 20]%Q [-(1 # 2); 1 # 2; 3 # 2; 5 # 2]%Q.

Definition skewed : PlotVariable := source_variable "skewed" skewed_slice.

(** A valid slice with no data along "time". *)
Definition empty_slice : Slice :=
  series_slice "time" [] [] [0]%Q.

(** A valid slice of shape (0, 1, 3) over "a", "b", "c". *)
Definition hollow_slice : Slice :=
  {| dimensions := ["a"; "b"; "c"]; ndim := 3;
     data := Some (mkarray [0; 1; 3] []);
     coords := [Some (vector []); Some (vector [5]%Q); Some (vector [0; 1; 2]%Q)];
     coords_stag := [Some (vector [0]%Q); Some (vector [4; 6]%Q);
                     Some (vector [-(1 # 2); 1 # 2; 3 # 2; 5 # 2]%Q)];
     lbound := None; ubound := None; fixedcoords := None |}.

(** A 2 x 2 x 2 variable over "a", "b", "c" holding 1 .. 8 in row-major order. *)
Definition cube_slice : Slice :=
  {| dimensions := ["a"; "b"; "c"]; ndim := 3;
     data := Some (mkarray [2; 2; 2] [1; 2; 3; 4; 5; 6; 7; 8]%Q);
     coords := [Some (vector [0; 1]%Q); Some (vector [0; 1]%Q); Some (vector [0; 1]%Q)];
     coords_stag := [Some (vector [-(1 # 2); 1 # 2; 3 # 2]%Q);
                     Some (vector [-(1 # 2); 1 # 2; 3 # 2]%Q);
                     Some (vector [-(1 # 2); 1 # 2; 3 # 2]%Q)];
     lbound := None; ubound := None; fixedcoords := None |}.

Definition cube : PlotVariable := source_variable "cube" cube_slice.

(** A 2 x 3 variable over "a", "b" holding 1 .. 6 in row-major order. *)
Definition table_slice : Slice :=
  {| dimensions := ["a"; "b"]; ndim := 2;
     data := Some (mkarray [2; 3] [1; 2; 3; 4; 5; 6]%Q);
     coords := [Some (vector [10; 20]%Q); Some (vector [0; 1; 2]%Q)];
     coords_stag := [Some (vector [5; 15; 25]%Q);
                     Some (vector [-(1 # 2); 1 # 2; 3 # 2; 5 # 2]%Q)];
     lbound := None; ubound := None; fixedcoords := None |}.

Definition table : PlotVariable := source_variable "table" table_slice.

(** The dimensions of a slice whose data length is not one: what a
    [squeeze] that removes exactly the singleton dimensions keeps. *)
Definition dimensions_not_one (s : Slice) : list string :=
  match data s with
  | Some d => map fst (filter (fun p => negb (snd p =? 1)) (combine (dimensions s) (shape d)))
  | None => []
  end.

(** Two variables that share the short name "temp". *)
Definition named (name longname : string) : PlotVariable :=
  {| getName := name; getLongName := longname; getUnit := "";
     getDimensions := [];
     getSlice := fun _ => Ok (newSlice []);
     getDimensionInfo := fun d => Ok (base_getDimensionInfo d) |}.

Definition two_temps : CustomVariableStore.t :=
  CustomVariableStore.addVariable
    (CustomVariableStore.addVariable CustomVariableStore.init (named "temp" "first"))
    (named "temp" "second").

(** The variable with the requested name that was added last. *)
Definition last_added (l : list PlotVariable) (varname : string) : option PlotVariable :=
  CustomVariableStore.scan (rev l) varname.

(** A figure with one configured series, "s/temp", whose variable has the
    [getSlice] of the abstract class [Variable]: an invalid slice. *)
Definition abstract_store : VariableStore :=
  Plain ["temp"]
        (fun n => if (n =? "temp")%string
                  then Some (baseVariable (fun d => Ok (base_getDimensionInfo d))) else None)
        base_getDimensionInfo.

Definition skipped_figure : Figure :=
  {| updating := true; dirty := false; haschanged := false;
     sources := [("s", abstract_store)]; defaultsource := Some "s";
     forcedseries := [{| series_id := "s/temp"; series_label := None;
                         series_plottype3d := None; series_hasline := true |}];
     forcedaxes := []; defaultseries := []; defaulttitle := "";
     callbacks := [7]; canvas := []; notified := []; rebuilds := 0 |}.

(** A backend on which nothing raises. *)
Definition quiet_ranges (_ : Slice) : result unit := Ok tt.
Definition quiet_decorate (_ : list drawing) : result unit := Ok tt.

Definition after_update (f : Figure) : Figure :=
  match update quiet_ranges quiet_decorate f with
  | Ok f' => f'
  | Raise _ => f
  end.

(** Whether the last rebuild drew any series. *)
Definition any_plotted (f : Figure) : bool :=
  match canvas f with
  | [] => false
  | _ :: _ => true
  end.

(** The same figure, suspended with a rebuild pending. *)
Definition pending_figure : Figure := set_dirty (set_updating skipped_figure false) true.


(** Two stores that both hold "temp", merged. *)
Definition two_runs : list PlotVariable := [temp; temp].

(** ** The weighted statistics of the average transform, point by point *)

(** The width of cell [j] along [axis] at the position [idx] of the other
    axes: the difference of two consecutive interface coordinates. *)
Definition cell_width (w : array) (axis : nat) (idx : list nat) (j : nat) : Q :=
  if length (shape w) =? 1 then (qget w [S j] - qget w [j])%Q
  else (qget w (list_insert idx axis (S j)) - qget w (list_insert idx axis j))%Q.

(** The widths divided by their sum along the axis. *)
Definition cell_weight (w : array) (axis n : nat) (idx : list nat) (j : nat) : Q :=
  (cell_width w axis idx j / Qsum (map (cell_width w axis idx) (seq 0 n)))%Q.

(** The expectation of [f x] along [axis] under these weights. *)
Definition expectation (f : Q -> Q) (d w : array) (axis : nat) (idx : list nat) : Q :=
  let n := nth axis (shape d) 0 in
  Qsum (map (fun j => (f (qget d (list_insert idx axis j)) * cell_weight w axis n idx j)%Q)
            (seq 0 n)).

Definition weighted_mean : array -> array -> nat -> list nat -> Q :=
  expectation (fun x => x).

Definition weighted_meansquare : array -> array -> nat -> list nat -> Q :=
  expectation Qsquare.

(** The shape of the interface coordinates of the reduced dimension: a
    vector with one entry more than the data have along [axis], or an array
    of the shape of the data with one entry more along [axis]. *)
Definition interfaces_fit (w d : array) (axis : nat) : Prop :=
  let n := nth axis (shape d) 0 in
  shape w = [S n]
  \/ (1 < length (shape w)
      /\ shape w = firstn axis (shape d) ++ S n :: skipn (S axis) (shape d)).

(** What the coordinates of a dimension that stays must satisfy to be
    copied: when they depend on other dimensions ([ndim > 1]) they, and the
    interface coordinates, have the reduced axis and at least one entry
    along it. *)
Definition copyable (axis : nat) (c s : option array) : Prop :=
  forall c0, c = Some c0 -> 1 < length (shape c0) ->
    axis < length (shape c0) /\ 0 < nth axis (shape c0) 0
    /\ forall s0, s = Some s0 -> axis < length (shape s0) /\ 0 < nth axis (shape s0) 0.

(** A stand-in for [numpy.sqrt] in the examples: the square root rounded
    down to three decimals. *)
Definition sqrt_3dp (q : Q) : Q :=
  (Z.sqrt (Qnum q * 1000000 / Z.pos (Qden q)) # 1000)%Q.

(** [VariableAverage(temp, 'time')]: mean and standard deviation. *)
Definition temp_average : VariableAverage :=
  {| avg_base := {| sourcevar := temp; name := "avg_temp";
                    longname := "-averaged temp"; dimension := "time"; idimension := 0 |};
     centermeasure := 0; boundsmeasure := 0; percentilewidth := 1 # 2 |}.

(** [VariableAverage(skewed, 'time', centermeasure=1)]: median and standard
    deviation. *)
Definition skewed_median : VariableAverage :=
  {| avg_base := {| sourcevar := skewed; name := "avg_skewed";
                    longname := "-averaged skewed"; dimension := "time"; idimension := 0 |};
     centermeasure := 1; boundsmeasure := 0; percentilewidth := 1 # 2 |}.

(** ** getTimeLocator *)

(** The locators of [matplotlib.dates] that [getTimeLocator] creates, each
    with the interval it is given.  The message of the assertion ends with
    the location in the source; here it stops before it. *)
Inductive locator : Type :=
| YearLocator (base : Q)
| MonthLocator (interval : Q)
| DayLocator (interval : Q)
| HourLocator (interval : Q)
| MinuteLocator (interval : Q).

Definition getTimeLocator (location : Z) (interval : Q) : result locator :=
  if (location =? 0)%Z then Ok (YearLocator interval)
  else if (location =? 1)%Z then Ok (MonthLocator interval)
  else if (location =? 2)%Z then Ok (DayLocator interval)
  else if (location =? 3)%Z then Ok (HourLocator interval)
  else if (location =? 4)%Z then Ok (MinuteLocator interval)
  else Raise (AssertionError "unknown tick location").

(** ** Figure: data sources and the change flag *)

(** [d[k] = v] on a dictionary kept as an association list. *)
Fixpoint assoc_set {A : Type} (l : list (string * A)) (k : string) (v : A) : list (string * A) :=
  match l with
  | [] => [(k, v)]
  | (k', v') :: r => if (k' =? k)%string then (k', v) :: r else (k', v') :: assoc_set r k v
  end.

Definition clearSources (f : Figure) : Figure :=
  {| updating := updating f; dirty := dirty f; haschanged := haschanged f;
     sources := []; defaultsource := None;
     forcedseries := forcedseries f; forcedaxes := forcedaxes f;
     defaultseries := defaultseries f; defaulttitle := defaulttitle f;
     callbacks := callbacks f; canvas := canvas f; notified := notified f;
     rebuilds := rebuilds f |}.

Definition addDataSource (f : Figure) (name : string) (obj : VariableStore) : Figure :=
  {| updating := updating f; dirty := dirty f; haschanged := haschanged f;
     sources := assoc_set (sources f) name obj;
     defaultsource := match defaultsource f with
                      | None => Some name
                      | Some s => Some s
                      end;
     forcedseries := forcedseries f; forcedaxes := forcedaxes f;
     defaultseries := defaultseries f; defaulttitle := defaulttitle f;
     callbacks := callbacks f; canvas := canvas f; notified := notified f;
     rebuilds := rebuilds f |}.

(** A run of [addDataSource] calls, in order. *)
Definition add_all (f : Figure) (added : list (string * VariableStore)) : Figure :=
  fold_left (fun g p => addDataSource g (fst p) (snd p)) added f.

Definition hasChanged (f : Figure) : bool := haschanged f.

Definition resetChanged (f : Figure) : Figure := set_haschanged f false.

(** Whether drawing [d] attaches a colorbar: a pseudocolor mesh and a
    filled contour plot do ([pc] is not [None]), lines and contour lines do
    not. *)
Definition needs_colorbar (d : drawing) : bool :=
  match d with
  | Line _ _ _ => false
  | Mesh _ _ => true
  | Contour _ filled _ => filled
  end.

(** What one step of the loop over the series does to the drawings and to
    the colorbar flag: nothing, or one more drawing, which carries a
    colorbar only if none was there. *)
Definition drawn (st st' : LoopState) : Prop :=
  (loop_canvas st' = loop_canvas st /\ loop_colorbar st' = loop_colorbar st)
  \/ exists d, loop_canvas st' = loop_canvas st ++ [d]
               /\ (needs_colorbar d = true -> loop_colorbar st = false)
               /\ loop_colorbar st' = loop_colorbar st || needs_colorbar d.

(** A store that holds the 2 x 3 variable "table", and figures that show it
    once and twice as a pseudocolor mesh. *)
Definition table_store : VariableStore :=
  Plain ["table"] (fun n => if (n =? "table")%string then Some table else None)
        base_getDimensionInfo.

Definition table_series : SeriesNode :=
  {| series_id := "s/table"; series_label := None;
     series_plottype3d := None; series_hasline := true |}.

Definition mesh_figure : Figure :=
  {| updating := true; dirty := false; haschanged := false;
     sources := [("s", table_store)]; defaultsource := Some "s";
     forcedseries := [table_series];
     forcedaxes := []; defaultseries := ["s/old"]; defaulttitle := "";
     callbacks := []; canvas := []; notified := []; rebuilds := 0 |}.

Definition two_mesh_figure : Figure :=
  {| updating := true; dirty := false; haschanged := false;
     sources := [("s", table_store)]; defaultsource := Some "s";
     forcedseries := [table_series; table_series];
     forcedaxes := []; defaultseries := []; defaulttitle := "";
     callbacks := []; canvas := []; notified := []; rebuilds := 0 |}.

(** The dimensions of a slice whose data length is one: what [squeeze]
    records as fixed coordinates. *)
Definition dimensions_of_length_one (s : Slice) : list string :=
  match data s with
  | Some d => map fst (filter (fun p => snd p =? 1) (combine (dimensions s) (shape d)))
  | None => []
  end.

(** A valid slice of shape (1, 3) over "a", "b": "a" is a singleton. *)
Definition thin_slice : Slice :=
  {| dimensions := ["a"; "b"]; ndim := 2;
     data := Some (mkarray [1; 3] [7; 8; 9]%Q);
     coords := [Some (vector [5]%Q); Some (vector [0; 1; 2]%Q)];
     coords_stag := [Some (vector [4; 6]%Q);
                     Some (vector [-(1 # 2); 1 # 2; 3 # 2; 5 # 2]%Q)];
     lbound := None; ubound := None; fixedcoords := None |}.

(** A slice over "time" with its data and centre coordinates set, and no
    interface coordinates yet. *)
Definition bare_slice : Slice :=
  set_coords (set_data (newSlice ["time"]) (Some (vector [10; 12; 14]%Q)))
             [Some (vector [0; 1; 2]%Q)].

(** The names of all the nodes of a schema tree, the root first. *)
Fixpoint node_names (e : element) : list string :=
  match e with
  | Element name _ _ children => name :: flat_map node_names children
  end.

(** A schema with a node for "temp", a group that names no variable and
    the node "other". *)
Definition small_schema : element :=
  Element "root" None None
    [Element "physics" None None [Element "temp" None None []];
     Element "biology" None None [Element "algae" None None []];
     Element "other" None None []].

(** What [filterNodes] returns on a dictionary: the keys found, and the
    pruned node, which still holds a node for every key found. *)
Definition filtered (items : list (string * string)) (node : element)
    (kept : option element) (ids : list string) : Prop :=
  NoDup ids
  /\ (forall x, In x ids <-> In x (node_names node) /\ dict_get items x <> None)
  /\ (kept = None <-> ids = [] /\ (match node with Element n _ _ _ => n end) <> "other")
  /\ (forall k, kept = Some k -> forall x, In x ids -> In x (node_names k)).



(** ** Line properties: setLineProperties and getLineProperties *)

(** [kwargs.get(key, default)]. *)
Definition kwargs_get {A : Type} (given : option A) (default : A) : A :=
  match given with
  | Some v => v
  | None => default
  end.

(** [node.getValue(usedefault=True)] when the default may be unset too. *)
Definition node_value {A : Type} (forced default : option A) : option A :=
  match forced with
  | Some v => Some v
  | None => default
  end.

(** The dictionary [linestyles] of [setLineProperties], with its fallback. *)
Definition linestyle_code (s : string) : Z :=
  if (s =? "-")%string then 1%Z
  else if (s =? "--")%string then 2%Z
  else if (s =? "-.")%string then 3%Z
  else if (s =? ":")%string then 4%Z
  else 0%Z.

(** The dictionaries [markertypes] and [linestyles] of [getLineProperties]. *)
Definition markertypes (k : option Z) : result string :=
  match k with
  | Some 0%Z => Ok ""
  | Some 1%Z => Ok "."
  | Some 2%Z => Ok ","
  | Some 3%Z => Ok "o"
  | Some 4%Z => Ok "^"
  | Some 5%Z => Ok "s"
  | Some 6%Z => Ok "+"
  | Some 7%Z => Ok "x"
  | Some 8%Z => Ok "D"
  | _ => Raise (KeyError "markertype")
  end.

Definition linestyles (k : option Z) : result string :=
  match k with
  | Some 0%Z => Ok ""
  | Some 1%Z => Ok "-"
  | Some 2%Z => Ok "--"
  | Some 3%Z => Ok "-."
  | Some 4%Z => Ok ":"
  | _ => Raise (KeyError "linestyle")
  end.

Section LineProperties.

(** Colours are values of [xmlstore.StoreColor], which is not part of this
    file: the type and its [getNormalized] are parameters. *)
Variable color : Type.
Variable getNormalized : color -> Q * Q * Q.

(** A [LineProperties] node of a property tree: each value is set or not. *)
Record LineNode : Type := mkLineNode {
  CanHaveMarker : option bool;
  LineStyle : option Z;
  LineWidth : option Q;
  Color : option color;
  MarkerType : option Z;
  MarkerSize : option Q;
  MarkerFaceColor : option color
}.

(** The entries of [matplotlib.rcParams] for one section, the colour as
    the [StoreColor] it is converted to; the marker size may be missing. *)
Record RcSection : Type := mkRcSection {
  rc_linewidth : Q;
  rc_color : color;
  rc_linestyle : string;
  rc_markersize : option Q
}.

(** [setLineProperties(propertynode, mplsection, **kwargs)]: the node after
    the seven calls of [setValue]. *)
Definition setLineProperties (rc : RcSection) (kwargs : LineNode) : LineNode :=
  let deflinewidth := rc_linewidth rc in
  let deflinecolor := rc_color rc in
  let deflinestyle := linestyle_code (rc_linestyle rc) in
  let defmarkersize := kwargs_get (rc_markersize rc) 6%Q in
  {| CanHaveMarker := Some (kwargs_get (CanHaveMarker kwargs) true);
     LineStyle := Some (kwargs_get (LineStyle kwargs) deflinestyle);
     LineWidth := Some (kwargs_get (LineWidth kwargs) deflinewidth);
     Color := Some (kwargs_get (Color kwargs) deflinecolor);
     MarkerType := Some (kwargs_get (MarkerType kwargs) 0%Z);
     MarkerSize := Some (kwargs_get (MarkerSize kwargs) defmarkersize);
     MarkerFaceColor := Some (kwargs_get (MarkerFaceColor kwargs) deflinecolor) |}.

(** The dictionary that [getLineProperties] returns. *)
Record LineArgs : Type := mkLineArgs {
  arg_linestyle : string;
  arg_marker : string;
  arg_linewidth : option Q;
  arg_color : Q * Q * Q;
  arg_markersize : option Q;
  arg_markerfacecolor : Q * Q * Q
}.

(** [getLineProperties(propertynode)] on a node of the tree of explicit
    values ([forced]) that falls back on the tree of defaults. *)
Definition getLineProperties (forced defaults : LineNode) : result LineArgs :=
  marker <- markertypes (node_value (MarkerType forced) (MarkerType defaults)) ;;
  linestyle <- linestyles (node_value (LineStyle forced) (LineStyle defaults)) ;;
  let linewidth := node_value (LineWidth forced) (LineWidth defaults) in
  let color := node_value (Color forced) (Color defaults) in
  let markersize := node_value (MarkerSize forced) (MarkerSize defaults) in
  let markerfacecolor := node_value (MarkerFaceColor forced) (MarkerFaceColor defaults) in
  c <- attr_of color "getNormalized" ;;
  m <- attr_of markerfacecolor "getNormalized" ;;
  Ok {| arg_linestyle := linestyle; arg_marker := marker; arg_linewidth := linewidth;
        arg_color := getNormalized c; arg_markersize := markersize;
        arg_markerfacecolor := getNormalized m |}.

(** A node with no value set, and no keyword argument. *)
Definition no_line_values : LineNode :=
  {| CanHaveMarker := None; LineStyle := None; LineWidth := None; Color := None;
     MarkerType := None; MarkerSize := None; MarkerFaceColor := None |}.

End LineProperties.

Arguments CanHaveMarker {color} l.
Arguments LineStyle {color} l.
Arguments LineWidth {color} l.
Arguments Color {color} l.
Arguments MarkerType {color} l.
Arguments MarkerSize {color} l.
Arguments MarkerFaceColor {color} l.
Arguments rc_linewidth {color} r.
Arguments rc_color {color} r.
Arguments rc_linestyle {color} r.
Arguments rc_markersize {color} r.
Arguments setLineProperties {color} rc kwargs.
Arguments getLineProperties {color} getNormalized forced defaults.
Arguments no_line_values {color}.

(** ** class CustomDateFormatter *)

(** ['%e' in fmt] and [fmt.replace('%e', rep)] for a code of two characters:
    the occurrences are found from left to right and do not overlap. *)
Fixpoint contains2 (a b : ascii) (s : string) : bool :=
  match s with
  | String c1 ((String c2 _) as t) =>
      (Ascii.eqb c1 a && Ascii.eqb c2 b) || contains2 a b t
  | _ => false
  end.

Fixpoint replace2 (a b : ascii) (rep s : string) : string :=
  match s with
  | String c1 ((String c2 r) as t) =>
      if Ascii.eqb c1 a && Ascii.eqb c2 b then (rep ++ replace2 a b rep r)%string
      else String c1 (replace2 a b rep t)
  | _ => s
  end.

(** [s[0]] on a string. *)
Definition first_letter (s : string) : result string :=
  match s with
  | EmptyString => Raise IndexError
  | String c _ => Ok (String c EmptyString)
  end.

Definition digit_value (c : ascii) : option nat :=
  let n := nat_of_ascii c in
  if (48 <=? n) && (n <=? 57) then Some (n - 48) else None.

Fixpoint digits_value (s : string) (acc : nat) : option nat :=
  match s with
  | EmptyString => Some acc
  | String c r =>
      match digit_value c with
      | Some v => digits_value r (10 * acc + v)
      | None => None
      end
  end.

(** [int(s)] on the strings [%m] prints, decimal digits.  The empty string
    and a string with a letter are refused as in Python; signs, blanks and
    underscores, which [int] also reads, do not occur there and are not
    modelled. *)
Definition py_int (s : string) : result nat :=
  match s with
  | EmptyString => Raise (ValueError "invalid literal for int()")
  | _ => match digits_value s 0 with
         | Some n => Ok n
         | None => Raise (ValueError "invalid literal for int()")
         end
  end.

(** ['%i' % n] for a small natural number (the quarters and months below). *)
Definition digit_string (n : nat) : string :=
  String (ascii_of_nat (48 + n mod 10)) EmptyString.

Definition format_int (n : nat) : string :=
  if n <? 10 then digit_string n
  else (digit_string (n / 10) ++ digit_string n)%string.

(** [math.ceil(monthnr/3.)]. *)
Definition quarter (monthnr : nat) : nat := (monthnr + 2) / 3.

Section DateFormatter.

(** [matplotlib.dates.DateFormatter.strftime] and its dates are not part
    of this file. *)
Variable datetime : Type.
Variable base_strftime : datetime -> string -> string.

Definition strftime (dt : datetime) (fmt : string) : result string :=
  fmt <- (if contains2 "%" "e" fmt then
            dayname <- first_letter (base_strftime dt "%A") ;;
            Ok (replace2 "%" "e" dayname fmt)
          else Ok fmt) ;;
  fmt <- (if contains2 "%" "n" fmt then
            month <- first_letter (base_strftime dt "%b") ;;
            Ok (replace2 "%" "n" month fmt)
          else Ok fmt) ;;
  fmt <- (if contains2 "%" "Q" fmt then
            monthnr <- py_int (base_strftime dt "%m") ;;
            Ok (replace2 "%" "Q" ("Q" ++ format_int (quarter monthnr))%string fmt)
          else Ok fmt) ;;
  Ok (base_strftime dt fmt).

End DateFormatter.

Arguments strftime {datetime} base_strftime dt fmt.

(** The month as [%m] prints it: two digits. *)
Definition two_digits (m : nat) : string :=
  (digit_string (m / 10) ++ digit_string m)%string.

(* ===================================================================== *)
(** * Properties *)
(* ===================================================================== *)

(** ** The error monad *)

Lemma bind_Ok {A B : Type} (m : result A) (k : A -> result B) (b : B) :
  bind m k = Ok b -> exists a, m = Ok a /\ k a = Ok b.
Proof.
  destruct m as [a | e]; simpl; intros H; [exists a; auto | discriminate].
Qed.

Lemma assert_Ok (b : bool) (msg : string) (u : unit) : assert b msg = Ok u -> b = true.
Proof. destruct b; simpl; [reflexivity | discriminate]. Qed.

Ltac inv_bind H :=
  let a := fresh "a" in
  let Ha := fresh "Ha" in
  apply bind_Ok in H; destruct H as [a [Ha H]].

(** ** CustomVariableStore *)

Lemma addVariable_all (added : list PlotVariable) (s : CustomVariableStore.t) :
  CustomVariableStore.vars (fold_left CustomVariableStore.addVariable added s)
  = CustomVariableStore.vars s ++ added.
Proof.
  revert s; induction added as [| v r IH]; intros s; simpl.
  - now rewrite app_nil_r.
  - rewrite IH. simpl. now rewrite <- app_assoc.
Qed.

Lemma scan_Some (l : list PlotVariable) (varname : string) (v : PlotVariable) :
  CustomVariableStore.scan l varname = Some v <->
  exists before after,
    l = before ++ v :: after /\ getName v = varname /\
    Forall (fun u => getName u <> varname) before.
Proof.
  induction l as [| x r IH]; simpl.
  - split; [discriminate |].
    intros (before & after & E & _). destruct before; discriminate.
  - destruct (String.eqb_spec (getName x) varname) as [Heq | Hne].
    + split.
      * intros H. injection H as <-. exists [], r. auto.
      * intros (before & after & E & Hn & Hb).
        destruct before as [| y before]; simpl in E.
        -- now injection E as ->.
        -- injection E as -> _. inversion Hb; subst. contradiction.
    + rewrite IH. split.
      * intros (before & after & -> & Hn & Hb).
        exists (x :: before), after. repeat split; auto.
      * intros (before & after & E & Hn & Hb).
        destruct before as [| y before]; simpl in E.
        -- injection E as -> _. contradiction.
        -- injection E as -> ->. inversion Hb; subst. eauto.
Qed.

Lemma scan_None (l : list PlotVariable) (varname : string) :
  CustomVariableStore.scan l varname = None <-> Forall (fun u => getName u <> varname) l.
Proof.
  induction l as [| x r IH]; simpl.
  - split; auto.
  - destruct (String.eqb_spec (getName x) varname) as [Heq | Hne].
    + split; [discriminate |]. intros H. inversion H; subst. contradiction.
    + rewrite IH. split; intros H.
      * constructor; auto.
      * now inversion H.
Qed.

(** C8, as amended.  [addVariable] always appends (the store holds the added
    variables in the order of the calls, duplicates included); [getVariable]
    returns the FIRST added variable with the requested name, and [None]
    exactly when no added variable has that name. *)
Theorem CustomVariableStore_getVariable_first_added :
  forall (added : list PlotVariable) (varname : string),
    let store := fold_left CustomVariableStore.addVariable added CustomVariableStore.init in
    CustomVariableStore.vars store = added /\
    (forall v, CustomVariableStore.getVariable store varname = Some v <->
       exists before after,
         added = before ++ v :: after /\ getName v = varname /\
         Forall (fun u => getName u <> varname) before) /\
    (CustomVariableStore.getVariable store varname = None <->
       Forall (fun u => getName u <> varname) added).
Proof.
  intros added varname store.
  assert (E : CustomVariableStore.vars store = added)
    by (unfold store; now rewrite addVariable_all).
  unfold CustomVariableStore.getVariable. rewrite E.
  split; [reflexivity |]. split.
  - intros v. apply scan_Some.
  - apply scan_None.
Qed.

(** C8, as stated, fails: with two variables named "temp" in the store, the
    lookup returns the one added first, not the one added last. *)
Lemma CustomVariableStore_getVariable_not_last :
  option_map getLongName (CustomVariableStore.getVariable two_temps "temp") = Some "first"
  /\ option_map getLongName (last_added (CustomVariableStore.vars two_temps) "temp")
     = Some "second".
Proof. split; reflexivity. Qed.

(** C10: the code does not do what the claim (and the docstring of the base
    class) says.  For a custom store filled by any sequence of [addVariable]
    calls, [getVariableLongNames] returns the list of the long names, not a
    dictionary keyed by the short names, and [getVariableTree], which reads
    the result as a dictionary, raises on every schema. *)
Theorem CustomVariableStore_getVariableLongNames_is_list :
  forall (added : list PlotVariable) (xmlschema : element),
    let store := fold_left CustomVariableStore.addVariable added CustomVariableStore.init in
    store_getVariableLongNames (Custom store) = Ok (PyList (map getLongName added))
    /\ exists e, getVariableTree (Custom store) xmlschema = Raise e.
Proof.
  intros added xmlschema store.
  assert (E : CustomVariableStore.vars store = added)
    by (unfold store; now rewrite addVariable_all).
  split.
  - simpl. unfold CustomVariableStore.getVariableLongNames. now rewrite E.
  - unfold getVariableTree. simpl store_getVariableLongNames.
    unfold bind at 1.
    destruct (filterNodes xmlschema _) as [[root found] | e]; simpl.
    + eexists; reflexivity.
    + eexists; reflexivity.
Qed.

(** ** VariableSlice *)

(** C1: the code does not do what the claim says.  Slicing "temp" (10, 12, 14
    at times 0, 1, 2) at time 0.5 does not return 11: [getSlice] reads the
    name [dims], which is bound nowhere, and raises. *)
Theorem VariableSlice_getSlice_interior_raises :
  (v <- VariableSlice temp "time" (1 # 2) ;; getSlice v []) = Raise (NameError "dims").
Proof. reflexivity. Qed.

(** ** VariableFlat *)

(** C3: the code does not do what the claim says on every slice.  Flattening
    the last dimension of a 2 x 2 x 2 variable into the first one copies a
    block of shape (1, 2, 1) into a block of shape (1, 2), which numpy
    refuses. *)
Theorem VariableFlat_getSlice_last_into_first_raises :
  (v <- VariableFlat_new cube "c" "a" ;; getSlice v [no_bounds; no_bounds])
  = Raise (ValueError "could not broadcast input array").
Proof. vm_compute. reflexivity. Qed.

(** On a two-dimensional variable the copy goes through: flattening "a"
    into "b" on the 2 x 3 table puts the value at (a = j, b = i) at position
    [i * 2 + j] and repeats the coordinate of "b" twice. *)
Example VariableFlat_getSlice_table :
  (v <- VariableFlat_new table "a" "b" ;;
   s <- getSlice v [no_bounds] ;;
   Ok (dimensions s, data s, coords s))
  = Ok (["b"], Some (vector [1; 4; 2; 5; 3; 6]%Q), [Some (vector [0; 0; 1; 1; 2; 2]%Q)]).
Proof. vm_compute. reflexivity. Qed.

(** ** Slice.squeeze *)

(** C5: the code does not do what the claim says on a slice with an empty
    dimension.  The valid slice with no data along "time" loses "time" from
    its dimension list although its length is not one (the data keep the
    axis); and for the valid slice of shape (0, 1, 3) a second [squeeze]
    changes the dimension list again. *)
Theorem squeeze_drops_empty_dimension :
  isValid empty_slice = true
  /\ dimensions_not_one empty_slice = ["time"]
  /\ (s <- squeeze empty_slice ;; Ok (dimensions s, option_map (@shape Q) (data s)))
     = Ok ([], Some [0])
  /\ isValid hollow_slice = true
  /\ (s <- squeeze hollow_slice ;; Ok (dimensions s)) = Ok ["c"]
  /\ (s <- squeeze hollow_slice ;; s' <- squeeze s ;; Ok (dimensions s')) = Ok [].
Proof. repeat split. Qed.

(** ** Figure.update and Figure.setUpdating *)

Section FigureProperties.

Variable series_ranges : Slice -> result unit.
Variable decorate : list drawing -> result unit.

Lemma update_suspended (self : Figure) :
  updating self = false ->
  update series_ranges decorate self = Ok (set_dirty self true).
Proof. intros H. unfold update. now rewrite H. Qed.

(** What a rebuild that runs to its end leaves behind. *)
Lemma update_completed (self self' : Figure) :
  updating self = true ->
  update series_ranges decorate self = Ok self' ->
  dirty self' = false
  /\ updating self' = true
  /\ rebuilds self' = S (rebuilds self)
  /\ notified self'
     = notified self
       ++ map (fun cb => (cb, 0 <? length (forcedseries self))) (callbacks self).
Proof.
  intros Hu H. unfold update in H. rewrite Hu in H. simpl in H.
  inv_bind H. inv_bind H. injection H as <-. simpl. auto.
Qed.

Lemma updates_suspended (self : Figure) (n : nat) :
  updating self = false ->
  foldM (fun f _ => update series_ranges decorate f) (repeat tt n) self
  = Ok (match n with O => self | S _ => set_dirty self true end).
Proof.
  intros Hu. destruct n as [| n]; [reflexivity |].
  simpl. rewrite (update_suspended _ Hu). simpl.
  induction n as [| n IH]; [reflexivity |].
  simpl. rewrite update_suspended by exact Hu. simpl. exact IH.
Qed.

End FigureProperties.

(** A figure on which updating is off: what [update] and enabling updating
    again do to it. *)
Lemma suspended_figure (series_ranges : Slice -> result unit)
    (decorate : list drawing -> result unit) (self : Figure) :
  updating self = false ->
  (dirty self = false ->
   setUpdating series_ranges decorate self true = Ok (set_updating self true, false))
  /\ (dirty self = true ->
      setUpdating series_ranges decorate self true
      = (f <- update series_ranges decorate (set_updating self true) ;; Ok (f, false)))
  /\ (forall self' old,
        dirty self = true ->
        setUpdating series_ranges decorate self true = Ok (self', old) ->
        old = false /\ updating self' = true /\ dirty self' = false
        /\ rebuilds self' = S (rebuilds self)).
Proof.
  intros Hu.
  assert (Hset : forall b, dirty self = b ->
            setUpdating series_ranges decorate self true
            = (f <- (if b then update series_ranges decorate (set_updating self true)
                     else Ok (set_updating self true)) ;; Ok (f, false))).
  { intros b Hb. unfold setUpdating. rewrite Hu. simpl. now rewrite Hb. }
  split; [intros Hd; now rewrite (Hset false Hd) |].
  split; [intros Hd; now rewrite (Hset true Hd) |].
  intros self' old Hd H. rewrite (Hset true Hd) in H.
  inv_bind H. injection H as <- <-.
  apply update_completed in Ha; [| reflexivity].
  destruct Ha as (H1 & H2 & H3 & _). simpl in H3. auto.
Qed.

(** [setUpdating(False)] turns updating off and does nothing else, whether
    updating was on or off before, and returns the old setting. *)
Lemma setUpdating_false (series_ranges : Slice -> result unit)
    (decorate : list drawing -> result unit) (f : Figure) :
  setUpdating series_ranges decorate f false = Ok (set_updating f false, updating f).
Proof.
  unfold setUpdating. destruct (updating f) eqn:E; [reflexivity |].
  cbn [Bool.eqb negb]. destruct f. cbn [updating] in E. subst. reflexivity.
Qed.

(** C6.  [setUpdating(False)] on any figure turns updating off without a
    rebuild.  From then on every call of [update] only sets the dirty flag:
    no rebuild runs, and the figure, the property trees and the callbacks'
    log stay as they are, whatever the number of calls.  After any number of
    such calls, [setUpdating(True)] runs no rebuild when the dirty flag is
    clear (no call of [update] was made and the flag was clear before);
    when the flag is set it runs [update] once, and when that rebuild
    completes exactly one rebuild was done since updating was turned off and
    the flag is clear. *)
Theorem suspended_updates_coalesce :
  forall (series_ranges : Slice -> result unit) (decorate : list drawing -> result unit)
         (f0 : Figure),
    let self := set_updating f0 false in
    setUpdating series_ranges decorate f0 false = Ok (self, updating f0)
    /\ update series_ranges decorate self = Ok (set_dirty self true)
    /\ (forall n, foldM (fun f _ => update series_ranges decorate f) (repeat tt n) self
                  = Ok (match n with O => self | S _ => set_dirty self true end))
    /\ (forall n,
          let suspended := match n with O => self | S _ => set_dirty self true end in
          updating suspended = false
          /\ dirty suspended = match n with O => dirty f0 | S _ => true end
          /\ rebuilds suspended = rebuilds f0
          /\ (dirty suspended = false ->
              setUpdating series_ranges decorate suspended true
              = Ok (set_updating suspended true, false))
          /\ (dirty suspended = true ->
              setUpdating series_ranges decorate suspended true
              = (f <- update series_ranges decorate (set_updating suspended true) ;;
                 Ok (f, false)))
          /\ (forall self' old,
                dirty suspended = true ->
                setUpdating series_ranges decorate suspended true = Ok (self', old) ->
                old = false /\ updating self' = true /\ dirty self' = false
                /\ rebuilds self' = S (rebuilds f0))).
Proof.
  intros sr dec f0 self.
  assert (Hu : updating self = false) by reflexivity.
  split; [apply setUpdating_false |].
  split; [now apply update_suspended |].
  split; [intros n; now apply updates_suspended |].
  intros n suspended.
  assert (Hs : updating suspended = false) by (destruct n; reflexivity).
  assert (Hr : rebuilds suspended = rebuilds f0) by (destruct n; reflexivity).
  destruct (suspended_figure sr dec suspended Hs) as (Hclear & Hset & Hdone).
  split; [exact Hs |].
  split; [destruct n; reflexivity |].
  split; [exact Hr |].
  split; [exact Hclear |]. split; [exact Hset |].
  intros self' old Hd H. rewrite <- Hr. now apply Hdone.
Qed.

Lemma suspended_updates_coalesce_witness :
  exists self self',
    setUpdating quiet_ranges quiet_decorate skipped_figure false = Ok (self, true)
    /\ foldM (fun f _ => update quiet_ranges quiet_decorate f) (repeat tt 3) self
       = Ok (set_dirty self true)
    /\ setUpdating quiet_ranges quiet_decorate (set_dirty self true) true = Ok (self', false)
    /\ rebuilds self' = 1 /\ dirty self' = false.
Proof.
  destruct (suspended_updates_coalesce quiet_ranges quiet_decorate skipped_figure)
    as (Hoff & _ & Hcalls & Hon).
  destruct (Hon 3) as (_ & _ & _ & _ & Hset & Hdone).
  exists (set_updating skipped_figure false).
  eexists. split; [exact Hoff |]. split; [exact (Hcalls 3) |].
  assert (Hrun : setUpdating quiet_ranges quiet_decorate
                   (set_dirty (set_updating skipped_figure false) true) true
                 = Ok (after_update (set_updating (set_dirty (set_updating skipped_figure false)
                                                              true) true), false)).
  { rewrite (Hset eq_refl). reflexivity. }
  split; [exact Hrun |].
  destruct (Hdone _ _ eq_refl Hrun) as (_ & _ & Hd & Hr).
  split; [exact Hr | exact Hd].
Defined.

(** C7, as amended.  At the end of every completed rebuild each registered
    callback is called once, in the order of registration, with the boolean
    "the figure has at least one configured series"
    ([len(forcedseries)>0]), whether or not any of them was plotted. *)
Theorem update_notifies_configured :
  forall (series_ranges : Slice -> result unit) (decorate : list drawing -> result unit)
         (self self' : Figure),
    updating self = true ->
    update series_ranges decorate self = Ok self' ->
    notified self'
    = notified self
      ++ map (fun cb => (cb, 0 <? length (forcedseries self))) (callbacks self).
Proof.
  intros sr dec self self' Hu H.
  now destruct (update_completed sr dec self self' Hu H) as (_ & _ & _ & Hn).
Qed.

Lemma update_notifies_configured_witness :
  notified (after_update skipped_figure)
  = notified skipped_figure
    ++ map (fun cb => (cb, 0 <? length (forcedseries skipped_figure)))
           (callbacks skipped_figure).
Proof.
  apply (update_notifies_configured quiet_ranges quiet_decorate
           skipped_figure (after_update skipped_figure)); reflexivity.
Defined.

(** C7, as stated, fails: the only configured series is skipped because its
    slice is invalid, nothing is plotted, and the callback receives [True]. *)
Lemma update_notifies_true_when_all_skipped :
  update quiet_ranges quiet_decorate skipped_figure = Ok (after_update skipped_figure)
  /\ any_plotted (after_update skipped_figure) = false
  /\ notified (after_update skipped_figure) = [(7, true)].
Proof. repeat split. Qed.

(** ** getTimeTickSettings *)

Lemma Qltb_true (a b : Q) : Qltb a b = true <-> (a < b)%Q.
Proof.
  unfold Qltb. rewrite negb_true_iff. split.
  - intros H. apply Qnot_le_lt. intros Hle. apply Qle_bool_iff in Hle. congruence.
  - intros H. destruct (Qle_bool b a) eqn:E; [| reflexivity].
    apply Qle_bool_iff in E. exfalso. apply (Qlt_not_le _ _ H E).
Qed.

Lemma Qltb_false (a b : Q) : Qltb a b = false <-> (b <= a)%Q.
Proof.
  unfold Qltb. rewrite negb_false_iff. apply Qle_bool_iff.
Qed.

Lemma ceil_ge (x : Q) : (x <= ceil x)%Q.
Proof. apply Qle_ceiling. Qed.

Lemma unitlengths_pos (location : Z) (u : Q) :
  unitlengths location = Ok u -> (0 < u)%Q.
Proof.
  destruct location as [| p | p]; simpl; try discriminate;
    repeat match goal with
           | q : positive |- _ => destruct q; simpl; try discriminate
           end;
    intros H; injection H as <-; reflexivity.
Qed.

Lemma unitlengths_total (location : Z) :
  (0 <= location <= 4)%Z -> exists u, unitlengths location = Ok u.
Proof.
  intros H.
  assert (E : location = 0%Z \/ location = 1%Z \/ location = 2%Z
              \/ location = 3%Z \/ location = 4%Z) by lia.
  destruct E as [-> | [-> | [-> | [-> | ->]]]]; eexists; reflexivity.
Qed.

Lemma default_location_range (dayspan : Q) :
  (0 <= fst (default_location dayspan) <= 4)%Z.
Proof.
  unfold default_location.
  repeat match goal with |- context [if ?c then _ else _] => destruct c end; simpl; lia.
Qed.

Lemma py_div_Ok (a b q : Q) : py_div a b = Ok q -> ~ (b == 0)%Q /\ q = (a / b)%Q.
Proof.
  unfold py_div. destruct (Qeq_bool b 0) eqn:E; [discriminate |].
  intros H; injection H as <-. split; [| reflexivity].
  intros Hb. apply Qeq_bool_iff in Hb. congruence.
Qed.

Lemma py_div_nonzero (a b : Q) : ~ (b == 0)%Q -> py_div a b = Ok (a / b)%Q.
Proof.
  intros Hb. unfold py_div. destruct (Qeq_bool b 0) eqn:E; [| reflexivity].
  apply Qeq_bool_iff in E. contradiction.
Qed.

Lemma Qdiv_le_mul (a b c : Q) : (0 < b)%Q -> (a / b <= c)%Q -> (a <= c * b)%Q.
Proof.
  intros Hb H.
  setoid_replace a with (a / b * b)%Q
    by (field; intros E; rewrite E in Hb; apply (Qlt_irrefl 0 Hb)).
  apply Qmult_le_compat_r; [exact H | apply Qlt_le_weak; exact Hb].
Qed.

Lemma py_div_8 (a : Q) : py_div a 8 = Ok (a / 8)%Q.
Proof. reflexivity. Qed.

(** The last step of [getTimeTickSettings]: the cap at 100 ticks. *)
Lemma cap_at_100 (tickcount interval : Q) :
  (0 <= tickcount)%Q -> ~ (interval == 0)%Q ->
  let interval' := if Qltb 100 (tickcount / interval) then ceil (tickcount / 100)
                   else interval in
  ~ (interval' == 0)%Q /\ (tickcount / interval' <= 100)%Q.
Proof.
  intros Ht Hi. simpl. destruct (Qltb 100 (tickcount / interval)) eqn:E.
  - apply Qltb_true in E.
    assert (Hpos : (0 < tickcount)%Q).
    { apply Qle_lt_or_eq in Ht. destruct Ht as [Ht | Ht]; [exact Ht |].
      exfalso. rewrite <- Ht in E. unfold Qdiv in E. rewrite Qmult_0_l in E.
      revert E. apply Qle_not_lt. discriminate. }
    assert (Hc : (tickcount / 100 <= ceil (tickcount / 100))%Q) by apply ceil_ge.
    assert (Hc0 : (0 < ceil (tickcount / 100))%Q).
    { eapply Qlt_le_trans; [| exact Hc]. apply Qlt_shift_div_l; [reflexivity |].
      now rewrite Qmult_0_l. }
    split.
    + intros H0. rewrite H0 in Hc0. revert Hc0. apply Qlt_irrefl.
    + apply Qle_shift_div_r; [exact Hc0 |].
      apply Qdiv_le_mul in Hc; [| reflexivity].
      rewrite Qmult_comm. rewrite Qmult_comm in Hc. rewrite Qmult_comm. exact Hc.
  - apply Qltb_false in E. auto.
Qed.

(** With the default interval the cap never applies. *)
Lemma default_interval_ok (tickcount : Q) :
  (0 <= tickcount)%Q ->
  let interval := if Qltb (ceil (tickcount / 8)) 1 then 1%Q else ceil (tickcount / 8) in
  (1 <= interval)%Q /\ Qltb 100 (tickcount / interval) = false.
Proof.
  intros Ht. simpl.
  assert (Hc : (tickcount / 8 <= ceil (tickcount / 8))%Q) by apply ceil_ge.
  apply Qdiv_le_mul in Hc; [| reflexivity].
  destruct (Qltb (ceil (tickcount / 8)) 1) eqn:E.
  - apply Qltb_true in E. split; [apply Qle_refl |].
    apply Qltb_false. apply Qle_shift_div_r; [reflexivity |]. lra.
  - apply Qltb_false in E. split; [exact E |].
    apply Qltb_false. apply Qle_shift_div_r; [lra |].
    set (c := ceil (tickcount / 8)) in *. lra.
Qed.

(** C9.  For a non-negative span in days and any tick settings, forced or
    not: whenever [getTimeTickSettings] returns, the tick count (the span
    divided by the unit length, divided by the returned interval) is at most
    100; it returns whenever a forced unit is one of the five known units and
    a forced interval is not zero; and with no forced unit and interval the
    interval is [ceil(tickcount/8)], raised to 1 when it is below. *)
Theorem getTimeTickSettings_at_most_100_ticks :
  forall (dayspan : Q) (settings defsettings : TickSettings),
    (0 <= dayspan)%Q ->
    (forall r, getTimeTickSettings dayspan settings defsettings 8 = Ok r ->
       exists unitlength,
         unitlengths (tick_location r) = Ok unitlength
         /\ ~ (tick_interval r == 0)%Q
         /\ (dayspan / unitlength / tick_interval r <= 100)%Q)
    /\ ((forall loc, LocationTime settings = Some loc -> (0 <= loc <= 4)%Z) ->
        (forall i, IntervalTime settings = Some i -> ~ (i == 0)%Q) ->
        exists r, getTimeTickSettings dayspan settings defsettings 8 = Ok r)
    /\ (LocationTime settings = None -> IntervalTime settings = None ->
        exists r unitlength,
          getTimeTickSettings dayspan settings defsettings 8 = Ok r
          /\ tick_location r = fst (default_location dayspan)
          /\ unitlengths (tick_location r) = Ok unitlength
          /\ tick_interval r
             = (if Qltb (ceil (dayspan / unitlength / 8)) 1 then 1%Q
                else ceil (dayspan / unitlength / 8))
          /\ (1 <= tick_interval r)%Q).
Proof.
  intros dayspan settings defsettings Hspan.
  assert (Hcount : forall location u, unitlengths location = Ok u -> (0 <= dayspan / u)%Q).
  { intros location u Hu. apply unitlengths_pos in Hu.
    apply Qle_shift_div_l; [exact Hu |]. now rewrite Qmult_0_l. }
  unfold getTimeTickSettings.
  destruct (default_location dayspan) as [deflocation defformat] eqn:Edef.
  assert (Hdef : (0 <= deflocation <= 4)%Z).
  { pose proof (default_location_range dayspan) as H. now rewrite Edef in H. }
  repeat split.
  - (* at most 100 ticks whenever it returns *)
    intros r H.
    inv_bind H. rename a into unitlength, Ha into Hunit.
    rewrite py_div_8 in H. cbn [bind] in H.
    inv_bind H. rename a into ticks, Ha into Hdiv.
    injection H as <-. simpl.
    apply py_div_Ok in Hdiv. destruct Hdiv as [Hnz ->].
    exists unitlength. split; [exact Hunit |].
    apply cap_at_100; [now apply (Hcount _ _ Hunit) | exact Hnz].
  - (* it returns on well-formed settings *)
    intros Hloc Hint.
    assert (Hl : (0 <= getValue_usedefault (LocationTime settings) deflocation <= 4)%Z).
    { destruct (LocationTime settings) as [loc |] eqn:E; simpl; [now apply Hloc | exact Hdef]. }
    destruct (unitlengths_total _ Hl) as [u Hu]. rewrite Hu. cbn [bind].
    rewrite py_div_8. cbn [bind].
    rewrite py_div_nonzero.
    + simpl. eexists; reflexivity.
    + destruct (IntervalTime settings) as [i |] eqn:E; simpl; [now apply Hint |].
      destruct (default_interval_ok (dayspan / u) (Hcount _ _ Hu)) as [H1 _].
      intros H0. rewrite H0 in H1. revert H1. apply Qlt_not_le. reflexivity.
  - (* the defaults *)
    intros Hloc Hint. rewrite Hloc, Hint. simpl.
    destruct (unitlengths_total _ Hdef) as [u Hu]. rewrite Hu. cbn [bind].
    destruct (default_interval_ok (dayspan / u) (Hcount _ _ Hu)) as [H1 H100].
    rewrite py_div_nonzero.
    + simpl. rewrite H100. eexists; exists u. simpl.
      repeat split; [exact Hu | exact H1].
    + intros H0. rewrite H0 in H1. revert H1. apply Qlt_not_le. reflexivity.
Qed.

Lemma getTimeTickSettings_at_most_100_ticks_witness :
  exists r, getTimeTickSettings 1000
              {| LocationTime := Some 4%Z; FormatTime := None; IntervalTime := Some 1%Q |}
              {| LocationTime := None; FormatTime := None; IntervalTime := None |} 8 = Ok r
            /\ tick_interval r = 14400%Q.
Proof.
  destruct (getTimeTickSettings_at_most_100_ticks 1000
              {| LocationTime := Some 4%Z; FormatTime := None; IntervalTime := Some 1%Q |}
              {| LocationTime := None; FormatTime := None; IntervalTime := None |})
    as (_ & Htotal & _).
  - discriminate.
  - destruct Htotal as [r Hr].
    + intros loc H. injection H as <-. lia.
    + intros i H. injection H as <-. discriminate.
    + exists r. split; [exact Hr |].
      vm_compute in Hr. injection Hr as <-. reflexivity.
Defined.

(** ** Arrays: positions and elements *)

Lemma in_bounds_length (sh idx : list nat) :
  in_bounds sh idx = true -> length idx = length sh.
Proof.
  revert idx; induction sh as [| n r IH]; intros [| i js]; simpl; try discriminate; auto.
  intros H. apply andb_prop in H. destruct H as [_ H]. f_equal. auto.
Qed.

Lemma in_bounds_nth (sh idx : list nat) (k : nat) :
  in_bounds sh idx = true -> k < length sh -> nth k idx 0 < nth k sh 0.
Proof.
  revert idx k; induction sh as [| n r IH]; intros [| i js] k; simpl; try discriminate.
  - intros _ H. lia.
  - intros H Hk. apply andb_prop in H. destruct H as [Hi H].
    apply Nat.ltb_lt in Hi. destruct k as [| k]; [exact Hi |].
    apply IH; [exact H | lia].
Qed.

Lemma offset_lt (sh idx : list nat) :
  in_bounds sh idx = true -> offset sh idx < size sh.
Proof.
  revert idx; induction sh as [| n r IH]; intros [| i js]; simpl; try discriminate.
  - intros _. lia.
  - intros H. apply andb_prop in H. destruct H as [Hi H].
    apply Nat.ltb_lt in Hi. specialize (IH _ H). nia.
Qed.

Lemma unravel_offset (sh idx : list nat) :
  in_bounds sh idx = true -> unravel sh (offset sh idx) = idx.
Proof.
  revert idx; induction sh as [| n r IH]; intros [| i js]; simpl; try discriminate.
  - reflexivity.
  - intros H. apply andb_prop in H. destruct H as [Hi H].
    pose proof (offset_lt _ _ H) as Hlt. f_equal.
    + symmetry. apply (Nat.div_unique _ _ _ (offset r js)); [exact Hlt | lia].
    + rewrite <- (IH _ H) at 2. f_equal.
      symmetry. apply (Nat.mod_unique _ _ i); [exact Hlt | lia].
Qed.



Lemma nth_map_seq {A : Type} (g : nat -> A) (n k : nat) (d : A) :
  k < n -> nth k (map g (seq 0 n)) d = g k.
Proof.
  intros H. rewrite (nth_indep _ d (g 0)) by (now rewrite length_map, length_seq).
  rewrite map_nth. now rewrite seq_nth.
Qed.

Section ArrayFacts.
Context {A : Type} (d : A).

Lemma shape_build (sh : list nat) (f : list nat -> A) : shape (build sh f) = sh.
Proof. reflexivity. Qed.

Lemma wf_build (sh : list nat) (f : list nat -> A) : wf (build sh f).
Proof. unfold wf, build. simpl. now rewrite length_map, length_seq. Qed.

Lemma get_build (sh : list nat) (f : list nat -> A) (idx : list nat) :
  in_bounds sh idx = true -> get d (build sh f) idx = f idx.
Proof.
  intros H. unfold get, build. simpl.
  rewrite nth_map_seq by now apply offset_lt.
  now rewrite unravel_offset.
Qed.


End ArrayFacts.

(** ** Broadcasting a value of the block's own shape *)







(** ** Blocks of a concatenation *)



(** ** MergedVariable.getSlice *)





Section MergedLoop.

Variable bounds : list bound.
Variable count : Z.
Variable shp : list nat.
Hypothesis count_pos : (0 <= count)%Z.




End MergedLoop.











(** ** Lists as Python lists *)

Lemma list_item_nth {A : Type} (l : list A) (i : nat) (d : A) :
  i < length l -> list_item l i = Ok (nth i l d).
Proof.
  intros H. unfold list_item.
  destruct (nth_error l i) as [a |] eqn:E.
  - now rewrite (nth_error_nth _ _ d E).
  - apply nth_error_None in E. lia.
Qed.

Lemma list_item_nth_error {A : Type} (l : list A) (i : nat) (a : A) :
  nth_error l i = Some a -> list_item l i = Ok a.
Proof. intros H. unfold list_item. now rewrite H. Qed.

Lemma list_del_drop (l : list nat) (i : nat) :
  i < length l -> list_del l i = Ok (drop_nth i l).
Proof.
  revert i; induction l as [| a r IH]; intros i H; simpl in H; [lia |].
  destruct i as [| i]; [reflexivity |].
  simpl. rewrite IH by lia. reflexivity.
Qed.

Lemma list_setitem_ok {A : Type} (l : list A) (i : nat) (x : A) :
  i < length l -> list_setitem l i x = Ok (firstn i l ++ x :: skipn (S i) l).
Proof.
  revert i; induction l as [| a r IH]; intros i H; simpl in H; [lia |].
  destruct i as [| i]; [reflexivity |].
  simpl. rewrite IH by lia. reflexivity.
Qed.

Lemma list_insert_split {A : Type} (l : list A) (i : nat) (x : A) :
  i <= length l -> list_insert l i x = firstn i l ++ x :: skipn i l.
Proof.
  revert l; induction i as [| i IH]; intros l H; [destruct l; reflexivity |].
  destruct l as [| a r]; simpl in H; [lia |].
  simpl. rewrite IH by lia. reflexivity.
Qed.

Lemma length_drop_nth (l : list nat) (i : nat) :
  i < length l -> length (drop_nth i l) = length l - 1.
Proof.
  intros H. unfold drop_nth. rewrite length_app, length_firstn, length_skipn. lia.
Qed.

Lemma firstn_drop_nth (l : list nat) (i : nat) :
  i <= length l -> firstn i (drop_nth i l) = firstn i l.
Proof.
  intros H. unfold drop_nth.
  rewrite firstn_app, length_firstn, Nat.min_l by lia.
  rewrite Nat.sub_diag, firstn_O, app_nil_r. apply firstn_all2.
  rewrite length_firstn. lia.
Qed.

Lemma skipn_drop_nth (l : list nat) (i : nat) :
  i <= length l -> skipn i (drop_nth i l) = skipn (S i) l.
Proof.
  intros H. unfold drop_nth.
  rewrite skipn_app, length_firstn, Nat.min_l by lia.
  rewrite Nat.sub_diag. rewrite skipn_all2 by (rewrite length_firstn; lia).
  reflexivity.
Qed.

Lemma skipn_cons_nth {A : Type} (l : list A) (i : nat) (d : A) :
  i < length l -> skipn i l = nth i l d :: skipn (S i) l.
Proof.
  revert i; induction l as [| a r IH]; intros i H; simpl in H; [lia |].
  destruct i as [| i]; [reflexivity |].
  simpl. apply IH. lia.
Qed.

(** Putting a component back where one was dropped. *)
Lemma list_insert_drop_nth (l : list nat) (i x : nat) :
  i < length l -> list_insert (drop_nth i l) i x = firstn i l ++ x :: skipn (S i) l.
Proof.
  intros H. rewrite list_insert_split by (rewrite length_drop_nth; lia).
  rewrite firstn_drop_nth, skipn_drop_nth by lia. reflexivity.
Qed.

Lemma list_insert_drop_nth_same (l : list nat) (i : nat) :
  i < length l -> list_insert (drop_nth i l) i (nth i l 0) = l.
Proof.
  intros H. rewrite list_insert_drop_nth by exact H.
  transitivity (firstn i l ++ skipn i l); [| apply firstn_skipn].
  f_equal. symmetry. now apply skipn_cons_nth.
Qed.

Lemma drop_nth_insert (l : list nat) (i x : nat) :
  i <= length l -> drop_nth i (list_insert l i x) = l.
Proof.
  intros H. rewrite list_insert_split by exact H. unfold drop_nth.
  rewrite firstn_app, length_firstn, Nat.min_l by lia.
  rewrite Nat.sub_diag, firstn_O, app_nil_r.
  rewrite firstn_all2 by (rewrite length_firstn; lia).
  rewrite skipn_app, length_firstn, Nat.min_l by lia.
  replace (S i - i) with 1 by lia.
  rewrite skipn_all2 by (rewrite length_firstn; lia).
  simpl. apply firstn_skipn.
Qed.

Lemma nth_insert (l : list nat) (i x : nat) :
  i <= length l -> nth i (list_insert l i x) 0 = x.
Proof.
  intros H. rewrite list_insert_split by exact H.
  rewrite app_nth2 by (rewrite length_firstn; lia).
  rewrite length_firstn, Nat.min_l by lia. now rewrite Nat.sub_diag.
Qed.

(** ** Positions along one axis *)

Lemma in_bounds_app (s1 s2 i1 i2 : list nat) :
  length s1 = length i1 ->
  in_bounds (s1 ++ s2) (i1 ++ i2) = in_bounds s1 i1 && in_bounds s2 i2.
Proof.
  revert i1; induction s1 as [| n r IH]; intros [| i js] H; simpl in *; try lia.
  - reflexivity.
  - rewrite IH by lia. now rewrite andb_assoc.
Qed.

Lemma in_bounds_split (sh idx : list nat) (k : nat) :
  in_bounds sh idx = true ->
  in_bounds (firstn k sh) (firstn k idx) = true
  /\ in_bounds (skipn k sh) (skipn k idx) = true.
Proof.
  intros H. pose proof (in_bounds_length _ _ H) as Hl.
  rewrite <- (firstn_skipn k sh), <- (firstn_skipn k idx) in H.
  rewrite in_bounds_app in H by (rewrite !length_firstn; lia).
  now apply andb_prop in H.
Qed.

(** Replacing the component at [axis]. *)
Lemma in_bounds_replace (sh idx : list nat) (axis m x : nat) :
  in_bounds sh idx = true -> axis < length sh -> x < m ->
  in_bounds (firstn axis sh ++ m :: skipn (S axis) sh)
            (firstn axis idx ++ x :: skipn (S axis) idx) = true.
Proof.
  intros H Ha Hx. pose proof (in_bounds_length _ _ H) as Hl.
  destruct (in_bounds_split sh idx axis H) as [H1 _].
  destruct (in_bounds_split sh idx (S axis) H) as [_ H2].
  rewrite in_bounds_app by (rewrite !length_firstn; lia).
  rewrite H1. cbn [in_bounds andb]. rewrite H2. apply Nat.ltb_lt in Hx. now rewrite Hx.
Qed.

(** Putting the component [j] in at [axis]. *)
Lemma in_bounds_insert (sh ridx : list nat) (axis j : nat) :
  axis < length sh -> in_bounds (drop_nth axis sh) ridx = true -> j < nth axis sh 0 ->
  in_bounds sh (list_insert ridx axis j) = true.
Proof.
  intros Ha H Hj. pose proof (in_bounds_length _ _ H) as Hl.
  rewrite length_drop_nth in Hl by exact Ha.
  destruct (in_bounds_split _ _ axis H) as [H1 H2].
  rewrite firstn_drop_nth in H1 by lia. rewrite skipn_drop_nth in H2 by lia.
  rewrite list_insert_split by lia.
  rewrite <- (firstn_skipn axis sh) at 1.
  rewrite (skipn_cons_nth sh axis 0) by exact Ha.
  rewrite in_bounds_app by (rewrite !length_firstn; lia).
  rewrite H1. cbn [in_bounds andb]. rewrite H2. apply Nat.ltb_lt in Hj. now rewrite Hj.
Qed.

(** Dropping the component at [axis]. *)
Lemma in_bounds_drop (sh idx : list nat) (axis : nat) :
  in_bounds sh idx = true -> in_bounds (drop_nth axis sh) (drop_nth axis idx) = true.
Proof.
  intros H. pose proof (in_bounds_length _ _ H) as Hl.
  destruct (in_bounds_split sh idx axis H) as [H1 _].
  destruct (in_bounds_split sh idx (S axis) H) as [_ H2].
  unfold drop_nth. rewrite in_bounds_app by (rewrite !length_firstn; lia).
  now rewrite H1, H2.
Qed.

Lemma size_app (s1 s2 : list nat) : size (s1 ++ s2) = size s1 * size s2.
Proof.
  induction s1 as [| n r IH]; simpl; [lia |]. rewrite IH. lia.
Qed.

Lemma size_drop_unit (sh : list nat) (axis : nat) :
  axis < length sh ->
  size (drop_nth axis (firstn axis sh ++ 1 :: skipn (S axis) sh))
  = size (firstn axis sh ++ 1 :: skipn (S axis) sh).
Proof.
  intros H. rewrite <- (list_insert_drop_nth sh axis 1 H).
  rewrite drop_nth_insert by (rewrite length_drop_nth; lia).
  rewrite list_insert_drop_nth by exact H.
  unfold drop_nth. rewrite !size_app. simpl. lia.
Qed.

(** ** Elements of elementwise results *)

Section ElementwiseFacts.
Context {A : Type} (d : A).

Lemma get_map1 (f : A -> A) (a : ndarray A) (idx : list nat) :
  wf a -> in_bounds (shape a) idx = true ->
  get d (map1 f a) idx = f (get d a idx).
Proof.
  intros Hwf Hin. unfold get, map1. simpl.
  pose proof (offset_lt _ _ Hin) as Hlt. rewrite <- Hwf in Hlt.
  rewrite (nth_indep _ d (f d)) by now rewrite length_map.
  apply map_nth.
Qed.

Lemma map2_same_shape (f : A -> A -> A) (a b : ndarray A) :
  shape a = shape b ->
  map2 f a b
  = Ok (mkarray (shape a) (map (fun p => f (fst p) (snd p)) (combine (flat a) (flat b)))).
Proof.
  intros H. unfold map2. destruct (list_eq_dec Nat.eq_dec (shape a) (shape b)); [reflexivity |].
  contradiction.
Qed.

Lemma nth_zip (f : A -> A -> A) (l1 l2 : list A) (k : nat) :
  k < length l1 -> length l1 = length l2 ->
  nth k (map (fun p => f (fst p) (snd p)) (combine l1 l2)) d = f (nth k l1 d) (nth k l2 d).
Proof.
  revert l2 k; induction l1 as [| x r IH]; intros [| y r2] k Hk Hl; simpl in *; try lia.
  destruct k as [| k]; [reflexivity |]. apply IH; lia.
Qed.

Lemma get_zip (f : A -> A -> A) (a b : ndarray A) (idx : list nat) :
  wf a -> wf b -> shape a = shape b -> in_bounds (shape a) idx = true ->
  get d (mkarray (shape a) (map (fun p => f (fst p) (snd p)) (combine (flat a) (flat b)))) idx
  = f (get d a idx) (get d b idx).
Proof.
  intros Ha Hb Hs Hin. unfold get. simpl. rewrite <- Hs.
  pose proof (offset_lt _ _ Hin) as Hlt.
  apply nth_zip; [now rewrite Ha | rewrite Ha, Hb; now rewrite Hs].
Qed.

Lemma wf_zip (f : A -> A -> A) (a b : ndarray A) :
  wf a -> wf b -> shape a = shape b ->
  wf (mkarray (shape a) (map (fun p => f (fst p) (snd p)) (combine (flat a) (flat b)))).
Proof.
  intros Ha Hb Hs. unfold wf. simpl.
  rewrite length_map, length_combine, Ha, Hb, <- Hs. lia.
Qed.

Lemma wf_map1 (f : A -> A) (a : ndarray A) : wf a -> wf (map1 f a).
Proof. unfold wf, map1. simpl. now rewrite length_map. Qed.

End ElementwiseFacts.

(** ** VariableAverage: the weights *)

Section AverageWeights.

Variable axis : nat.
Variable d w : array.
Hypothesis d_wf : wf d.
Hypothesis w_wf : wf w.
Hypothesis axis_lt : axis < length (shape d).
Hypothesis w_fits : interfaces_fit w d axis.

Let n := nth axis (shape d) 0.
Let rsh := drop_nth axis (shape d).

Lemma in_bounds_component (idx : list nat) :
  in_bounds (shape d) idx = true -> nth axis idx 0 < n.
Proof. intros H. now apply in_bounds_nth. Qed.

(** The cell widths before they are normalised. *)
Lemma raw_weights :
  exists raw,
    (if length (shape w) =? 1
     then dw <- diff_axis w 0 ;; replicateCoordinates dw d axis
     else diff_axis w axis) = Ok raw
    /\ shape raw = shape d /\ wf raw
    /\ forall idx, in_bounds (shape d) idx = true ->
         qget raw idx = cell_width w axis (drop_nth axis idx) (nth axis idx 0).
Proof.
  destruct w_fits as [Hv | [Hnd Hsh]]; fold n in Hv || fold n in Hsh.
  - (* a vector of interfaces *)
    unfold cell_width. rewrite Hv. cbn [length Nat.eqb].
    unfold diff_axis. rewrite Hv. cbn [list_item nth_error bind list_setitem].
    replace (S n - 1) with n by lia.
    unfold replicateCoordinates.
    rewrite (list_item_nth _ _ 0 axis_lt). fold n. cbn [bind shape build].
    rewrite Nat.eqb_refl. cbn [assert bind].
    eexists. split; [reflexivity |]. split; [reflexivity |]. split; [apply wf_build |].
    intros idx Hin. unfold qget. rewrite get_build by exact Hin.
    pose proof (in_bounds_component idx Hin) as Hj.
    fold (qget (build [n] (fun idx0 : list nat =>
            let next := firstn 0 idx0 ++ [S (nth 0 idx0 0)] ++ skipn 1 idx0 in
            (qget w next - qget w idx0)%Q)) [nth axis idx 0]).
    unfold qget. rewrite get_build; [reflexivity |].
    cbn [in_bounds]. apply Nat.ltb_lt in Hj. now rewrite Hj.
  - (* interfaces that depend on the other dimensions *)
    assert (Hlen : length (shape w) = length (shape d)).
    { rewrite Hsh, length_app, length_firstn. cbn [length]. rewrite length_skipn. lia. }
    unfold cell_width.
    replace (length (shape w) =? 1) with false by (symmetry; apply Nat.eqb_neq; lia).
    unfold diff_axis.
    assert (Hnth : nth axis (shape w) 0 = S n).
    { rewrite Hsh, app_nth2 by (rewrite length_firstn; lia).
      rewrite length_firstn, Nat.min_l by lia. now rewrite Nat.sub_diag. }
    rewrite (list_item_nth _ _ 0) by lia. rewrite Hnth. cbn [bind].
    rewrite list_setitem_ok by lia.
    replace (S n - 1) with n by lia.
    assert (Hshape : firstn axis (shape w) ++ n :: skipn (S axis) (shape w) = shape d).
    { rewrite Hsh.
      rewrite firstn_app, length_firstn, Nat.min_l by lia.
      rewrite Nat.sub_diag, firstn_O, app_nil_r.
      rewrite firstn_all2 by (rewrite length_firstn; lia).
      rewrite skipn_app, length_firstn, Nat.min_l by lia.
      replace (S axis - axis) with 1 by lia.
      rewrite skipn_all2 by (rewrite length_firstn; lia).
      cbn [skipn app].
      rewrite <- (firstn_skipn axis (shape d)) at 3.
      now rewrite (skipn_cons_nth (shape d) axis 0) by exact axis_lt. }
    rewrite Hshape. cbn [bind].
    eexists. split; [reflexivity |]. split; [reflexivity |]. split; [apply wf_build |].
    intros idx Hin. unfold qget. rewrite get_build by exact Hin. cbv zeta.
    pose proof (in_bounds_length _ _ Hin) as Hl.
    rewrite list_insert_drop_nth by lia.
    rewrite list_insert_drop_nth_same by lia. reflexivity.
Qed.

(** A lane of an array whose elements are known. *)
Lemma lane_values (a : array) (g : list nat -> nat -> Q) (ridx : list nat) :
  shape a = shape d ->
  (forall idx, in_bounds (shape d) idx = true ->
     qget a idx = g (drop_nth axis idx) (nth axis idx 0)) ->
  in_bounds rsh ridx = true ->
  lane 0%Q a axis ridx = map (g ridx) (seq 0 n).
Proof.
  intros Hs Hg Hin. unfold lane. rewrite Hs. fold n.
  apply map_ext_in. intros j Hj. apply in_seq in Hj.
  pose proof (in_bounds_length _ _ Hin) as Hl.
  unfold rsh in Hl. rewrite length_drop_nth in Hl by exact axis_lt.
  fold (qget a (list_insert ridx axis j)).
  rewrite Hg by (apply in_bounds_insert; [exact axis_lt | exact Hin | fold n; lia]).
  rewrite drop_nth_insert, nth_insert by lia. reflexivity.
Qed.

(** [a.sum(axis)] of such an array. *)
Lemma sum_axis_values (a : array) (g : list nat -> nat -> Q) :
  shape a = shape d ->
  (forall idx, in_bounds (shape d) idx = true ->
     qget a idx = g (drop_nth axis idx) (nth axis idx 0)) ->
  exists s, sum_axis a axis = Ok s /\ shape s = rsh /\ wf s
            /\ forall ridx, in_bounds rsh ridx = true ->
                 qget s ridx = Qsum (map (g ridx) (seq 0 n)).
Proof.
  intros Hs Hg. unfold sum_axis. rewrite Hs, (list_del_drop _ _ axis_lt). cbn [bind].
  eexists. split; [reflexivity |]. split; [reflexivity |]. split; [apply wf_build |].
  intros ridx Hin. unfold qget. rewrite get_build by exact Hin.
  now rewrite (lane_values a g ridx Hs Hg Hin).
Qed.

(** The normalised weights are the cell weights. *)
Lemma average_weights_are_cell_weights (sourceslice : Slice) :
  nth_error (coords_stag sourceslice) axis = Some (Some w) ->
  exists weights,
    average_weights axis sourceslice d = Ok weights
    /\ shape weights = shape d /\ wf weights
    /\ forall idx, in_bounds (shape d) idx = true ->
         qget weights idx = cell_weight w axis n (drop_nth axis idx) (nth axis idx 0).
Proof.
  intros Hw. unfold average_weights.
  rewrite (list_item_nth_error _ _ _ Hw). cbn [bind attr_of].
  destruct raw_weights as (raw & Hraw & Hrs & Hrw & Hrg).
  rewrite Hraw. cbn [bind].
  destruct (sum_axis_values raw (cell_width w axis) Hrs Hrg) as (s & Hsum & Hss & Hsw & Hsg).
  rewrite Hsum. cbn [bind].
  rewrite (list_item_nth _ _ 0 axis_lt). fold n. cbn [bind].
  assert (Hins : list_insert (shape s) axis n = shape d).
  { rewrite Hss. unfold rsh, n. now apply list_insert_drop_nth_same. }
  assert (Hes : shape (expand_axis s n axis) = shape d) by exact Hins.
  rewrite map2_same_shape by now rewrite Hrs, Hes.
  eexists. split; [reflexivity |]. cbn [shape].
  split; [exact Hrs |].
  split; [apply wf_zip; [exact Hrw | apply wf_build | now rewrite Hrs, Hes] |].
  intros idx Hin. unfold qget.
  rewrite (get_zip 0%Q Qdiv raw (expand_axis s n axis) idx Hrw (wf_build _ _)
             (eq_trans Hrs (eq_sym Hes))) by now rewrite Hrs.
  fold (qget raw idx). rewrite (Hrg idx Hin).
  unfold expand_axis at 1. rewrite get_build by (rewrite Hins; exact Hin).
  fold (qget s (drop_nth axis idx)).
  rewrite Hsg by (apply in_bounds_drop; exact Hin).
  reflexivity.
Qed.

(** [(a*weights).sum(axis)] for arrays whose elements are known. *)
Lemma product_sum_values (a weights : array) (ga gw : list nat -> nat -> Q) :
  shape a = shape d -> wf a -> shape weights = shape d -> wf weights ->
  (forall idx, in_bounds (shape d) idx = true ->
     qget a idx = ga (drop_nth axis idx) (nth axis idx 0)) ->
  (forall idx, in_bounds (shape d) idx = true ->
     qget weights idx = gw (drop_nth axis idx) (nth axis idx 0)) ->
  exists m, (dw <- map2 Qmult a weights ;; sum_axis dw axis) = Ok m
            /\ shape m = rsh /\ wf m
            /\ forall ridx, in_bounds rsh ridx = true ->
                 qget m ridx = Qsum (map (fun j => (ga ridx j * gw ridx j)%Q) (seq 0 n)).
Proof.
  intros Has Haw Hws Hww Hga Hgw.
  rewrite map2_same_shape by now rewrite Has, Hws. cbn [bind].
  apply (sum_axis_values _ (fun r j => (ga r j * gw r j)%Q)); [exact Has |].
  intros idx Hin. unfold qget.
  rewrite (get_zip 0%Q Qmult a weights idx Haw Hww (eq_trans Has (eq_sym Hws)))
    by now rewrite Has.
  fold (qget a idx) (qget weights idx). now rewrite Hga, Hgw.
Qed.

Lemma data_values (idx : list nat) :
  in_bounds (shape d) idx = true ->
  qget d idx = qget d (list_insert (drop_nth axis idx) axis (nth axis idx 0)).
Proof.
  intros Hin. pose proof (in_bounds_length _ _ Hin) as Hl.
  now rewrite list_insert_drop_nth_same by lia.
Qed.

Lemma squared_data_values (idx : list nat) :
  in_bounds (shape d) idx = true ->
  qget (map1 Qsquare d) idx
  = Qsquare (qget d (list_insert (drop_nth axis idx) axis (nth axis idx 0))).
Proof.
  intros Hin. unfold qget at 1. rewrite get_map1 by assumption.
  fold (qget d idx). now rewrite <- data_values.
Qed.

End AverageWeights.

(** ** VariableAverage: the coordinates of the dimensions that stay *)

Lemma take_first (a : array) (axis : nat) :
  axis < length (shape a) -> 0 < nth axis (shape a) 0 ->
  exists a1, take 0%Q a [0] axis = Ok a1
             /\ shape a1 = firstn axis (shape a) ++ 1 :: skipn (S axis) (shape a).
Proof.
  intros Ha Hn. unfold take.
  rewrite (list_item_nth _ _ 0 Ha). cbn [bind].
  rewrite (list_setitem_ok _ _ _ Ha). cbn [bind length forallb].
  apply Nat.ltb_lt in Hn. rewrite Hn. cbn [andb].
  eexists. split; reflexivity.
Qed.

Lemma reshape_drop_unit (a1 : array) (sh : list nat) (axis : nat) :
  axis < length sh ->
  shape a1 = firstn axis sh ++ 1 :: skipn (S axis) sh ->
  exists a2, reshape a1 (drop_nth axis (shape a1)) = Ok a2.
Proof.
  intros Ha Hs. unfold reshape. rewrite Hs, size_drop_unit by exact Ha.
  rewrite Nat.eqb_refl. eexists; reflexivity.
Qed.

Lemma length_replace {A : Type} (l : list A) (i : nat) (x : A) :
  i < length l -> length (firstn i l ++ x :: skipn (S i) l) = length l.
Proof.
  intros H. rewrite length_app, length_firstn. cbn [length]. rewrite length_skipn. lia.
Qed.

Lemma valid_parts (s : Slice) :
  isValid s = true ->
  (exists d, data s = Some d)
  /\ (forall i, i < length (coords s) -> exists c, nth i (coords s) None = Some c)
  /\ (forall i, i < length (coords_stag s) -> exists c, nth i (coords_stag s) None = Some c).
Proof.
  unfold isValid. intros H.
  apply andb_prop in H. destruct H as [H Hs].
  apply andb_prop in H. destruct H as [H Hc].
  apply andb_prop in H. destruct H as [_ Hd].
  repeat split.
  - destruct (data s) as [d |]; [eauto | discriminate].
  - intros i Hi. rewrite forallb_forall in Hc.
    specialize (Hc _ (nth_In _ None Hi)).
    destruct (nth i (coords s) None); [eauto | discriminate].
  - intros i Hi. rewrite forallb_forall in Hs.
    specialize (Hs _ (nth_In _ None Hi)).
    destruct (nth i (coords_stag s) None); [eauto | discriminate].
Qed.

Section AverageCoords.

Variable axis : nat.
Variable sourceslice : Slice.
Variable R : nat.
Hypothesis valid : isValid sourceslice = true.
Hypothesis coords_len : length (coords sourceslice) = S R.
Hypothesis stag_len : length (coords_stag sourceslice) = S R.
Hypothesis axis_le : axis <= R.
Hypothesis can_copy :
  forall i, i <> axis -> i < S R ->
    copyable axis (nth i (coords sourceslice) None) (nth i (coords_stag sourceslice) None).

Lemma average_coords_step_ok (slice : Slice) (idim : nat) :
  idim < S R -> length (coords slice) = R -> length (coords_stag slice) = R ->
  exists slice',
    average_coords_step axis sourceslice slice idim = Ok slice'
    /\ length (coords slice') = R /\ length (coords_stag slice') = R
    /\ dimensions slice' = dimensions slice.
Proof.
  intros Hi Hc Hs. unfold average_coords_step.
  destruct (Nat.eqb_spec idim axis) as [-> | Hne]; [exists slice; auto |].
  destruct (valid_parts _ valid) as (_ & Hvc & Hvs).
  destruct (Hvc idim) as [c0 Ec]; [lia |].
  destruct (Hvs idim) as [s0 Es]; [lia |].
  rewrite (list_item_nth _ _ None) by lia.
  rewrite (list_item_nth (coords_stag sourceslice) _ None) by lia.
  rewrite Ec, Es. cbn [bind attr_of].
  set (itargetdim := if axis <? idim then idim - 1 else idim).
  assert (Ht : itargetdim < R).
  { unfold itargetdim. destruct (Nat.ltb_spec axis idim); lia. }
  assert (Hfinish : forall cs : option array * option array,
            exists slice',
              (cs' <- list_setitem (coords slice) itargetdim (fst cs) ;;
               ss' <- list_setitem (coords_stag slice) itargetdim (snd cs) ;;
               Ok (set_coords_stag (set_coords slice cs') ss')) = Ok slice'
              /\ length (coords slice') = R /\ length (coords_stag slice') = R
              /\ dimensions slice' = dimensions slice).
  { intros cs. rewrite !list_setitem_ok by lia. cbn [bind].
    eexists. split; [reflexivity |].
    cbn [set_coords_stag set_coords coords coords_stag dimensions].
    rewrite !length_replace by lia. auto. }
  destruct (1 <? length (shape c0)) eqn:End.
  - apply Nat.ltb_lt in End.
    destruct (can_copy idim Hne Hi c0 Ec End) as (Ha & Hpos & Hstag).
    destruct (Hstag s0 Es) as (Hsa & Hspos).
    destruct (take_first c0 axis Ha Hpos) as (c1 & Hc1 & Hc1s).
    destruct (take_first s0 axis Hsa Hspos) as (s1 & Hs1 & Hs1s).
    destruct (reshape_drop_unit c1 _ axis Ha Hc1s) as (c2 & Hc2).
    destruct (reshape_drop_unit s1 _ axis Hsa Hs1s) as (s2 & Hs2).
    rewrite Hc1. cbn [bind]. rewrite Hs1. cbn [bind].
    rewrite Hc2. cbn [bind]. rewrite Hs2. cbn [bind].
    apply (Hfinish (Some c2, Some s2)).
  - cbn [bind]. apply (Hfinish (Some c0, Some s0)).
Qed.

Lemma average_coords_loop_ok (todo : list nat) :
  forall slice,
    Forall (fun idim => idim < S R) todo ->
    length (coords slice) = R -> length (coords_stag slice) = R ->
    exists slice',
      foldM (average_coords_step axis sourceslice) todo slice = Ok slice'
      /\ dimensions slice' = dimensions slice.
Proof.
  induction todo as [| idim todo IH]; intros slice Hall Hc Hs.
  - exists slice. auto.
  - apply Forall_cons_iff in Hall. destruct Hall as [Hi Hrest].
    destruct (average_coords_step_ok slice idim Hi Hc Hs) as (slice1 & Hstep & Hc1 & Hs1 & Hd1).
    destruct (IH slice1 Hrest Hc1 Hs1) as (slice' & Hloop & Hd').
    exists slice'. cbn [foldM]. rewrite Hstep. cbn [bind].
    split; [exact Hloop | congruence].
Qed.

End AverageCoords.

(** ** Sums of rationals *)

Lemma Qsum_scaled (g : nat -> Q) (t : Q) (l : list nat) :
  (Qsum (map (fun j => g j / t) l) == Qsum (map g l) / t)%Q.
Proof.
  induction l as [| j l IH]; simpl.
  - unfold Qdiv. now rewrite Qmult_0_l.
  - rewrite IH. unfold Qdiv. ring.
Qed.

(** Widths divided by their sum add up to one. *)
Lemma Qsum_normalised (g : nat -> Q) (l : list nat) :
  ~ (Qsum (map g l) == 0)%Q ->
  (Qsum (map (fun j => g j / Qsum (map g l)) l) == 1)%Q.
Proof.
  intros H. rewrite Qsum_scaled. now field.
Qed.

(** The variance as the expectation of the squared deviation. *)
Lemma Qsum_centered (x wt : nat -> Q) (mu : Q) (l : list nat) :
  (Qsum (map (fun j => (x j - mu) * (x j - mu) * wt j) l)
   == Qsum (map (fun j => Qsquare (x j) * wt j) l)
      - 2 * mu * Qsum (map (fun j => x j * wt j) l)
      + mu * mu * Qsum (map wt l))%Q.
Proof.
  induction l as [| j l IH]; simpl.
  - ring.
  - rewrite IH. unfold Qsquare. ring.
Qed.

Lemma variance_centered (x wt : nat -> Q) (l : list nat) :
  (Qsum (map wt l) == 1)%Q ->
  let mu := Qsum (map (fun j => (x j * wt j)%Q) l) in
  (Qsum (map (fun j => Qsquare (x j) * wt j) l) - mu * mu
   == Qsum (map (fun j => (x j - mu) * (x j - mu) * wt j) l))%Q.
Proof.
  intros H mu. rewrite Qsum_centered. fold mu. rewrite H. ring.
Qed.

Lemma sqrt_proper (sqrt : Q -> Q) (a b : Q) : (a == b)%Q -> sqrt (Qred a) = sqrt (Qred b).
Proof. intros H. f_equal. now apply Qred_complete. Qed.

(** C2, as amended.  With the mean as centre measure and the standard
    deviation as bounds measure, for every valid source slice whose shapes
    are consistent and whose cells along the reduced dimension have a
    non-zero total width: the weights are the cell widths divided by their
    sum (they add up to one), the data of the returned slice are the
    weighted mean, and its bounds are mean - sqrt(E[x^2] - E[x]^2) and
    mean + sqrt(E[x^2] - E[x]^2), where the variance E[x^2] - E[x]^2 is also
    the weighted mean of the squared deviations from the mean. *)
Theorem VariableAverage_getSlice_stddev_bounds :
  forall (sqrt : Q -> Q) (self : VariableAverage) (bounds : list bound)
         (sourceslice : Slice) (d w : array),
    let base := avg_base self in
    let axis := idimension base in
    let n := nth axis (shape d) 0 in
    let rsh := drop_nth axis (shape d) in
    centermeasure self = 0%Z ->
    boundsmeasure self = 0%Z ->
    getSlice (sourcevar base) (list_insert bounds axis (None, None)) = Ok sourceslice ->
    isValid sourceslice = true ->
    data sourceslice = Some d -> wf d ->
    axis < length (shape d) ->
    length (shape d) = S (length (Reduce_getDimensions base)) ->
    length (coords sourceslice) = length (shape d) ->
    length (coords_stag sourceslice) = length (shape d) ->
    (forall i, i <> axis -> i < length (shape d) ->
       copyable axis (nth i (coords sourceslice) None) (nth i (coords_stag sourceslice) None)) ->
    nth_error (coords_stag sourceslice) axis = Some (Some w) ->
    interfaces_fit w d axis ->
    (forall idx, in_bounds rsh idx = true ->
       ~ (Qsum (map (cell_width w axis idx) (seq 0 n)) == 0)%Q) ->
    exists slice m lb ub,
      VariableAverage_getSlice sqrt self bounds = Ok slice
      /\ dimensions slice = Reduce_getDimensions base
      /\ data slice = Some m /\ lbound slice = Some lb /\ ubound slice = Some ub
      /\ shape m = rsh /\ shape lb = rsh /\ shape ub = rsh
      /\ forall idx, in_bounds rsh idx = true ->
           let mean := weighted_mean d w axis idx in
           let variance := (weighted_meansquare d w axis idx - mean * mean)%Q in
           (Qsum (map (cell_weight w axis n idx) (seq 0 n)) == 1)%Q
           /\ (variance
               == expectation (fun x => (x - mean) * (x - mean)) d w axis idx)%Q
           /\ (qget m idx == mean)%Q
           /\ (qget lb idx == mean - sqrt (Qred variance))%Q
           /\ (qget ub idx == mean + sqrt (Qred variance))%Q.
Proof.
  intros sqrt self bounds sourceslice d w base axis n rsh
         Hcm Hbm Hget Hvalid Hd Hdwf Haxis Hrank Hclen Hslen Hcopy Hw Hfit Htotal.
  unfold VariableAverage_getSlice. fold base axis.
  rewrite Hget. cbn [bind]. rewrite Hvalid. cbn [negb].
  (* the coordinates *)
  destruct (average_coords_loop_ok axis sourceslice (length (Reduce_getDimensions base))
              Hvalid) with (todo := seq 0 (length (coords sourceslice)))
                           (slice := newSlice (Reduce_getDimensions base))
    as (slice0 & Hloop & Hdims0); try lia.
  { intros i Hne Hi. apply Hcopy; [exact Hne | lia]. }
  { apply Forall_forall. intros i Hi. apply in_seq in Hi. lia. }
  { cbn [newSlice coords]. apply repeat_length. }
  { cbn [newSlice coords_stag]. apply repeat_length. }
  rewrite Hloop. cbn [bind]. rewrite Hd. cbn [attr_of bind].
  (* the weights *)
  destruct (average_weights_are_cell_weights axis d w Haxis Hfit sourceslice Hw)
    as (weights & Hweights & Hws & Hww & Hwg).
  fold n in Hwg. rewrite Hweights. cbn [bind].
  rewrite Hcm, Hbm. cbn [Z.eqb orb].
  (* the mean *)
  destruct (product_sum_values axis d Haxis d weights
              (fun r j => qget d (list_insert r axis j)) (cell_weight w axis n)
              eq_refl Hdwf Hws Hww (data_values axis d Haxis) Hwg)
    as (m & Hm & Hms & Hmw & Hmg).
  apply bind_Ok in Hm. destruct Hm as (dw & Hdw & Hm).
  rewrite Hdw. cbn [bind]. rewrite Hm. cbn [bind load_local].
  (* the mean square *)
  destruct (product_sum_values axis d Haxis (map1 Qsquare d) weights
              (fun r j => Qsquare (qget d (list_insert r axis j))) (cell_weight w axis n)
              eq_refl (wf_map1 Qsquare d Hdwf) Hws Hww
              (squared_data_values axis d Hdwf Haxis) Hwg)
    as (e2 & He2 & He2s & He2w & He2g).
  apply bind_Ok in He2. destruct He2 as (d2 & Hd2 & He2).
  rewrite Hd2. cbn [bind]. rewrite He2. cbn [bind].
  fold rsh in Hms, He2s, Hmg, He2g.
  (* variance, standard deviation, bounds *)
  rewrite (map2_same_shape Qminus e2 (map1 Qsquare m)) by (cbn [map1 shape]; congruence).
  cbn [bind].
  set (var := mkarray (shape e2) _).
  assert (Hvars : shape var = rsh) by exact He2s.
  assert (Hvarw : wf var).
  { apply wf_zip; [exact He2w | now apply wf_map1 | cbn [map1 shape]; congruence]. }
  assert (Hsd : shape (np_sqrt sqrt var) = rsh) by exact Hvars.
  assert (Hsdw : wf (np_sqrt sqrt var)) by now apply wf_map1.
  rewrite (map2_same_shape Qminus m (np_sqrt sqrt var)) by congruence. cbn [bind].
  rewrite (map2_same_shape Qplus m (np_sqrt sqrt var)) by congruence. cbn [bind].
  eexists; exists m; do 2 eexists.
  split; [reflexivity |].
  cbn [set_bounds set_data dimensions data lbound ubound].
  split; [exact Hdims0 |].
  split; [reflexivity |]. split; [reflexivity |]. split; [reflexivity |].
  cbn [shape]. split; [exact Hms |]. split; [exact Hms |]. split; [exact Hms |].
  intros idx Hin. cbv zeta.
  (* the values at one position *)
  assert (Hmean : qget m idx = weighted_mean d w axis idx) by (rewrite (Hmg idx Hin); reflexivity).
  assert (Hsq : qget e2 idx = weighted_meansquare d w axis idx)
    by (rewrite (He2g idx Hin); reflexivity).
  assert (Hone : (Qsum (map (cell_weight w axis n idx) (seq 0 n)) == 1)%Q).
  { unfold cell_weight. apply Qsum_normalised. now apply Htotal. }
  assert (Hvar : qget var idx
                 = (weighted_meansquare d w axis idx
                    - weighted_mean d w axis idx * weighted_mean d w axis idx)%Q).
  { unfold var, qget.
    rewrite (get_zip 0%Q Qminus e2 (map1 Qsquare m) idx He2w (wf_map1 _ _ Hmw))
      by (cbn [map1 shape]; congruence).
    rewrite get_map1 by (try exact Hmw; congruence).
    fold (qget e2 idx) (qget m idx). rewrite Hsq, Hmean. reflexivity. }
  assert (Hsdv : qget (np_sqrt sqrt var) idx = sqrt (Qred (qget var idx))).
  { unfold np_sqrt, qget. rewrite get_map1 by (try exact Hvarw; congruence). reflexivity. }
  split; [exact Hone |]. split.
  - unfold weighted_meansquare, weighted_mean, expectation. fold n.
    apply (variance_centered (fun j => qget d (list_insert idx axis j))
             (cell_weight w axis n idx) (seq 0 n) Hone).
  - split; [now rewrite Hmean |].
    unfold qget in *.
    rewrite !(get_zip 0%Q _ m (np_sqrt sqrt var) idx Hmw Hsdw) by congruence.
    rewrite Hsdv, Hvar, Hmean. split; reflexivity.
Qed.

Example VariableAverage_init_temp :
  VariableAverage_init temp "time" 0 0 (1 # 2) = Ok temp_average.
Proof. reflexivity. Qed.

Example VariableAverage_init_skewed :
  VariableAverage_init skewed "time" 1 0 (1 # 2) = Ok skewed_median.
Proof. reflexivity. Qed.

(** One step of a chain of computations whose first part does not depend
    on the square root: evaluate that part and pass its value on. *)
Ltac run_head sqrt :=
  lazymatch goal with
  | |- bind ?m ?k = _ =>
      lazymatch m with
      | context [sqrt] => fail "the first computation depends on the square root"
      | _ => let v := eval vm_compute in m in
             replace m with v by (vm_compute; reflexivity);
             cbn [bind]
      end
  | |- (if ?c then _ else _) = _ =>
      let v := eval vm_compute in c in
      replace c with v by (vm_compute; reflexivity);
      cbv iota
  end.

(** The end of the chain: [sd] is the square root of a variance already
    computed, and the bounds are the centre minus and plus [sd]. *)
Ltac run_bounds :=
  unfold np_sqrt, map1; cbn [map shape flat];
  rewrite !map2_same_shape by reflexivity;
  cbn [bind shape flat combine map fst snd set_bounds set_data
       dimensions ndim data coords coords_stag lbound ubound fixedcoords].

Lemma sqrt_bounds_at (sqrt : Q -> Q) (c v c' v' : Q) :
  (c == c')%Q -> Qred v = v' ->
  (c - sqrt (Qred v) == c' - sqrt v')%Q /\ (c + sqrt (Qred v) == c' + sqrt v')%Q.
Proof. intros Hc Hv. rewrite Hv, Hc. split; reflexivity. Qed.

(** Scenario 3 of the spec, for any square root function: the mean of
    10, 12, 14 under uniform weights is 12 and the bounds are
    12 -/+ sqrt(8/3), where 8/3 = ((10-12)^2 + (12-12)^2 + (14-12)^2)/3. *)
Example VariableAverage_getSlice_temp (sqrt : Q -> Q) :
  exists slice m lb ub,
    VariableAverage_getSlice sqrt temp_average [] = Ok slice
    /\ data slice = Some m /\ lbound slice = Some lb /\ ubound slice = Some ub
    /\ (qget m [] == 12)%Q
    /\ (qget lb [] == 12 - sqrt (8 # 3))%Q
    /\ (qget ub [] == 12 + sqrt (8 # 3))%Q
    /\ (8 # 3 == ((10 - 12) * (10 - 12) + (12 - 12) * (12 - 12) + (14 - 12) * (14 - 12)) / 3)%Q.
Proof.
  do 4 eexists. split.
  { unfold VariableAverage_getSlice. cbv zeta. repeat run_head sqrt. run_bounds. reflexivity. }
  cbn [data lbound ubound].
  split; [reflexivity |]. split; [reflexivity |]. split; [reflexivity |].
  unfold qget, get. cbn [shape flat offset nth].
  split; [vm_compute; reflexivity |].
  split; [apply sqrt_bounds_at; vm_compute; reflexivity |].
  split; [apply sqrt_bounds_at; vm_compute; reflexivity |].
  vm_compute; reflexivity.
Qed.

Lemma VariableAverage_getSlice_stddev_bounds_witness :
  exists slice lb ub,
    VariableAverage_getSlice sqrt_3dp temp_average [] = Ok slice
    /\ lbound slice = Some lb /\ ubound slice = Some ub
    /\ (qget lb [] == 12 - sqrt_3dp (8 # 3))%Q
    /\ (qget ub [] == 12 + sqrt_3dp (8 # 3))%Q.
Proof.
  destruct (VariableAverage_getSlice_stddev_bounds sqrt_3dp temp_average [] temp_slice
              (vector [10; 12; 14]%Q) (vector [-(1 # 2); 1 # 2; 3 # 2; 5 # 2]%Q))
    as (slice & m & lb & ub & Hslice & _ & _ & Hlb & Hub & _ & _ & _ & Hat).
  - reflexivity.
  - reflexivity.
  - reflexivity.
  - reflexivity.
  - reflexivity.
  - reflexivity.
  - simpl. lia.
  - reflexivity.
  - reflexivity.
  - reflexivity.
  - intros i Hne Hi. simpl in Hi. simpl in Hne. lia.
  - reflexivity.
  - left. reflexivity.
  - intros idx Hin H. destruct idx; [| discriminate]. vm_compute in H. discriminate.
  - destruct (Hat [] eq_refl) as (_ & _ & _ & H1 & H2).
    exists slice, lb, ub. repeat split; try assumption.
    + rewrite H1. vm_compute. reflexivity.
    + rewrite H2. vm_compute. reflexivity.
Defined.

(** C2, as stated, fails for the median as centre measure: for the values
    10, 12, 20 under uniform weights the weighted mean is 14 and the median
    is 27/2, and whatever the square root function the bounds are
    27/2 -/+ sqrt(56/3): centred on the median, not on the mean. *)
Lemma VariableAverage_getSlice_median_centred :
  (weighted_mean (vector [10; 12; 20]%Q) (vector [-(1 # 2); 1 # 2; 3 # 2; 5 # 2]%Q) 0 []
   == 14)%Q
  /\ forall sqrt : Q -> Q,
       exists slice m lb ub,
         VariableAverage_getSlice sqrt skewed_median [] = Ok slice
         /\ data slice = Some m /\ lbound slice = Some lb /\ ubound slice = Some ub
         /\ (qget m [] == 27 # 2)%Q
         /\ (qget lb [] == (27 # 2) - sqrt (56 # 3))%Q
         /\ (qget ub [] == (27 # 2) + sqrt (56 # 3))%Q
         /\ (14 - sqrt (56 # 3) - qget lb [] == 1 # 2)%Q.
Proof.
  split; [vm_compute; reflexivity |].
  intros sqrt. do 4 eexists. split.
  { unfold VariableAverage_getSlice. cbv zeta. repeat run_head sqrt. run_bounds. reflexivity. }
  cbn [data lbound ubound].
  split; [reflexivity |]. split; [reflexivity |]. split; [reflexivity |].
  unfold qget, get. cbn [shape flat offset nth].
  split; [vm_compute; reflexivity |].
  split; [apply sqrt_bounds_at; vm_compute; reflexivity |].
  split; [apply sqrt_bounds_at; vm_compute; reflexivity |].
  match goal with
  | |- (_ - (?c - sqrt (Qred ?v)) == _)%Q =>
      destruct (sqrt_bounds_at sqrt c v (27 # 2) (56 # 3)) as [H _];
      [vm_compute; reflexivity .. | rewrite H; ring]
  end.
Qed.

(** ** VariableReduceDimension: the dimension that is taken out *)

Lemma index_of_Some (x : string) (l : list string) (i : nat) :
  index_of x l = Some i ->
  nth_error l i = Some x /\ forall j, j < i -> nth_error l j <> Some x.
Proof.
  revert i. induction l as [| y r IH]; intros i H; [discriminate |].
  cbn [index_of] in H. destruct (String.eqb_spec y x) as [E | N].
  - injection H as <-. subst y. split; [reflexivity | intros j Hj; lia].
  - destruct (index_of x r) as [k |]; [| discriminate].
    injection H as <-. destruct (IH k eq_refl) as [Hk Hbefore].
    split; [exact Hk |].
    intros [| j] Hj; cbn [nth_error].
    + congruence.
    + apply Hbefore. lia.
Qed.

Lemma index_of_None (x : string) (l : list string) :
  index_of x l = None -> ~ In x l.
Proof.
  induction l as [| y r IH]; intros H; [intros [] |].
  cbn [index_of] in H. destruct (String.eqb_spec y x) as [E | N]; [discriminate |].
  destruct (index_of x r); [discriminate |].
  intros [E | Hin]; [congruence | now apply IH].
Qed.

Lemma filter_out_absent (x : string) (l : list string) :
  ~ In x l -> filter (fun d => negb (d =? x)%string) l = l.
Proof.
  induction l as [| y r IH]; intros H; [reflexivity |].
  cbn [filter]. destruct (String.eqb_spec y x) as [E | N].
  - exfalso. apply H. left. exact E.
  - cbn [negb]. f_equal. apply IH. intros Hin. apply H. now right.
Qed.

Lemma filter_out_once (x : string) (l : list string) (i : nat) :
  NoDup l -> nth_error l i = Some x ->
  filter (fun d => negb (d =? x)%string) l = firstn i l ++ skipn (S i) l.
Proof.
  revert i. induction l as [| y r IH]; intros i Hnd Hi.
  - destruct i; discriminate.
  - apply NoDup_cons_iff in Hnd. destruct Hnd as [Hy Hr].
    destruct i as [| i]; cbn [nth_error] in Hi.
    + injection Hi as ->. cbn [filter firstn skipn app].
      rewrite String.eqb_refl. cbn [negb]. now apply filter_out_absent.
    + cbn [filter firstn skipn app].
      destruct (String.eqb_spec y x) as [E | N].
      * exfalso. apply Hy. subst y. eapply nth_error_In. exact Hi.
      * cbn [negb]. f_equal. now apply IH.
Qed.

(** X1: [VariableReduceDimension.__init__] either finds the first position
    of the dimension among the dimensions of the source variable, or fails
    its assertion because the dimension is absent; the dimension list of the
    transform never holds the dimension that was taken out. *)
Theorem VariableReduceDimension_init_first_position :
  forall (variable : PlotVariable) (dim nameprefix longnameprefix : string),
    match VariableReduceDimension_init variable dim nameprefix longnameprefix with
    | Ok self =>
        nth_error (getDimensions variable) (idimension self) = Some dim
        /\ (forall j, j < idimension self ->
              nth_error (getDimensions variable) j <> Some dim)
        /\ ~ In dim (Reduce_getDimensions self)
    | Raise e =>
        e = AssertionError "Dimension is not present for this variable."
        /\ ~ In dim (getDimensions variable)
    end.
Proof.
  intros variable dim nameprefix longnameprefix.
  unfold VariableReduceDimension_init.
  destruct (index_of dim (getDimensions variable)) as [i |] eqn:E.
  - destruct (index_of_Some _ _ _ E) as [Hi Hbefore].
    cbn [idimension]. split; [exact Hi |]. split; [exact Hbefore |].
    unfold Reduce_getDimensions. cbn [dimension sourcevar].
    intros Hin. apply filter_In in Hin. destruct Hin as [_ Hin].
    rewrite String.eqb_refl in Hin. discriminate.
  - split; [reflexivity | now apply index_of_None].
Qed.

Lemma VariableReduceDimension_getDimensions_drops_one_aux
    (variable : PlotVariable) (dim nameprefix longnameprefix : string)
    (self : VariableReduceDimension) :
  VariableReduceDimension_init variable dim nameprefix longnameprefix = Ok self ->
  NoDup (getDimensions variable) ->
  nth_error (getDimensions variable) (idimension self) = Some dim
  /\ Reduce_getDimensions self
     = firstn (idimension self) (getDimensions variable)
       ++ skipn (S (idimension self)) (getDimensions variable)
  /\ idimension self < length (getDimensions variable).
Proof.
  intros Hinit Hnd.
  unfold VariableReduceDimension_init in Hinit.
  destruct (index_of dim (getDimensions variable)) as [i |] eqn:E; [| discriminate].
  injection Hinit as <-. cbn [idimension].
  destruct (index_of_Some _ _ _ E) as [Hi _].
  assert (Hlt : i < length (getDimensions variable)).
  { apply nth_error_Some. congruence. }
  unfold Reduce_getDimensions. cbn [dimension sourcevar].
  rewrite (filter_out_once _ _ _ Hnd Hi). auto.
Qed.

(** X2: when the dimension names of the source variable are distinct, the
    transform has the dimensions of the source without the one at
    [idimension], in their order: one dimension less. *)
Theorem VariableReduceDimension_getDimensions_drops_one :
  forall (variable : PlotVariable) (dim nameprefix longnameprefix : string)
         (self : VariableReduceDimension),
    VariableReduceDimension_init variable dim nameprefix longnameprefix = Ok self ->
    NoDup (getDimensions variable) ->
    Reduce_getDimensions self
    = firstn (idimension self) (getDimensions variable)
      ++ skipn (S (idimension self)) (getDimensions variable)
    /\ S (length (Reduce_getDimensions self)) = length (getDimensions variable).
Proof.
  intros variable dim nameprefix longnameprefix self Hinit Hnd.
  destruct (VariableReduceDimension_getDimensions_drops_one_aux _ _ _ _ _ Hinit Hnd)
    as (_ & Hdims & Hlt).
  split; [exact Hdims |].
  rewrite Hdims, length_app, length_firstn, length_skipn. lia.
Qed.

Lemma VariableReduceDimension_getDimensions_drops_one_witness :
  exists self,
    VariableReduceDimension_init cube "b" "" "" = Ok self
    /\ Reduce_getDimensions self = ["a"; "c"].
Proof.
  eexists. split; [reflexivity |].
  apply (VariableReduceDimension_getDimensions_drops_one cube "b" "" "" _ eq_refl).
  repeat constructor; simpl; intuition discriminate.
Defined.

(** ** VariableSlice.getSlice: what it can return *)

Lemma isValid_newSlice (dims : list string) : isValid (newSlice dims) = false.
Proof.
  unfold isValid. cbn [newSlice data is_some]. now rewrite andb_false_r.
Qed.

Lemma load_global_dims : load_global "dims" = Raise (NameError "dims").
Proof. reflexivity. Qed.

Lemma VariableSlice_getSlice_empty (self : VariableReduceDimension) (sliceval : Q)
    (bounds : list bound) (s : Slice) :
  VariableSlice_getSlice self sliceval bounds = Ok s ->
  s = newSlice (Reduce_getDimensions self).
Proof.
  unfold VariableSlice_getSlice. intros H.
  inv_bind H. cbn [bound_method_truth negb] in H.
  inv_bind H. inv_bind H. inv_bind H. inv_bind H.
  destruct ((searchsorted (flat a1) sliceval =? 0) || (a3 <=? searchsorted (flat a1) sliceval)).
  - now injection H as <-.
  - inv_bind H. inv_bind H. rewrite load_global_dims in H. discriminate.
Qed.

(** X3: whatever the source variable, the bounds and the slice coordinate,
    a slice that [VariableSlice.getSlice] returns is the empty slice it
    created at its first line: it has no data and is not valid. *)
Theorem VariableSlice_getSlice_never_returns_data :
  forall (self : VariableReduceDimension) (sliceval : Q) (bounds : list bound) (s : Slice),
    VariableSlice_getSlice self sliceval bounds = Ok s ->
    s = newSlice (Reduce_getDimensions self) /\ data s = None /\ isValid s = false.
Proof.
  intros self sliceval bounds s H.
  apply VariableSlice_getSlice_empty in H. subst s.
  split; [reflexivity |]. split; [reflexivity | apply isValid_newSlice].
Qed.

Lemma VariableSlice_getSlice_never_returns_data_witness :
  exists self s,
    VariableReduceDimension_init temp "time" "" "" = Ok self
    /\ VariableSlice_getSlice self 0 [] = Ok s
    /\ data s = None.
Proof.
  exists {| sourcevar := temp; name := "temp"; longname := "temp";
            dimension := "time"; idimension := 0 |}, (newSlice []).
  split; [reflexivity |]. split; [reflexivity |].
  apply (VariableSlice_getSlice_never_returns_data
           {| sourcevar := temp; name := "temp"; longname := "temp";
              dimension := "time"; idimension := 0 |} 0 [] (newSlice []) eq_refl).
Defined.

Lemma searchsorted_zero (c : list Q) (v : Q) :
  searchsorted c v = 0 <-> match c with [] => True | c0 :: _ => (v <= c0)%Q end.
Proof.
  destruct c as [| c0 r]; cbn [searchsorted]; [tauto |].
  destruct (Qltb c0 v) eqn:E.
  - apply Qltb_true in E. split; [discriminate | intros H; exfalso; lra].
  - apply Qltb_false in E. tauto.
Qed.

Lemma searchsorted_le (c : list Q) (v : Q) : searchsorted c v <= length c.
Proof.
  induction c as [| x r IH]; cbn [searchsorted length]; [lia |].
  destruct (Qltb x v); lia.
Qed.

Lemma searchsorted_all (c : list Q) (v : Q) :
  length c <= searchsorted c v <-> Forall (fun x => (x < v)%Q) c.
Proof.
  induction c as [| x r IH]; cbn [searchsorted length].
  - split; [constructor | lia].
  - destruct (Qltb x v) eqn:E.
    + apply Qltb_true in E. split.
      * intros H. constructor; [exact E | apply IH; lia].
      * intros H. apply Forall_cons_iff in H. destruct H as [_ H]. apply IH in H. lia.
    + apply Qltb_false in E. split; [lia |].
      intros H. apply Forall_cons_iff in H. destruct H as [H _]. exfalso. lra.
Qed.

Lemma ascending_below_last (c : list Q) (v : Q) :
  ascending c -> c <> [] -> (last c 0 < v)%Q -> Forall (fun x => (x < v)%Q) c.
Proof.
  induction c as [| x r IH]; [congruence |].
  intros Hasc _ Hlast. destruct r as [| y r'].
  - cbn [last] in Hlast. repeat constructor. exact Hlast.
  - destruct Hasc as [Hxy Hasc].
    assert (Hr : Forall (fun x => (x < v)%Q) (y :: r')).
    { apply IH; [exact Hasc | discriminate | exact Hlast]. }
    constructor; [| exact Hr].
    apply Forall_cons_iff in Hr. destruct Hr as [Hy _]. lra.
Qed.

Lemma last_In (c : list Q) : c <> [] -> In (last c 0%Q) c.
Proof.
  induction c as [| x r IH]; [congruence |].
  intros _. destruct r as [| y r']; [now left |].
  right. apply IH. discriminate.
Qed.

(** X4: on a source slice whose coordinates along the sliced dimension are
    a vector [c] in ascending order, [VariableSlice.getSlice] returns the
    empty slice when [c] is empty, when the slice coordinate is at or below
    the first coordinate, and when it is above the last one; for every other
    slice coordinate (above the first coordinate and at most the last one,
    the last coordinate itself included) it raises [NameError] on the
    undefined name [dims]. *)
Theorem VariableSlice_getSlice_by_coordinate :
  forall (self : VariableReduceDimension) (sliceval : Q) (bounds : list bound)
         (sourceslice : Slice) (c : list Q),
    getSlice (sourcevar self)
             (list_insert bounds (idimension self) (Some sliceval, Some sliceval))
    = Ok sourceslice ->
    nth_error (coords sourceslice) (idimension self) = Some (Some (vector c)) ->
    ascending c ->
    ((c = [] \/ (sliceval <= hd 0 c)%Q \/ (last c 0 < sliceval)%Q) ->
     VariableSlice_getSlice self sliceval bounds = Ok (newSlice (Reduce_getDimensions self)))
    /\ (c <> [] -> (hd 0 c < sliceval)%Q -> (sliceval <= last c 0)%Q ->
        VariableSlice_getSlice self sliceval bounds = Raise (NameError "dims")).
Proof.
  intros self sliceval bounds sourceslice c Hget Hc Hasc.
  assert (Hrun : VariableSlice_getSlice self sliceval bounds
                 = if (searchsorted c sliceval =? 0) || (length c <=? searchsorted c sliceval)
                   then Ok (newSlice (Reduce_getDimensions self))
                   else Raise (NameError "dims")).
  { unfold VariableSlice_getSlice. rewrite Hget. cbn [bind bound_method_truth negb].
    unfold list_item at 1. rewrite Hc. cbn [bind attr_of vector shape flat length Nat.eqb assert].
    cbn [list_item nth_error bind].
    destruct ((searchsorted c sliceval =? 0) || (length c <=? searchsorted c sliceval)) eqn:E;
      [reflexivity |].
    apply orb_false_elim in E. destruct E as [E0 En].
    apply Nat.eqb_neq in E0. apply Nat.leb_gt in En.
    unfold list_item.
    destruct (nth_error c (searchsorted c sliceval - 1)) eqn:E1;
      [| apply nth_error_None in E1; lia].
    destruct (nth_error c (searchsorted c sliceval)) eqn:E2;
      [| apply nth_error_None in E2; lia].
    reflexivity. }
  rewrite Hrun. split.
  - intros [H | [H | H]].
    + subst c. reflexivity.
    + assert (H0 : searchsorted c sliceval = 0).
      { apply searchsorted_zero. destruct c as [| c0 r]; [exact I | exact H]. }
      rewrite H0. reflexivity.
    + destruct c as [| c0 r]; [reflexivity |].
      assert (Hall : Forall (fun x => (x < sliceval)%Q) (c0 :: r)).
      { apply ascending_below_last; [exact Hasc | discriminate | exact H]. }
      apply searchsorted_all in Hall. apply Nat.leb_le in Hall. rewrite Hall.
      now rewrite orb_true_r.
  - intros Hne Hfirst Hlast. destruct c as [| c0 r]; [congruence |].
    cbn [hd] in Hfirst.
    destruct (searchsorted (c0 :: r) sliceval =? 0) eqn:E0.
    + apply Nat.eqb_eq in E0. apply searchsorted_zero in E0. exfalso. lra.
    + destruct (length (c0 :: r) <=? searchsorted (c0 :: r) sliceval) eqn:En; [| reflexivity].
      apply Nat.leb_le in En. apply searchsorted_all in En.
      rewrite Forall_forall in En. specialize (En _ (last_In (c0 :: r) Hne)).
      exfalso. lra.
Qed.

Lemma VariableSlice_getSlice_by_coordinate_witness :
  exists self,
    VariableReduceDimension_init temp "time" "" "" = Ok self
    /\ VariableSlice_getSlice self 3 [] = Ok (newSlice [])
    /\ VariableSlice_getSlice self 2 [] = Raise (NameError "dims").
Proof.
  eexists. split; [reflexivity |].
  assert (Hasc : ascending [0; 1; 2]%Q) by (cbn [ascending]; repeat split; discriminate).
  destruct (VariableSlice_getSlice_by_coordinate
              {| sourcevar := temp; name := "temp"; longname := "temp";
                 dimension := "time"; idimension := 0 |}
              3 [] temp_slice [0; 1; 2]%Q eq_refl eq_refl Hasc) as [Hout _].
  destruct (VariableSlice_getSlice_by_coordinate
              {| sourcevar := temp; name := "temp"; longname := "temp";
                 dimension := "time"; idimension := 0 |}
              2 [] temp_slice [0; 1; 2]%Q eq_refl eq_refl Hasc) as [_ Hin].
  split.
  - apply Hout. right. right. reflexivity.
  - apply Hin; [discriminate | reflexivity | discriminate].
Defined.

(** ** VariableAverage.getSlice: shape of what it returns *)

Lemma average_coords_step_dimensions (axis : nat) (sourceslice slice slice' : Slice)
    (idim : nat) :
  average_coords_step axis sourceslice slice idim = Ok slice' ->
  dimensions slice' = dimensions slice /\ ndim slice' = ndim slice.
Proof.
  unfold average_coords_step. intros H.
  destruct (idim =? axis); [injection H as <-; auto |].
  repeat inv_bind H. injection H as <-. auto.
Qed.

Lemma average_coords_loop_dimensions (axis : nat) (sourceslice : Slice) (todo : list nat) :
  forall slice slice',
    foldM (average_coords_step axis sourceslice) todo slice = Ok slice' ->
    dimensions slice' = dimensions slice /\ ndim slice' = ndim slice.
Proof.
  induction todo as [| idim todo IH]; intros slice slice' H; cbn [foldM] in H.
  - injection H as <-. auto.
  - inv_bind H. apply average_coords_step_dimensions in Ha. apply IH in H.
    destruct Ha, H. split; congruence.
Qed.

(** What every run of [VariableAverage.getSlice] that returns has done: the
    source slice was invalid and the result is [Slice()], or the result is
    the slice built over the reduced dimension list with its data set. *)
Lemma VariableAverage_getSlice_returns (sqrt : Q -> Q) (self : VariableAverage)
    (bounds : list bound) (slice : Slice) :
  VariableAverage_getSlice sqrt self bounds = Ok slice ->
  slice = newSlice []
  \/ (dimensions slice = Reduce_getDimensions (avg_base self)
      /\ ndim slice = length (Reduce_getDimensions (avg_base self))
      /\ exists center, data slice = Some center
         /\ ((boundsmeasure self =? 0)%Z = true ->
             exists var,
               map2 Qminus center (np_sqrt sqrt var) = Ok (match lbound slice with
                                                        | Some lb => lb | None => center end)
               /\ map2 Qplus center (np_sqrt sqrt var) = Ok (match ubound slice with
                                                        | Some ub => ub | None => center end)
               /\ is_some (lbound slice) = true /\ is_some (ubound slice) = true)).
Proof.
  unfold VariableAverage_getSlice. intros H.
  inv_bind H. destruct (isValid a); cbn [negb] in H; [| injection H as <-; now left].
  right. inv_bind H. apply average_coords_loop_dimensions in Ha0.
  cbn [newSlice dimensions ndim] in Ha0. destruct Ha0 as [Hd Hn].
  inv_bind H. inv_bind H. inv_bind H. inv_bind H. inv_bind H. cbv zeta in H.
  destruct (boundsmeasure self =? 0)%Z.
  - repeat inv_bind H. injection H as <-.
    cbn [set_bounds set_data dimensions ndim data lbound ubound is_some].
    split; [exact Hd |]. split; [exact Hn |].
    eexists. split; [reflexivity |]. intros _. eexists. repeat split; eassumption.
  - destruct (boundsmeasure self =? 1)%Z; [| discriminate].
    repeat inv_bind H. injection H as <-.
    cbn [set_bounds set_data dimensions ndim data lbound ubound].
    split; [exact Hd |]. split; [exact Hn |].
    eexists. split; [reflexivity |]. discriminate.
Qed.

(** X5: the average of a variable over its only dimension is never a valid
    slice, whatever the measures: it has no dimension left, and [isValid]
    asks for at least one. *)
Theorem VariableAverage_getSlice_single_dimension_invalid :
  forall (sqrt : Q -> Q) (self : VariableAverage) (bounds : list bound) (slice : Slice),
    getDimensions (sourcevar (avg_base self)) = [dimension (avg_base self)] ->
    VariableAverage_getSlice sqrt self bounds = Ok slice ->
    ndim slice = 0 /\ isValid slice = false.
Proof.
  intros sqrt self bounds slice Hdims H.
  apply VariableAverage_getSlice_returns in H. destruct H as [-> | (_ & Hn & _)].
  - split; [reflexivity | apply isValid_newSlice].
  - assert (E : ndim slice = 0).
    { rewrite Hn. unfold Reduce_getDimensions. rewrite Hdims. cbn [filter].
      rewrite String.eqb_refl. reflexivity. }
    split; [exact E |]. unfold isValid. rewrite E. reflexivity.
Qed.

Lemma VariableAverage_getSlice_single_dimension_invalid_witness :
  exists slice,
    VariableAverage_getSlice sqrt_3dp temp_average [] = Ok slice
    /\ is_some (data slice) = true
    /\ isValid slice = false.
Proof.
  destruct (VariableAverage_getSlice sqrt_3dp temp_average []) as [slice | e] eqn:E;
    [| vm_compute in E; discriminate].
  exists slice. split; [reflexivity |]. split.
  - vm_compute in E. injection E as <-. reflexivity.
  - apply (VariableAverage_getSlice_single_dimension_invalid sqrt_3dp temp_average [] slice
             eq_refl E).
Defined.

Lemma nth_zip_short {A : Type} (d : A) (f : A -> A -> A) (l1 l2 : list A) (k : nat) :
  k < length l1 -> k < length l2 ->
  nth k (map (fun p => f (fst p) (snd p)) (combine l1 l2)) d = f (nth k l1 d) (nth k l2 d).
Proof.
  revert l2 k; induction l1 as [| x r IH]; intros [| y r2] k H1 H2; simpl in *; try lia.
  destruct k as [| k]; [reflexivity |]. apply IH; lia.
Qed.

Lemma map2_Ok {A : Type} (f : A -> A -> A) (a b c : ndarray A) :
  map2 f a b = Ok c ->
  shape a = shape b
  /\ c = mkarray (shape a) (map (fun p => f (fst p) (snd p)) (combine (flat a) (flat b))).
Proof.
  unfold map2. destruct (list_eq_dec Nat.eq_dec (shape a) (shape b)); [| discriminate].
  intros H. injection H as <-. auto.
Qed.

(** X6: with the standard deviation as bounds measure, the bounds of a
    returned slice lie at the same distance below and above its data, for
    the mean and for the median as centre alike; they enclose the data as
    soon as the square root returns no negative number. *)
Theorem VariableAverage_getSlice_bounds_around_centre :
  forall (sqrt : Q -> Q) (self : VariableAverage) (bounds : list bound) (slice : Slice),
    boundsmeasure self = 0%Z ->
    VariableAverage_getSlice sqrt self bounds = Ok slice ->
    slice = newSlice []
    \/ exists c lb ub,
         data slice = Some c /\ lbound slice = Some lb /\ ubound slice = Some ub
         /\ shape lb = shape c /\ shape ub = shape c
         /\ length (flat lb) = length (flat ub)
         /\ forall k, k < length (flat lb) ->
              (nth k (flat c) 0 - nth k (flat lb) 0
               == nth k (flat ub) 0 - nth k (flat c) 0)%Q
              /\ ((forall x, 0 <= sqrt x)%Q ->
                  (nth k (flat lb) 0 <= nth k (flat c) 0)%Q
                  /\ (nth k (flat c) 0 <= nth k (flat ub) 0)%Q).
Proof.
  intros sqrt self bounds slice Hbm H.
  apply VariableAverage_getSlice_returns in H. destruct H as [-> | (_ & _ & c & Hc & Hb)];
    [now left | right].
  rewrite Hbm in Hb. destruct (Hb eq_refl) as (var & Hlb & Hub & Hsl & Hsu).
  destruct (lbound slice) as [lb |]; [| discriminate].
  destruct (ubound slice) as [ub |]; [| discriminate].
  apply map2_Ok in Hlb. destruct Hlb as [Hs ->].
  apply map2_Ok in Hub. destruct Hub as [_ ->].
  clear Hb Hsl Hsu.
  exists c. do 2 eexists. split; [exact Hc |]. split; [reflexivity |]. split; [reflexivity |].
  cbn [shape flat]. split; [reflexivity |]. split; [reflexivity |].
  split; [now rewrite !length_map |].
  intros k Hk. rewrite length_map, length_combine in Hk.
  rewrite !(nth_zip_short 0%Q) by lia.
  unfold np_sqrt, map1 in *. cbn [flat] in *. rewrite length_map in Hk.
  rewrite (nth_indep (map (fun x => sqrt (Qred x)) (flat var)) 0%Q (sqrt (Qred 0)))
    by (rewrite length_map; lia).
  rewrite (map_nth (fun x => sqrt (Qred x))).
  split; [ring |].
  intros Hpos. specialize (Hpos (Qred (nth k (flat var) 0%Q))). split; lra.
Qed.

Lemma VariableAverage_getSlice_bounds_around_centre_witness :
  exists slice lb ub,
    VariableAverage_getSlice sqrt_3dp skewed_median [] = Ok slice
    /\ lbound slice = Some lb /\ ubound slice = Some ub
    /\ ((27 # 2) - nth 0 (flat lb) 0 == nth 0 (flat ub) 0 - (27 # 2))%Q.
Proof.
  destruct (VariableAverage_getSlice sqrt_3dp skewed_median []) as [slice | e] eqn:E;
    [| vm_compute in E; discriminate].
  destruct (VariableAverage_getSlice_bounds_around_centre sqrt_3dp skewed_median [] slice
              eq_refl E) as [-> | (c & lb & ub & Hc & Hlb & Hub & _ & _ & _ & Hat)];
    [vm_compute in E; discriminate |].
  exists slice, lb, ub. split; [reflexivity |]. split; [exact Hlb |]. split; [exact Hub |].
  assert (Hk : 0 < length (flat lb)).
  { vm_compute in E. injection E as <-. injection Hlb as <-. cbn. lia. }
  destruct (Hat 0 Hk) as [Hsym _].
  assert (Hc0 : (nth 0 (flat c) 0 == 27 # 2)%Q).
  { vm_compute in E. injection E as <-. injection Hc as <-. vm_compute. reflexivity. }
  rewrite <- Hc0. exact Hsym.
Defined.

(** ** VariableFlat.__init__: where the absorbing dimension ends up *)

Lemma nth_error_without (l : list string) (i t : nat) :
  i < length l -> t <> i ->
  nth_error (firstn i l ++ skipn (S i) l) (if i <? t then t - 1 else t) = nth_error l t.
Proof.
  intros Hi Hne.
  assert (Hf : length (firstn i l) = i) by (rewrite length_firstn; lia).
  destruct (i <? t) eqn:E.
  - apply Nat.ltb_lt in E.
    rewrite nth_error_app2 by lia. rewrite Hf, nth_error_skipn. f_equal. lia.
  - apply Nat.ltb_ge in E.
    rewrite nth_error_app1 by lia. rewrite nth_error_firstn.
    assert (Hlt : (t <? i) = true) by (apply Nat.ltb_lt; lia). now rewrite Hlt.
Qed.

(** X7: for a variable with distinct dimension names and an absorbing
    dimension other than the flattened one, [inewtargetdim] is the position
    of the absorbing dimension in the dimension list of the transform, as
    [itargetdim] is its position in the dimension list of the source. *)
Theorem VariableFlat_init_target_position :
  forall (variable : PlotVariable) (dimname target : string) (self : VariableFlat),
    VariableFlat_init variable dimname target = Ok self ->
    NoDup (getDimensions variable) ->
    target <> dimname ->
    nth_error (getDimensions variable) (itargetdim self) = Some target
    /\ nth_error (Reduce_getDimensions (flat_base self)) (inewtargetdim self) = Some target.
Proof.
  intros variable dimname target self Hinit Hnd Hne.
  unfold VariableFlat_init in Hinit.
  inv_bind Hinit. inv_bind Hinit. rename a0 into base, Ha0 into Hbase.
  destruct (index_of target (getDimensions variable)) as [t |] eqn:Et; [| discriminate].
  injection Hinit as <-. cbn [itargetdim inewtargetdim flat_base].
  destruct (index_of_Some _ _ _ Et) as [Ht _].
  destruct (VariableReduceDimension_getDimensions_drops_one_aux variable dimname _ _ base
              Hbase Hnd) as (Hi & Hdims & Hlt).
  split; [exact Ht |].
  rewrite Hdims, <- Ht. apply nth_error_without; [exact Hlt |].
  intros ->. rewrite Hi in Ht. congruence.
Qed.

Lemma VariableFlat_init_target_position_witness :
  exists self,
    VariableFlat_init cube "a" "c" = Ok self
    /\ inewtargetdim self = 1
    /\ nth_error (Reduce_getDimensions (flat_base self)) (inewtargetdim self) = Some "c".
Proof.
  eexists. split; [reflexivity |]. split; [reflexivity |].
  eapply (VariableFlat_init_target_position cube "a" "c" _ eq_refl).
  - repeat constructor; simpl; intuition discriminate.
  - discriminate.
Defined.

(** ** getTimeTickSettings: the defaults it stores and the settings it honours *)

Lemma unitlengths_Ok (location : Z) (u : Q) :
  unitlengths location = Ok u ->
  (location = 0%Z /\ u = 365%Q) \/ (location = 1%Z /\ u = (61 # 2)%Q)
  \/ (location = 2%Z /\ u = 1%Q) \/ (location = 3%Z /\ u = (1 # 24)%Q)
  \/ (location = 4%Z /\ u = (1 # 1440)%Q).
Proof.
  destruct location as [| p | p]; simpl; try discriminate;
    repeat match goal with
           | q : positive |- _ => destruct q; simpl; try discriminate
           end;
    intros H; injection H as <-; tauto.
Qed.

Lemma Qdiv_lt_num (a b c : Q) : (0 < b)%Q -> (a < c * b)%Q -> (a / b < c)%Q.
Proof. intros Hb H. apply Qlt_shift_div_r; assumption. Qed.

Lemma Qdiv_ge_num (a b c : Q) : (0 < b)%Q -> (c * b <= a)%Q -> (c <= a / b)%Q.
Proof. intros Hb H. apply Qle_shift_div_l; assumption. Qed.

(** X8: whatever is forced, the unit that [getTimeTickSettings] stores as
    default is the coarsest of years, months, days and hours of which the
    span holds at least two, and minutes when it holds two of none: every
    coarser unit fits less than twice into the span. *)
Theorem getTimeTickSettings_default_unit :
  forall (dayspan : Q) (settings defsettings : TickSettings) (preferredcount : Q)
         (r : TickResult),
    getTimeTickSettings dayspan settings defsettings preferredcount = Ok r ->
    exists deflocation,
      LocationTime (tick_defaults r) = Some deflocation
      /\ (0 <= deflocation <= 4)%Z
      /\ forall loc u, unitlengths loc = Ok u ->
           ((loc < deflocation)%Z -> (dayspan / u < 2)%Q)
           /\ (loc = deflocation -> deflocation <> 4%Z -> (2 <= dayspan / u)%Q).
Proof.
  intros dayspan settings defsettings preferredcount r H.
  unfold getTimeTickSettings in H.
  destruct (default_location dayspan) as [deflocation defformat] eqn:Edef.
  inv_bind H. inv_bind H. inv_bind H. injection H as <-. cbn [tick_defaults LocationTime].
  exists deflocation. split; [reflexivity |].
  split; [pose proof (default_location_range dayspan) as Hr; now rewrite Edef in Hr |].
  clear Ha Ha0 Ha1.
  intros loc u Hu. unfold default_location in Edef.
  assert (Hb : forall x y, Qle_bool x y = false -> (y < x)%Q).
  { intros x y E. apply Qnot_le_lt. intros Hle. apply Qle_bool_iff in Hle. congruence. }
  apply unitlengths_Ok in Hu.
  destruct (Qle_bool 2 (dayspan / 365)) eqn:E0;
    [apply Qle_bool_iff in E0 | apply Hb in E0;
     destruct (Qle_bool 61 dayspan) eqn:E1;
       [apply Qle_bool_iff in E1 | apply Hb in E1;
        destruct (Qle_bool 2 dayspan) eqn:E2;
          [apply Qle_bool_iff in E2 | apply Hb in E2;
           destruct (Qle_bool 2 (24 * dayspan)) eqn:E3;
             [apply Qle_bool_iff in E3 | apply Hb in E3]]]];
    injection Edef as <- <-;
    (split; [intros Hlt | intros Hloc Hne]);
    destruct Hu as [[Hl Hu] | [[Hl Hu] | [[Hl Hu] | [[Hl Hu] | [Hl Hu]]]]];
    subst loc u; try lia; try lra;
    (first [apply Qdiv_ge_num | apply Qdiv_lt_num]; [reflexivity | lra]).
Qed.

Lemma getTimeTickSettings_default_unit_witness :
  exists r,
    getTimeTickSettings 90 {| LocationTime := Some 4%Z; FormatTime := None; IntervalTime := None |}
      {| LocationTime := None; FormatTime := None; IntervalTime := None |} 8 = Ok r
    /\ LocationTime (tick_defaults r) = Some 1%Z
    /\ (90 / 365 < 2)%Q /\ (2 <= 90 / (61 # 2))%Q.
Proof.
  eexists. split; [reflexivity |].
  destruct (getTimeTickSettings_default_unit 90
              {| LocationTime := Some 4%Z; FormatTime := None; IntervalTime := None |}
              {| LocationTime := None; FormatTime := None; IntervalTime := None |} 8 _ eq_refl)
    as (deflocation & Hdef & _ & Hunits).
  assert (E : deflocation = 1%Z) by (vm_compute in Hdef; congruence).
  subst deflocation. split; [reflexivity |]. split.
  - apply (Hunits 0%Z 365%Q eq_refl). lia.
  - apply (Hunits 1%Z (61 # 2)%Q eq_refl); [reflexivity | discriminate].
Defined.

Lemma Qdiv_le_of_mul (a b c : Q) : (0 < b)%Q -> (a <= c * b)%Q -> (a / b <= c)%Q.
Proof. intros Hb H. apply Qle_shift_div_r; assumption. Qed.

(** X9: when no interval is forced, for a non-negative span and a positive
    preferred count, the interval that [getTimeTickSettings] returns is a
    whole number of units, at least one, and gives at most the preferred
    number of ticks; the returned tick span is that many units. *)
Theorem getTimeTickSettings_default_interval :
  forall (dayspan : Q) (settings defsettings : TickSettings) (preferredcount : Q)
         (r : TickResult),
    (0 <= dayspan)%Q -> (0 < preferredcount)%Q ->
    IntervalTime settings = None ->
    getTimeTickSettings dayspan settings defsettings preferredcount = Ok r ->
    exists (u : Q) (n : Z),
      unitlengths (tick_location r) = Ok u
      /\ tick_interval r = inject_Z n /\ (1 <= n)%Z
      /\ (dayspan / u / tick_interval r <= preferredcount)%Q
      /\ tick_span r = (tick_interval r * u)%Q.
Proof.
  intros dayspan settings defsettings preferredcount r Hspan Hpc Hnone H.
  unfold getTimeTickSettings in H.
  destruct (default_location dayspan) as [deflocation defformat].
  inv_bind H. rename a into u, Ha into Hu.
  inv_bind H. rename a into perinterval, Ha into Hper.
  apply py_div_Ok in Hper. destruct Hper as [_ ->].
  inv_bind H. rename a into ticks, Ha into Hdiv.
  injection H as <-. cbn [tick_location tick_interval tick_span].
  rewrite Hnone in *. cbn [getValue_usedefault] in *.
  exists u.
  pose proof (unitlengths_pos _ _ Hu) as Hupos.
  set (tc := (dayspan / u)%Q) in *.
  assert (Htc : (0 <= tc)%Q).
  { unfold tc. apply Qle_shift_div_l; [exact Hupos | lra]. }
  clearbody tc.
  set (i0 := if Qltb (ceil (tc / preferredcount)) 1 then 1%Q else ceil (tc / preferredcount)) in *.
  assert (Hi0 : exists n0, i0 = inject_Z n0 /\ (1 <= n0)%Z /\ (tc <= preferredcount * i0)%Q).
  { pose proof (ceil_ge (tc / preferredcount)) as Hc.
    apply Qdiv_le_mul in Hc; [| exact Hpc].
    unfold i0. destruct (Qltb (ceil (tc / preferredcount)) 1) eqn:E.
    - apply Qltb_true in E. exists 1%Z. split; [reflexivity |]. split; [lia |].
      assert (Hpc1 : (ceil (tc / preferredcount) * preferredcount <= 1 * preferredcount)%Q).
      { apply Qmult_le_compat_r; lra. }
      lra.
    - apply Qltb_false in E. exists (Qceiling (tc / preferredcount)).
      split; [reflexivity |]. split.
      + rewrite Zle_Qle. exact E.
      + lra. }
  clearbody i0. destruct Hi0 as (n0 & Hn0 & Hn1 & Hbound).
  assert (Hi0pos : (1 <= i0)%Q).
  { rewrite Hn0. change (inject_Z 1 <= inject_Z n0)%Q. now rewrite <- Zle_Qle. }
  apply py_div_Ok in Hdiv. destruct Hdiv as [_ ->].
  destruct (Qltb 100 (tc / i0)) eqn:E.
  - apply Qltb_true in E.
    assert (Hle : (tc / i0 <= preferredcount)%Q).
    { apply Qdiv_le_of_mul; lra. }
    pose proof (ceil_ge (tc / 100)) as Hc.
    assert (Hc' : (tc <= ceil (tc / 100) * 100)%Q) by (apply Qdiv_le_mul; [reflexivity | exact Hc]).
    assert (Htcpos : (100 < tc)%Q).
    { assert (tc / i0 <= tc)%Q.
      { apply Qdiv_le_of_mul; [lra |]. nra. }
      lra. }
    exists (Qceiling (tc / 100)). split; [exact Hu |]. split; [reflexivity |].
    assert (Hc1 : (1 < tc / 100)%Q) by (apply Qlt_shift_div_l; [reflexivity | lra]).
    assert (Hn : (1 <= Qceiling (tc / 100))%Z).
    { rewrite Zle_Qle. fold (ceil (tc / 100)). change (inject_Z 1) with 1%Q. lra. }
    split; [exact Hn |]. split; [| reflexivity].
    apply Qdiv_le_of_mul.
    + fold (ceil (tc / 100)). lra.
    + fold (ceil (tc / 100)).
      assert (Hx : (100 * ceil (tc / 100) <= preferredcount * ceil (tc / 100))%Q).
      { apply Qmult_le_compat_r; lra. }
      lra.
  - exists n0. split; [exact Hu |]. split; [exact Hn0 |]. split; [exact Hn1 |].
    split; [| reflexivity].
    apply Qdiv_le_of_mul; lra.
Qed.

Lemma getTimeTickSettings_default_interval_witness :
  exists r,
    getTimeTickSettings 90 {| LocationTime := Some 2%Z; FormatTime := None; IntervalTime := None |}
      {| LocationTime := None; FormatTime := None; IntervalTime := None |} 8 = Ok r
    /\ (90 / 1 / tick_interval r <= 8)%Q.
Proof.
  eexists. split; [reflexivity |].
  destruct (getTimeTickSettings_default_interval 90
              {| LocationTime := Some 2%Z; FormatTime := None; IntervalTime := None |}
              {| LocationTime := None; FormatTime := None; IntervalTime := None |} 8 _
              ltac:(discriminate) ltac:(reflexivity) eq_refl eq_refl)
    as (u & n & Hu & _ & _ & Hcount & _).
  injection Hu as <-. exact Hcount.
Defined.

(** X10: for a preferred count other than zero, a forced unit, format and
    interval are returned as they are set whenever the unit is one of the
    five known ones, the interval is not zero and it gives at most 100
    ticks; the tick span is the interval in days.  With a preferred count of
    zero and a known unit the call raises [ZeroDivisionError] whatever is
    forced, since the default interval is computed before the forced one is
    read. *)
Theorem getTimeTickSettings_forced_settings_kept :
  forall (dayspan : Q) (settings defsettings : TickSettings) (preferredcount : Q)
         (loc fmt : Z) (i u : Q),
    LocationTime settings = Some loc ->
    FormatTime settings = Some fmt ->
    IntervalTime settings = Some i ->
    unitlengths loc = Ok u ->
    ~ (i == 0)%Q ->
    (dayspan / u / i <= 100)%Q ->
    (~ (preferredcount == 0)%Q ->
     exists r,
       getTimeTickSettings dayspan settings defsettings preferredcount = Ok r
       /\ tick_location r = loc /\ tick_format r = fmt
       /\ tick_interval r = i /\ tick_span r = (i * u)%Q)
    /\ ((preferredcount == 0)%Q ->
        getTimeTickSettings dayspan settings defsettings preferredcount
        = Raise ZeroDivisionError).
Proof.
  intros dayspan settings defsettings preferredcount loc fmt i u Hloc Hfmt Hint Hu Hnz Hcount.
  unfold getTimeTickSettings.
  destruct (default_location dayspan) as [deflocation defformat].
  rewrite Hloc, Hfmt, Hint. cbn [getValue_usedefault]. rewrite Hu. cbn [bind].
  split.
  - intros Hpc. rewrite (py_div_nonzero _ _ Hpc). cbn [bind].
    rewrite (py_div_nonzero _ _ Hnz). cbn [bind].
    apply Qltb_false in Hcount. rewrite Hcount.
    eexists. split; [reflexivity |]. cbn. auto.
  - intros Hpc. unfold py_div at 1. apply Qeq_bool_iff in Hpc. rewrite Hpc. reflexivity.
Qed.

Lemma getTimeTickSettings_forced_settings_kept_witness :
  (exists r,
     getTimeTickSettings 90
       {| LocationTime := Some 2%Z; FormatTime := Some 7%Z; IntervalTime := Some 5%Q |}
       {| LocationTime := None; FormatTime := None; IntervalTime := None |} 8 = Ok r
     /\ tick_interval r = 5%Q /\ tick_span r = (5 * 1)%Q)
  /\ getTimeTickSettings 90
       {| LocationTime := Some 2%Z; FormatTime := Some 7%Z; IntervalTime := Some 5%Q |}
       {| LocationTime := None; FormatTime := None; IntervalTime := None |} 0
     = Raise ZeroDivisionError.
Proof.
  split.
  - destruct (getTimeTickSettings_forced_settings_kept 90
                {| LocationTime := Some 2%Z; FormatTime := Some 7%Z; IntervalTime := Some 5%Q |}
                {| LocationTime := None; FormatTime := None; IntervalTime := None |} 8
                2%Z 7%Z 5%Q 1%Q eq_refl eq_refl eq_refl eq_refl)
      as [Hkept _].
    + discriminate.
    + discriminate.
    + destruct Hkept as (r & Hr & _ & _ & Hi & Hs); [discriminate |].
      exists r. auto.
  - destruct (getTimeTickSettings_forced_settings_kept 90
                {| LocationTime := Some 2%Z; FormatTime := Some 7%Z; IntervalTime := Some 5%Q |}
                {| LocationTime := None; FormatTime := None; IntervalTime := None |} 0
                2%Z 7%Z 5%Q 1%Q eq_refl eq_refl eq_refl eq_refl)
      as [_ Hzero].
    + discriminate.
    + discriminate.
    + apply Hzero. reflexivity.
Defined.

(** X11: [getTimeTickSettings] raises [KeyError] when the forced unit is
    none of the five keys of [unitlengths], before it looks at the interval;
    and with a usable unit it raises [ZeroDivisionError] when the forced
    interval is zero. *)
Theorem getTimeTickSettings_rejected_settings :
  forall (dayspan : Q) (settings defsettings : TickSettings) (preferredcount : Q),
    (forall loc, LocationTime settings = Some loc -> (loc < 0 \/ 4 < loc)%Z ->
       getTimeTickSettings dayspan settings defsettings preferredcount
       = Raise (KeyError "location"))
    /\ (forall i u, IntervalTime settings = Some i -> (i == 0)%Q ->
          unitlengths (getValue_usedefault (LocationTime settings)
                         (fst (default_location dayspan))) = Ok u ->
          getTimeTickSettings dayspan settings defsettings preferredcount
          = Raise ZeroDivisionError).
Proof.
  intros dayspan settings defsettings preferredcount. split.
  - intros loc Hloc Hout.
    unfold getTimeTickSettings.
    destruct (default_location dayspan) as [deflocation defformat].
    rewrite Hloc. cbn [getValue_usedefault].
    assert (Hu : unitlengths loc = Raise (KeyError "location")).
    { destruct loc as [| p | p]; [lia | | reflexivity].
      do 3 (destruct p as [p | p |]; try reflexivity; try lia). }
    rewrite Hu. reflexivity.
  - intros i u Hint Hi Hu.
    unfold getTimeTickSettings.
    destruct (default_location dayspan) as [deflocation defformat]. cbn [fst] in Hu.
    rewrite Hu. cbn [bind]. rewrite Hint. cbn [getValue_usedefault].
    unfold py_div at 1. destruct (Qeq_bool preferredcount 0); [reflexivity |].
    cbn [bind]. unfold py_div.
    apply Qeq_bool_iff in Hi. rewrite Hi. reflexivity.
Qed.

Lemma getTimeTickSettings_rejected_settings_witness :
  getTimeTickSettings 90
    {| LocationTime := Some 5%Z; FormatTime := None; IntervalTime := Some 0%Q |}
    {| LocationTime := None; FormatTime := None; IntervalTime := None |} 8
  = Raise (KeyError "location")
  /\ getTimeTickSettings 90
       {| LocationTime := Some 2%Z; FormatTime := None; IntervalTime := Some 0%Q |}
       {| LocationTime := None; FormatTime := None; IntervalTime := None |} 8
     = Raise ZeroDivisionError.
Proof.
  split.
  - apply (getTimeTickSettings_rejected_settings 90
             {| LocationTime := Some 5%Z; FormatTime := None; IntervalTime := Some 0%Q |}
             {| LocationTime := None; FormatTime := None; IntervalTime := None |} 8)
      with (loc := 5%Z); [reflexivity | lia].
  - apply (getTimeTickSettings_rejected_settings 90
             {| LocationTime := Some 2%Z; FormatTime := None; IntervalTime := Some 0%Q |}
             {| LocationTime := None; FormatTime := None; IntervalTime := None |} 8)
      with (i := 0%Q) (u := 1%Q); reflexivity.
Defined.

(** X12: the unit and the interval that [getTimeTickSettings] returns are
    always accepted by [getTimeLocator]: its assertion on the tick location
    cannot fail on them. *)
Theorem getTimeLocator_accepts_tick_settings :
  forall (dayspan : Q) (settings defsettings : TickSettings) (preferredcount : Q)
         (r : TickResult),
    getTimeTickSettings dayspan settings defsettings preferredcount = Ok r ->
    exists l, getTimeLocator (tick_location r) (tick_interval r) = Ok l.
Proof.
  intros dayspan settings defsettings preferredcount r H.
  unfold getTimeTickSettings in H.
  destruct (default_location dayspan) as [deflocation defformat].
  inv_bind H. rename a into u, Ha into Hu. inv_bind H. inv_bind H. injection H as <-.
  cbn [tick_location tick_interval].
  apply unitlengths_Ok in Hu.
  destruct Hu as [[-> _] | [[-> _] | [[-> _] | [[-> _] | [-> _]]]]]; eexists; reflexivity.
Qed.

Lemma getTimeLocator_accepts_tick_settings_witness :
  exists r,
    getTimeTickSettings 1000
      {| LocationTime := None; FormatTime := None; IntervalTime := None |}
      {| LocationTime := None; FormatTime := None; IntervalTime := None |} 8 = Ok r
    /\ exists l, getTimeLocator (tick_location r) (tick_interval r) = Ok l.
Proof.
  eexists. split; [reflexivity |].
  apply (getTimeLocator_accepts_tick_settings 1000
           {| LocationTime := None; FormatTime := None; IntervalTime := None |}
           {| LocationTime := None; FormatTime := None; IntervalTime := None |} 8 _ eq_refl).
Defined.

(** ** VariableStore.getVariableLongNames of the base class *)

Lemma dict_get_set (d : list (string * string)) (k v k' : string) :
  dict_get (dict_set d k v) k' = if (k =? k')%string then Some v else dict_get d k'.
Proof.
  induction d as [| [k0 v0] r IH]; cbn [dict_set dict_get].
  - destruct (k =? k')%string; reflexivity.
  - destruct (String.eqb_spec k0 k) as [-> | N]; cbn [dict_get].
    + destruct (k =? k')%string; reflexivity.
    + rewrite IH. destruct (String.eqb_spec k k') as [E | N'].
      * subst k'. apply String.eqb_neq in N. now rewrite N.
      * destruct (k0 =? k')%string; reflexivity.
Qed.

Lemma dict_set_keys (d : list (string * string)) (k v : string) :
  NoDup (map fst d) ->
  NoDup (map fst (dict_set d k v))
  /\ forall x, In x (map fst (dict_set d k v)) <-> x = k \/ In x (map fst d).
Proof.
  induction d as [| [k0 v0] r IH]; cbn [dict_set map fst]; intros Hnd.
  - split; [repeat constructor; intros [] |]. intros x. cbn. intuition.
  - apply NoDup_cons_iff in Hnd. destruct Hnd as [Hk0 Hr].
    destruct (String.eqb_spec k0 k) as [-> | N]; cbn [map fst].
    + split; [constructor; assumption |]. intros x. cbn. intuition.
    + destruct (IH Hr) as [Hnd' Hin']. split.
      * constructor; [| exact Hnd']. rewrite Hin'. intros [E | Hin]; [congruence | contradiction].
      * intros x. cbn [In]. rewrite Hin'. intuition.
Qed.

Lemma dict_fold_get (f : string -> string) (names : list string) :
  forall acc k,
    dict_get (fold_left (fun d p => dict_set d (fst p) (snd p))
                        (map (fun n => (n, f n)) names) acc) k
    = if mem k names then Some (f k) else dict_get acc k.
Proof.
  induction names as [| n r IH]; intros acc k; cbn [map fold_left]; [reflexivity |].
  rewrite IH. cbn [fst snd]. rewrite dict_get_set. unfold mem. cbn [existsb].
  fold (mem k r). destruct (mem k r); [now rewrite orb_true_r |].
  rewrite orb_false_r. destruct (String.eqb_spec n k) as [-> | N]; reflexivity.
Qed.

Lemma dict_fold_keys (pairs : list (string * string)) :
  forall acc, NoDup (map fst acc) ->
    NoDup (map fst (fold_left (fun d p => dict_set d (fst p) (snd p)) pairs acc)).
Proof.
  induction pairs as [| p r IH]; intros acc Hnd; cbn [fold_left]; [exact Hnd |].
  apply IH. now apply dict_set_keys.
Qed.

Lemma mem_In (x : string) (l : list string) : mem x l = true <-> In x l.
Proof.
  unfold mem. rewrite existsb_exists. split.
  - intros (y & Hin & E). apply String.eqb_eq in E. now subst.
  - intros H. exists x. split; [exact H | apply String.eqb_refl].
Qed.

Lemma mapM_longnames (lookup : string -> option PlotVariable) (self : VariableStore)
    (names : list string) :
  (forall n, store_getVariable self n = Ok (lookup n)) ->
  mapM (fun name => var <- store_getVariable self name ;;
                    v <- attr_of var "getLongName" ;; Ok (name, getLongName v)) names
  = if forallb (fun n => is_some (lookup n)) names
    then Ok (map (fun n => (n, match lookup n with
                               | Some v => getLongName v
                               | None => ""
                               end)) names)
    else Raise (AttributeError "getLongName").
Proof.
  intros Hget. induction names as [| n r IH]; cbn [mapM forallb map]; [reflexivity |].
  rewrite Hget. cbn [bind]. destruct (lookup n) as [v |]; cbn [attr_of bind is_some andb];
    [| reflexivity].
  rewrite IH. destruct (forallb (fun n0 => is_some (lookup n0)) r); reflexivity.
Qed.

(** X13: for a store that inherits [getVariableLongNames] from
    [VariableStore] and whose listed names all resolve to variables, the
    method returns a dictionary whose keys are distinct, that maps every
    listed name to the long name of its variable and holds no other key;
    when a listed name resolves to no variable it raises
    [AttributeError], since [None] has no [getLongName]. *)
Theorem base_getVariableLongNames_maps_names :
  forall (names : list string) (lookup : string -> option PlotVariable)
         (diminfo : string -> DimensionInfo),
    ((forall n, In n names -> lookup n <> None) ->
     exists items,
       store_getVariableLongNames (Plain names lookup diminfo) = Ok (PyDict items)
       /\ NoDup (map fst items)
       /\ (forall n v, In n names -> lookup n = Some v ->
             py_getitem (PyDict items) n = Ok (getLongName v))
       /\ (forall n, ~ In n names -> py_contains (PyDict items) n = false))
    /\ ((exists n, In n names /\ lookup n = None) ->
        store_getVariableLongNames (Plain names lookup diminfo)
        = Raise (AttributeError "getLongName")).
Proof.
  intros names lookup diminfo.
  assert (Hrun : store_getVariableLongNames (Plain names lookup diminfo)
                 = if forallb (fun n => is_some (lookup n)) names
                   then Ok (PyDict (dict (map (fun n => (n, match lookup n with
                                                           | Some v => getLongName v
                                                           | None => ""
                                                           end)) names)))
                   else Raise (AttributeError "getLongName")).
  { cbn [store_getVariableLongNames]. unfold base_getVariableLongNames.
    cbn [store_getVariableNames bind].
    rewrite (mapM_longnames lookup) by reflexivity.
    destruct (forallb (fun n => is_some (lookup n)) names); reflexivity. }
  rewrite Hrun. split.
  - intros Hall.
    assert (E : forallb (fun n => is_some (lookup n)) names = true).
    { apply forallb_forall. intros n Hn. specialize (Hall n Hn).
      destruct (lookup n); [reflexivity | contradiction]. }
    rewrite E. eexists. split; [reflexivity |]. unfold dict.
    split; [apply dict_fold_keys; constructor |]. split.
    + intros n v Hn Hv. cbn [py_getitem]. rewrite dict_fold_get.
      apply mem_In in Hn. rewrite Hn, Hv. reflexivity.
    + intros n Hn. cbn [py_contains]. rewrite dict_fold_get.
      destruct (mem n names) eqn:Em; [apply mem_In in Em; contradiction | reflexivity].
  - intros (n & Hn & Hnone).
    destruct (forallb (fun n0 => is_some (lookup n0)) names) eqn:E; [| reflexivity].
    rewrite forallb_forall in E. specialize (E n Hn). rewrite Hnone in E. discriminate.
Qed.

Lemma base_getVariableLongNames_maps_names_witness :
  exists items,
    store_getVariableLongNames
      (Plain ["temp"; "skewed"]
             (fun n => if (n =? "temp")%string then Some temp else Some skewed)
             base_getDimensionInfo) = Ok (PyDict items)
    /\ py_getitem (PyDict items) "skewed" = Ok "skewed".
Proof.
  destruct (base_getVariableLongNames_maps_names ["temp"; "skewed"]
              (fun n => if (n =? "temp")%string then Some temp else Some skewed)
              base_getDimensionInfo) as [Hok _].
  destruct Hok as (items & Hrun & _ & Hget & _).
  - intros n _. destruct (n =? "temp")%string; discriminate.
  - exists items. split; [exact Hrun |].
    apply (Hget "skewed" skewed); [right; left; reflexivity | reflexivity].
Defined.

(** ** MergedVariableStore.getVariable *)

Lemma Merged_getVariable_collects (stores : list VariableStore)
    (mergedimid mergedimname varname : string) :
  (forall vars,
     Forall2 (fun s v => store_getVariable s varname = Ok (Some v)) stores vars ->
     store_getVariable (Merged stores mergedimid mergedimname) varname
     = (v <- MergedVariable (store_getDimensionInfo (Merged stores mergedimid mergedimname))
               vars mergedimid ;;
        Ok (Some v)))
  /\ (forall before s after vars,
        stores = before ++ s :: after ->
        Forall2 (fun s v => store_getVariable s varname = Ok (Some v)) before vars ->
        store_getVariable s varname = Ok None ->
        store_getVariable (Merged stores mergedimid mergedimname) varname = Ok None).
Proof.
  cbn [store_getVariable].
  match goal with
  | |- context [bind (?c stores) _] => set (collect := c)
  end.
  assert (Hall : forall l vars,
             Forall2 (fun s v => store_getVariable s varname = Ok (Some v)) l vars ->
             collect l = Ok (Some vars)).
  { intros l vars H. induction H as [| s v l vars Hs _ IH]; [reflexivity |].
    cbn [collect]. fold collect. rewrite Hs. cbn [bind]. rewrite IH. reflexivity. }
  assert (Hmiss : forall before s after vars,
             Forall2 (fun s v => store_getVariable s varname = Ok (Some v)) before vars ->
             store_getVariable s varname = Ok None ->
             collect (before ++ s :: after) = Ok None).
  { intros before s after vars H Hs. induction H as [| s' v l vars Hs' _ IH].
    - cbn [app collect]. rewrite Hs. reflexivity.
    - cbn [app collect]. fold collect. rewrite Hs'. cbn [bind]. rewrite IH. reflexivity. }
  split.
  - intros vars H. rewrite (Hall _ _ H). reflexivity.
  - intros before s after vars E H Hs. rewrite E.
    rewrite (Hmiss _ _ _ _ H Hs). reflexivity.
Qed.

(** X14: a merged store with at least one store hands out a merged variable
    exactly when every store has the variable: the merged variable then has
    the name of the first store's variable and its dimensions behind the
    merge dimension; as soon as one store lacks the variable, the stores
    before it having it, the result is [None]. *)
Theorem MergedVariableStore_getVariable_needs_every_store :
  forall (s0 : VariableStore) (rest : list VariableStore) (mergedimid mergedimname : string)
         (varname : string),
    (forall vars,
       Forall2 (fun s v => store_getVariable s varname = Ok (Some v)) (s0 :: rest) vars ->
       exists mv v0,
         store_getVariable (Merged (s0 :: rest) mergedimid mergedimname) varname = Ok (Some mv)
         /\ store_getVariable s0 varname = Ok (Some v0)
         /\ getName mv = getName v0
         /\ getLongName mv = getLongName v0
         /\ getDimensions mv = mergedimid :: getDimensions v0)
    /\ (forall before s after vars,
          s0 :: rest = before ++ s :: after ->
          Forall2 (fun s v => store_getVariable s varname = Ok (Some v)) before vars ->
          store_getVariable s varname = Ok None ->
          store_getVariable (Merged (s0 :: rest) mergedimid mergedimname) varname = Ok None).
Proof.
  intros s0 rest mergedimid mergedimname varname.
  destruct (Merged_getVariable_collects (s0 :: rest) mergedimid mergedimname varname)
    as [Hall Hmiss].
  split.
  - intros vars H. rewrite (Hall _ H).
    inversion H as [| s v stores vars' Hs0 Hrest]; subst.
    unfold MergedVariable. cbn [list_item nth_error bind].
    do 2 eexists. split; [reflexivity |]. split; [exact Hs0 |]. cbn. auto.
  - exact Hmiss.
Qed.

Lemma MergedVariableStore_getVariable_needs_every_store_witness :
  (exists mv,
     store_getVariable
       (Merged [Custom (CustomVariableStore.addVariable CustomVariableStore.init temp);
                Custom (CustomVariableStore.addVariable CustomVariableStore.init temp)]
               "obs" "observation") "temp" = Ok (Some mv)
     /\ getDimensions mv = ["obs"; "time"])
  /\ store_getVariable
       (Merged [Custom (CustomVariableStore.addVariable CustomVariableStore.init temp);
                Custom CustomVariableStore.init]
               "obs" "observation") "temp" = Ok None.
Proof.
  split.
  - destruct (MergedVariableStore_getVariable_needs_every_store
                (Custom (CustomVariableStore.addVariable CustomVariableStore.init temp))
                [Custom (CustomVariableStore.addVariable CustomVariableStore.init temp)]
                "obs" "observation" "temp") as [Hall _].
    destruct (Hall [temp; temp]) as (mv & v0 & Hmv & Hv0 & _ & _ & Hdims).
    + repeat constructor.
    + exists mv. split; [exact Hmv |]. rewrite Hdims.
      injection Hv0 as <-. reflexivity.
  - destruct (MergedVariableStore_getVariable_needs_every_store
                (Custom (CustomVariableStore.addVariable CustomVariableStore.init temp))
                [Custom CustomVariableStore.init]
                "obs" "observation" "temp") as [_ Hmiss].
    apply (Hmiss [Custom (CustomVariableStore.addVariable CustomVariableStore.init temp)]
                 (Custom CustomVariableStore.init) [] [temp]).
    + reflexivity.
    + repeat constructor.
    + reflexivity.
Defined.

(** ** Figure: the registered data sources *)

Lemma assoc_set_lookup {A : Type} (l : list (string * A)) (k k' : string) (v : A) :
  assoc k' (assoc_set l k v) = if (k =? k')%string then Some v else assoc k' l.
Proof.
  induction l as [| [k0 v0] r IH]; cbn [assoc_set assoc].
  - destruct (k =? k')%string; reflexivity.
  - destruct (String.eqb_spec k0 k) as [E | N]; cbn [assoc].
    + subst k0. destruct (k =? k')%string; reflexivity.
    + rewrite IH. destruct (String.eqb_spec k k') as [E | N'].
      * subst k'. apply String.eqb_neq in N. now rewrite N.
      * destruct (k0 =? k')%string; reflexivity.
Qed.

Lemma add_all_sources (added : list (string * VariableStore)) :
  forall f name,
    assoc name (sources (add_all f added))
    = match assoc name (rev added) with
      | Some obj => Some obj
      | None => assoc name (sources f)
      end.
Proof.
  unfold add_all.
  induction added as [| [n o] r IH]; intros f name; cbn [fold_left rev]; [reflexivity |].
  rewrite IH. cbn [fst snd addDataSource sources].
  assert (Happ : forall (l1 l2 : list (string * VariableStore)),
             assoc name (l1 ++ l2) = match assoc name l1 with
                                     | Some x => Some x
                                     | None => assoc name l2
                                     end).
  { intros l1 l2. induction l1 as [| [k v] l1 IH1]; cbn [app assoc]; [reflexivity |].
    destruct (k =? name)%string; [reflexivity | exact IH1]. }
  rewrite Happ. destruct (assoc name (rev r)); [reflexivity |].
  rewrite assoc_set_lookup. cbn [assoc]. destruct (n =? name)%string; reflexivity.
Qed.

Lemma add_all_default (added : list (string * VariableStore)) :
  forall f,
    defaultsource (add_all f added)
    = match defaultsource f with
      | Some s => Some s
      | None => option_map fst (hd_error added)
      end.
Proof.
  unfold add_all.
  induction added as [| [n o] r IH]; intros f; cbn [fold_left hd_error option_map].
  - destruct (defaultsource f); reflexivity.
  - rewrite IH. cbn [addDataSource defaultsource fst].
    destruct (defaultsource f); reflexivity.
Qed.

(** X15: after [clearSources], whatever sources are added in whatever
    order, the default source is the name of the first one added and stays
    so; looking a name up gives the store added last under that name, and
    nothing for a name never added. *)
Theorem addDataSource_first_is_default :
  forall (f : Figure) (added : list (string * VariableStore)),
    let f' := add_all (clearSources f) added in
    defaultsource f' = option_map fst (hd_error added)
    /\ (forall name, assoc name (sources f') = assoc name (rev added))
    /\ forcedseries f' = forcedseries f /\ callbacks f' = callbacks f
    /\ updating f' = updating f /\ dirty f' = dirty f.
Proof.
  intros f added f'. unfold f'.
  split; [now rewrite add_all_default |].
  split.
  - intros name. rewrite add_all_sources. cbn [clearSources sources assoc].
    destruct (assoc name (rev added)); reflexivity.
  - unfold add_all.
    assert (H : forall g, forcedseries (fold_left (fun g p => addDataSource g (fst p) (snd p)) added g)
                          = forcedseries g
                          /\ callbacks (fold_left (fun g p => addDataSource g (fst p) (snd p)) added g)
                             = callbacks g
                          /\ updating (fold_left (fun g p => addDataSource g (fst p) (snd p)) added g)
                             = updating g
                          /\ dirty (fold_left (fun g p => addDataSource g (fst p) (snd p)) added g)
                             = dirty g).
    { induction added as [| p r IH]; intros g; cbn [fold_left]; [auto |].
      destruct (IH (addDataSource g (fst p) (snd p))) as (H1 & H2 & H3 & H4).
      rewrite H1, H2, H3, H4. cbn. auto. }
    destruct (H (clearSources f)) as (H1 & H2 & H3 & H4).
    rewrite H1, H2, H3, H4. cbn. auto.
Qed.

(** ** Figure.update: the loop over the configured series *)

Section SeriesLoop.

Variable series_ranges : Slice -> result unit.
Variable self : Figure.
Variable dim2data : list (string * bound).

Lemma plot_series_drawn (st st' : LoopState) (node : SeriesNode) (label : string)
    (varslice : Slice) :
  plot_series st node label varslice = Ok st' ->
  drawn st st'
  /\ loop_defaults st' = loop_defaults st
  /\ loop_olddefaults st' = loop_olddefaults st.
Proof.
  unfold plot_series. intros H. inv_bind H.
  destruct (ndim varslice) as [| [| [| n]]].
  - injection H as <-. split; [left |]; auto.
  - inv_bind H. inv_bind H. injection H as <-.
    cbn [loop_canvas loop_colorbar loop_defaults loop_olddefaults].
    split; [| auto]. destruct (series_hasline node).
    + right. eexists. split; [reflexivity |]. cbn [needs_colorbar loop_canvas loop_colorbar].
      split; [discriminate | now rewrite orb_false_r].
    + left. auto.
  - cbv zeta in H. inv_bind H. injection H as <-.
    cbn [loop_canvas loop_colorbar loop_defaults loop_olddefaults].
    split; [| auto]. right. eexists. split; [reflexivity |].
    set (pt := getValue_usedefault (series_plottype3d node) 0%Z) in *.
    destruct ((pt =? 1)%Z || (pt =? 2)%Z) eqn:Ec; cbn [needs_colorbar].
    + split; [| reflexivity]. intros Hfill. rewrite Hfill in Ha0.
      apply assert_Ok in Ha0. now apply negb_true_iff in Ha0.
    + split; [| reflexivity]. intros _.
      apply assert_Ok in Ha0. now apply negb_true_iff in Ha0.
  - injection H as <-. split; [left |]; auto.
Qed.

Lemma series_step_state (st st' : LoopState) (node : SeriesNode) :
  series_step series_ranges self dim2data st node = Ok st' ->
  (series_id node = "" /\ st' = st)
  \/ (series_id node <> ""
      /\ loop_defaults st' = set_add (series_id node) (loop_defaults st)
      /\ loop_olddefaults st' = remove_first (series_id node) (loop_olddefaults st)
      /\ drawn st st').
Proof.
  unfold series_step. intros H.
  destruct (String.eqb_spec (series_id node) "") as [E | N]; [left; injection H as <-; auto |].
  right. split; [exact N |].
  destruct (split_first (series_id node)) as [[varsource varname] |]; [| discriminate].
  inv_bind H. inv_bind H. inv_bind H. inv_bind H. cbv zeta in H.
  inv_bind H. destruct a3 as [var dimbounds]. inv_bind H.
  destruct (isValid a3); cbn [negb] in H.
  - inv_bind H. inv_bind H. inv_bind H.
    apply plot_series_drawn in H. cbn [loop_canvas loop_colorbar loop_defaults loop_olddefaults] in H.
    destruct H as (Hd & H1 & H2). split; [exact H1 |]. split; [exact H2 |].
    destruct Hd as [[Hc Hb] | (d & Hc & Hn & Hb)]; [left | right; exists d]; auto.
  - injection H as <-. cbn [loop_canvas loop_colorbar loop_defaults loop_olddefaults].
    split; [reflexivity |]. split; [reflexivity |]. left. auto.
Qed.

(** The number of drawings with a colorbar follows the colorbar flag. *)
Lemma series_loop_colorbar (nodes : list SeriesNode) :
  forall st st',
    foldM (series_step series_ranges self dim2data) nodes st = Ok st' ->
    length (filter needs_colorbar (loop_canvas st)) = (if loop_colorbar st then 1 else 0) ->
    length (filter needs_colorbar (loop_canvas st')) = (if loop_colorbar st' then 1 else 0).
Proof.
  induction nodes as [| node nodes IH]; intros st st' H Hinv; cbn [foldM] in H.
  - now injection H as <-.
  - inv_bind H. apply (IH _ _ H). clear IH H.
    apply series_step_state in Ha.
    destruct Ha as [[_ ->] | (_ & _ & _ & [[Hc Hb] | (d & Hc & Hn & Hb)])];
      [exact Hinv | now rewrite Hc, Hb |].
    rewrite Hc, Hb, filter_app, length_app, Hinv. cbn [filter].
    destruct (needs_colorbar d).
    + rewrite (Hn eq_refl). reflexivity.
    + rewrite orb_false_r. cbn [length]. lia.
Qed.

End SeriesLoop.

(** X16: a rebuild never leaves more than one drawing that carries a
    colorbar (a pseudocolor mesh or a filled contour plot) in the figure:
    an update that would add a second one fails its assertion instead of
    returning. *)
Theorem update_at_most_one_colorbar :
  forall (series_ranges : Slice -> result unit) (decorate : list drawing -> result unit)
         (self self' : Figure),
    updating self = true ->
    update series_ranges decorate self = Ok self' ->
    length (filter needs_colorbar (canvas self')) <= 1.
Proof.
  intros series_ranges decorate self self' Hup H.
  unfold update in H. rewrite Hup in H. cbn [negb] in H. cbv zeta in H.
  inv_bind H. inv_bind H. injection H as <-. cbn [canvas].
  apply series_loop_colorbar in Ha; [| reflexivity].
  rewrite Ha. destruct (loop_colorbar a); lia.
Qed.

Lemma update_at_most_one_colorbar_witness :
  (exists self',
     update quiet_ranges quiet_decorate mesh_figure = Ok self'
     /\ canvas self' = [Mesh "table" (mkarray [2; 3] [1; 2; 3; 4; 5; 6]%Q)]
     /\ length (filter needs_colorbar (canvas self')) <= 1)
  /\ update quiet_ranges quiet_decorate two_mesh_figure
     = Raise (AssertionError
                "Currently only one object that needs a colorbar is supported per figure.").
Proof.
  split; [| reflexivity].
  eexists. split; [reflexivity |]. split; [reflexivity |].
  apply (update_at_most_one_colorbar quiet_ranges quiet_decorate mesh_figure _ eq_refl eq_refl).
Defined.

(** ** Figure.update: the default series nodes *)

Lemma set_add_In (x y : string) (l : list string) : In x (set_add y l) <-> x = y \/ In x l.
Proof.
  unfold set_add. destruct (mem y l) eqn:E.
  - apply mem_In in E. split; [auto | intros [-> | H]; assumption].
  - rewrite in_app_iff. cbn [In]. intuition.
Qed.

Lemma set_add_NoDup (y : string) (l : list string) : NoDup l -> NoDup (set_add y l).
Proof.
  intros H. unfold set_add. destruct (mem y l) eqn:E; [exact H |].
  apply NoDup_app; [exact H | repeat constructor; intros [] |].
  intros x Hx [<- | []]. apply mem_In in Hx. congruence.
Qed.

Lemma remove_first_In (x y : string) (l : list string) :
  NoDup l -> (In x (remove_first y l) <-> x <> y /\ In x l).
Proof.
  induction l as [| z r IH]; intros Hnd; cbn [remove_first In]; [tauto |].
  apply NoDup_cons_iff in Hnd. destruct Hnd as [Hz Hr].
  destruct (String.eqb_spec z y) as [-> | N].
  - split.
    + intros H. split; [intros -> ; contradiction | now right].
    + intros [Hne [E | H]]; [congruence | exact H].
  - cbn [In]. rewrite (IH Hr). split.
    + intros [-> | [Hne H]]; [split; [exact N | now left] | split; [exact Hne | now right]].
    + intros [Hne [E | H]]; [now left | right; auto].
Qed.

Lemma remove_first_NoDup (y : string) (l : list string) : NoDup l -> NoDup (remove_first y l).
Proof.
  induction l as [| z r IH]; intros Hnd; cbn [remove_first]; [constructor |].
  apply NoDup_cons_iff in Hnd. destruct Hnd as [Hz Hr].
  destruct (z =? y)%string; [exact Hr |].
  constructor; [| now apply IH].
  intros H. apply (remove_first_In _ _ _ Hr) in H. tauto.
Qed.

Lemma remove_all_In (olds : list string) :
  forall l x, NoDup l ->
    NoDup (fold_left (fun l oldname => remove_first oldname l) olds l)
    /\ (In x (fold_left (fun l oldname => remove_first oldname l) olds l)
        <-> In x l /\ ~ In x olds).
Proof.
  induction olds as [| o r IH]; intros l x Hnd; cbn [fold_left In]; [tauto |].
  destruct (IH (remove_first o l) x (remove_first_NoDup _ _ Hnd)) as [Hn Hi].
  split; [exact Hn |]. rewrite Hi, (remove_first_In _ _ _ Hnd). intuition.
Qed.

Section DefaultSeries.

Variable series_ranges : Slice -> result unit.
Variable self : Figure.
Variable dim2data : list (string * bound).

(** While the loop runs, the default nodes are the old ones and the ones of
    the series seen so far, and the old defaults still to remove are the
    old ones that no series seen so far has claimed. *)
Lemma series_loop_defaults (nodes : list SeriesNode) :
  forall st st' (seen : list string),
    foldM (series_step series_ranges self dim2data) nodes st = Ok st' ->
    NoDup (loop_defaults st) -> NoDup (loop_olddefaults st) ->
    (forall x, In x (loop_defaults st) <-> In x (defaultseries self) \/ In x seen) ->
    (forall x, In x (loop_olddefaults st) <-> In x (defaultseries self) /\ ~ In x seen) ->
    NoDup (loop_defaults st') /\ NoDup (loop_olddefaults st')
    /\ (forall x, In x (loop_defaults st')
                  <-> In x (defaultseries self) \/ In x seen
                      \/ (x <> "" /\ exists node, In node nodes /\ series_id node = x))
    /\ (forall x, In x (loop_olddefaults st')
                  <-> In x (defaultseries self) /\ ~ In x seen
                      /\ ~ (x <> "" /\ exists node, In node nodes /\ series_id node = x)).
Proof.
  induction nodes as [| node nodes IH]; intros st st' seen H Hd Ho Hdi Hoi; cbn [foldM] in H.
  - injection H as <-. split; [exact Hd |]. split; [exact Ho |]. split.
    + intros x. rewrite Hdi. cbn [In]. split; [tauto |].
      intros [H | [H | [_ (n & [] & _)]]]; tauto.
    + intros x. rewrite Hoi. cbn [In]. split; [| tauto].
      intros [H1 H2]. split; [exact H1 |]. split; [exact H2 |]. intros [_ (n & [] & _)].
  - inv_bind H. apply series_step_state in Ha.
    destruct Ha as [[Eid ->] | (Nid & Hd' & Ho' & _)].
    + destruct (IH _ _ seen H Hd Ho Hdi Hoi) as (N1 & N2 & I1 & I2).
      split; [exact N1 |]. split; [exact N2 |]. split.
      * intros x. rewrite I1. cbn [In]. split.
        -- intros [H1 | [H1 | [Hx (n & Hn & En)]]]; [tauto | tauto |].
           right. right. split; [exact Hx |]. exists n. auto.
        -- intros [H1 | [H1 | [Hx (n & [<- | Hn] & En)]]]; [tauto | tauto | congruence |].
           right. right. split; [exact Hx |]. exists n. auto.
      * intros x. rewrite I2. cbn [In]. split.
        -- intros (H1 & H2 & H3). split; [exact H1 |]. split; [exact H2 |].
           intros [Hx (n & [<- | Hn] & En)]; [congruence |].
           apply H3. split; [exact Hx |]. exists n. auto.
        -- intros (H1 & H2 & H3). split; [exact H1 |]. split; [exact H2 |].
           intros [Hx (n & Hn & En)]. apply H3. split; [exact Hx |]. exists n. auto.
    + assert (Hd2 : NoDup (loop_defaults a)) by (rewrite Hd'; now apply set_add_NoDup).
      assert (Ho2 : NoDup (loop_olddefaults a)) by (rewrite Ho'; now apply remove_first_NoDup).
      destruct (IH _ _ (series_id node :: seen) H Hd2 Ho2) as (N1 & N2 & I1 & I2).
      * intros x. rewrite Hd', set_add_In, Hdi. cbn [In]. intuition.
      * intros x. rewrite Ho', (remove_first_In _ _ _ Ho), Hoi. cbn [In]. intuition.
      * split; [exact N1 |]. split; [exact N2 |]. split.
        -- intros x. rewrite I1. cbn [In]. split.
           ++ intros [H1 | [[H1 | H1] | [Hx (n & Hn & En)]]]; [tauto | | tauto |].
              ** right. right. split; [congruence |]. exists node. auto.
              ** right. right. split; [exact Hx |]. exists n. auto.
           ++ intros [H1 | [H1 | [Hx (n & [<- | Hn] & En)]]]; [tauto | tauto | |].
              ** right. left. left. exact En.
              ** right. right. split; [exact Hx |]. exists n. auto.
        -- intros x. rewrite I2. cbn [In]. split.
           ++ intros (H1 & H2 & H3). split; [exact H1 |]. split; [tauto |].
              intros [Hx (n & [<- | Hn] & En)]; [apply H2; left; exact En |].
              apply H3. split; [exact Hx |]. exists n. auto.
           ++ intros (H1 & H2 & H3). split; [exact H1 |]. split.
              ** intros [E | Hs]; [| tauto]. apply H3. split; [congruence |].
                 exists node. auto.
              ** intros [Hx (n & Hn & En)]. apply H3. split; [exact Hx |]. exists n. auto.
Qed.

End DefaultSeries.

(** X17: after a rebuild, the default tree holds a series node for exactly
    the configured series with a non-empty id, whether they were plotted or
    skipped: the nodes of series that are no longer configured are gone,
    and no id appears twice (given that none did before). *)
Theorem update_default_series_mirror_configured :
  forall (series_ranges : Slice -> result unit) (decorate : list drawing -> result unit)
         (self self' : Figure),
    updating self = true ->
    NoDup (defaultseries self) ->
    update series_ranges decorate self = Ok self' ->
    NoDup (defaultseries self')
    /\ forall x, In x (defaultseries self')
                 <-> x <> "" /\ exists node, In node (forcedseries self) /\ series_id node = x.
Proof.
  intros series_ranges decorate self self' Hup Hnd H.
  unfold update in H. rewrite Hup in H. cbn [negb] in H. cbv zeta in H.
  inv_bind H. inv_bind H. injection H as <-. cbn [defaultseries].
  destruct (series_loop_defaults series_ranges self _ _ _ _ [] Ha) as (N1 & N2 & I1 & I2);
    cbn [loop_defaults loop_olddefaults In]; try assumption; try tauto.
  split.
  - apply (remove_all_In (loop_olddefaults a) (loop_defaults a) "" N1).
  - intros x.
    destruct (remove_all_In (loop_olddefaults a) (loop_defaults a) x N1) as [_ Hx].
    rewrite Hx, I1, I2. cbn [In].
    assert (Hdec : (x <> "" /\ exists node, In node (forcedseries self) /\ series_id node = x)
                   \/ ~ (x <> "" /\ exists node, In node (forcedseries self)
                                                 /\ series_id node = x)).
    { destruct (String.eqb_spec x "") as [E | N]; [right; tauto |].
      destruct (existsb (fun node => (series_id node =? x)%string) (forcedseries self)) eqn:E.
      - apply existsb_exists in E. destruct E as (n & Hn & En).
        apply String.eqb_eq in En. left. split; [exact N |]. exists n. auto.
      - right. intros [_ (n & Hn & En)].
        assert (Ht : existsb (fun node => (series_id node =? x)%string) (forcedseries self)
                     = true).
        { apply existsb_exists. exists n. split; [exact Hn | now apply String.eqb_eq]. }
        congruence. }
    tauto.
Qed.

Lemma update_default_series_mirror_configured_witness :
  exists self',
    update quiet_ranges quiet_decorate mesh_figure = Ok self'
    /\ defaultseries self' = ["s/table"]
    /\ (In "s/old" (defaultseries self') <->
        "s/old" <> "" /\ exists node, In node (forcedseries mesh_figure)
                                      /\ series_id node = "s/old").
Proof.
  eexists. split; [reflexivity |]. split; [reflexivity |].
  apply (update_default_series_mirror_configured quiet_ranges quiet_decorate mesh_figure _
           eq_refl).
  - repeat constructor. intros [].
  - reflexivity.
Defined.

(** ** Slice.generateStaggered *)

Ltac inv_bind_as H a Ha := apply bind_Ok in H; destruct H as [a [Ha H]].

Lemma list_setitem_inv {A : Type} (l l' : list A) (i : nat) (x : A) :
  list_setitem l i x = Ok l' ->
  length l' = length l /\ nth_error l' i = Some x
  /\ forall j, j <> i -> nth_error l' j = nth_error l j.
Proof.
  revert l' i. induction l as [| a l IH]; intros l' i H; cbn [list_setitem] in H.
  - destruct i; discriminate.
  - destruct i as [| i].
    + injection H as <-. cbn. repeat split. intros [| j] Hj; [contradiction | reflexivity].
    + inv_bind H. injection H as <-. destruct (IH _ _ Ha) as (Hl & Hi & Hj).
      cbn [length nth_error]. split; [lia |]. split; [exact Hi |].
      intros [| j] Hne; [reflexivity |]. cbn [nth_error]. apply Hj. lia.
Qed.

Section StaggeredLoop.

Variable self : Slice.

Lemma generateStaggered_loop (todo : list nat) :
  forall stag stag',
    foldM (fun stag idim =>
             c <- list_item (coords self) idim ;;
             assert (is_some c) "Cannot generate staggered coordinates because centered coordinates have not been set." ;;;
             c <- attr_of c "ndim" ;;
             assert (length (shape c) =? 1) "Currently a staggered grid can only be generated automatically for 1D coordinate vectors." ;;;
             s <- getCenters c ;;
             list_setitem stag idim (Some s)) todo stag = Ok stag' ->
    length stag' = length stag
    /\ (forall i, In i todo \/ (exists s, nth_error stag i = Some (Some s)) ->
                  exists s, nth_error stag' i = Some (Some s))
    /\ (forall i, In i todo ->
                  exists c, nth_error (coords self) i = Some (Some c) /\ length (shape c) = 1).
Proof.
  induction todo as [| idim todo IH]; intros stag stag' H; cbn [foldM] in H.
  - injection H as <-. split; [reflexivity |]. split.
    + intros i [[] | H]. exact H.
    + intros i [].
  - inv_bind_as H stag1 Hstep.
    destruct (IH _ _ H) as (Hlen & Hset & Hcoords). clear IH H.
    inv_bind_as Hstep c Hc.
    inv_bind_as Hstep u1 Hset1. apply assert_Ok in Hset1.
    inv_bind_as Hstep c0 Hc0.
    inv_bind_as Hstep u2 Hdim. apply assert_Ok in Hdim. apply Nat.eqb_eq in Hdim.
    inv_bind_as Hstep s0 Hs0.
    apply list_setitem_inv in Hstep. destruct Hstep as (Hl1 & Hi1 & Hj1).
    destruct c as [c |]; [| discriminate]. cbn [attr_of] in Hc0. injection Hc0 as <-.
    unfold list_item in Hc. destruct (nth_error (coords self) idim) as [c' |] eqn:E;
      [| discriminate]. injection Hc as ->.
    split; [congruence |]. split.
    + intros i [[<- | Hin] | (s & Hs)].
      * apply Hset. right. eauto.
      * apply Hset. now left.
      * apply Hset. right. destruct (Nat.eq_dec i idim) as [-> | N]; [eauto |].
        rewrite (Hj1 i N). eauto.
    + intros i [<- | Hin]; [eauto | now apply Hcoords].
Qed.

End StaggeredLoop.

(** X19: [generateStaggered] on a slice that was just created with at
    least one dimension fails its first assertion, since no coordinate is
    set; on any slice on which it returns, every dimension had a
    one-dimensional coordinate vector, the dimensions, data and coordinates
    are what they were, and every dimension has interface coordinates: if
    the data were set, the slice is now valid. *)
Theorem generateStaggered_completes_slice :
  (forall (dim : string) (dims : list string),
     generateStaggered (newSlice (dim :: dims))
     = Raise (AssertionError "Cannot generate staggered coordinates because centered coordinates have not been set."))
  /\ forall (self s' : Slice),
       generateStaggered self = Ok s' ->
       length (coords self) = ndim self ->
       length (coords_stag self) = ndim self ->
       dimensions s' = dimensions self /\ data s' = data self /\ coords s' = coords self
       /\ (forall i, i < ndim self ->
             exists c, nth_error (coords self) i = Some (Some c) /\ length (shape c) = 1)
       /\ length (coords_stag s') = ndim self
       /\ Forall (fun s => s <> None) (coords_stag s')
       /\ (0 < ndim self -> data self <> None -> isValid s' = true).
Proof.
  split; [reflexivity |].
  intros self s' H Hclen Hslen. unfold generateStaggered in H.
  inv_bind H. rename a into stag, Ha into Hloop. injection H as <-.
  cbn [dimensions data coords coords_stag ndim].
  apply generateStaggered_loop in Hloop. destruct Hloop as (Hlen & Hset & Hcoords).
  assert (Hall : Forall (fun s => s <> None) stag).
  { apply Forall_forall. intros s Hin. apply In_nth_error in Hin. destruct Hin as [i Hi].
    assert (Hlt : i < length stag) by (apply nth_error_Some; congruence).
    destruct (Hset i) as (s0 & Hs0); [left; apply in_seq; lia |]. congruence. }
  split; [reflexivity |]. split; [reflexivity |]. split; [reflexivity |].
  split; [intros i Hi; apply Hcoords, in_seq; lia |].
  split; [congruence |]. split; [exact Hall |].
  intros Hn Hdata. unfold isValid. cbn [ndim data coords coords_stag].
  apply Nat.ltb_lt in Hn. rewrite Hn.
  destruct (data self); [| contradiction]. cbn [is_some andb].
  apply andb_true_intro. split.
  - apply forallb_forall. intros c Hin. apply In_nth_error in Hin. destruct Hin as [i Hi].
    assert (Hlt : i < ndim self) by (rewrite <- Hclen; apply nth_error_Some; congruence).
    destruct (Hcoords i) as (c0 & Hc0 & _); [apply in_seq; lia |].
    rewrite Hi in Hc0. injection Hc0 as ->. reflexivity.
  - apply forallb_forall. intros s Hin. rewrite Forall_forall in Hall.
    specialize (Hall s Hin). destruct s; [reflexivity | contradiction].
Qed.

Lemma generateStaggered_completes_slice_witness :
  isValid bare_slice = false
  /\ exists s', generateStaggered bare_slice = Ok s' /\ isValid s' = true.
Proof.
  split; [reflexivity |].
  destruct generateStaggered_completes_slice as [_ H].
  destruct (generateStaggered bare_slice) as [s' | e] eqn:E; [| vm_compute in E; discriminate].
  exists s'. split; [reflexivity |].
  destruct (H bare_slice s' E eq_refl eq_refl) as (_ & _ & _ & _ & _ & _ & Hvalid).
  apply Hvalid; [cbn; lia | discriminate].
Defined.

(** ** Slice.squeeze on slices without an empty dimension *)

Lemma skipn_cons_inv {A : Type} (l : list A) (k : nat) (x : A) (r : list A) :
  skipn k l = x :: r -> nth_error l k = Some x /\ skipn (S k) l = r.
Proof.
  revert k. induction l as [| y l IH]; intros k H.
  - destruct k; discriminate.
  - destruct k as [| k]; cbn [skipn] in H.
    + injection H as -> ->. auto.
    + apply IH in H. exact H.
Qed.

Section SqueezeLoop.

Variable self : Slice.
Variable d : array.
Hypothesis Hd : data self = Some d.

Lemma squeeze_loop (names : list string) :
  forall (k : nat) (sh : list nat) (cs : list (option array))
         (gi : list nat) (gn : list string) (fx : list (string * array)),
    skipn k (shape d) = sh -> length sh = length names ->
    skipn k (coords self) = cs -> length cs = length names ->
    Forall (fun n => 1 <= n) sh ->
    Forall2 (fun n c => n = 1 -> exists c0 m r, c = Some c0 /\ shape c0 = S m :: r) sh cs ->
    exists fixed',
      foldM (squeeze_step self) (combine (seq k (length names)) names) (gi, gn, fx)
      = Ok (gi ++ map fst (filter (fun p => negb (snd p =? 1)) (combine (seq k (length names)) sh)),
            gn ++ map fst (filter (fun p => negb (snd p =? 1)) (combine names sh)),
            fx ++ fixed')
      /\ map fst fixed' = map fst (filter (fun p => snd p =? 1) (combine names sh)).
Proof.
  induction names as [| nm names IH]; intros k sh cs gi gn fx Hsh Hlen Hcs Hclen Hpos Hfix.
  - exists []. cbn. rewrite !app_nil_r. auto.
  - destruct sh as [| n sh]; [discriminate |]. destruct cs as [| c cs]; [discriminate |].
    apply skipn_cons_inv in Hsh. destruct Hsh as [Hn Hsh].
    apply skipn_cons_inv in Hcs. destruct Hcs as [Hc Hcs].
    apply Forall_cons_iff in Hpos. destruct Hpos as [Hn1 Hpos].
    apply Forall2_cons_iff in Hfix. destruct Hfix as [Hc1 Hfix'].
    cbn [length] in Hlen, Hclen.
    cbn [length seq combine foldM]. unfold squeeze_step at 1.
    rewrite Hd. cbn [attr_of bind]. unfold list_item at 1. rewrite Hn. cbn [bind].
    destruct (1 <? n) eqn:E1.
    + apply Nat.ltb_lt in E1.
      destruct (IH (S k) sh cs (gi ++ [k]) (gn ++ [nm]) fx Hsh ltac:(lia) Hcs
                   ltac:(lia) Hpos Hfix') as (fixed' & Hrun & Hnames).
      exists fixed'. cbn [bind]. rewrite Hrun. cbn [filter snd fst map].
      assert (En : (n =? 1) = false) by (apply Nat.eqb_neq; lia).
      rewrite En. cbn [negb map fst]. rewrite <- !app_assoc. cbn [app].
      split; [reflexivity | exact Hnames].
    + apply Nat.ltb_ge in E1. assert (n = 1) by lia. subst n. cbn [Nat.eqb].
      destruct (Hc1 eq_refl) as (c0 & m & r & -> & Hshape).
      unfold list_item. rewrite Hc. cbn [bind]. unfold item0. rewrite Hshape. cbn [bind].
      destruct (IH (S k) sh cs gi gn (fx ++ [(nm, mkarray r (firstn (size r) (flat c0)))])
                   Hsh ltac:(lia) Hcs ltac:(lia) Hpos Hfix') as (fixed' & Hrun & Hnames).
      exists ((nm, mkarray r (firstn (size r) (flat c0))) :: fixed').
      cbn [bind]. rewrite Hrun. cbn [filter snd fst map Nat.eqb negb]. rewrite <- app_assoc. cbn [app].
      split; [reflexivity | now rewrite Hnames].
Qed.

Lemma squeeze_all_ok (cs : list (option array)) (indices : list nat) :
  Forall (fun i => exists c, nth_error cs i = Some (Some c)) indices ->
  exists cs', squeeze_all cs indices = Ok cs' /\ length cs' = length indices
              /\ Forall (fun c => c <> None) cs'.
Proof.
  unfold squeeze_all. induction indices as [| i r IH]; intros H; cbn [mapM].
  - exists []. repeat split. constructor.
  - apply Forall_cons_iff in H. destruct H as [(c & Hc) Hr].
    destruct (IH Hr) as (cs' & Hrun & Hlen & Hall).
    unfold list_item at 1. rewrite Hc. cbn [bind attr_of]. rewrite Hrun. cbn [bind].
    eexists. split; [reflexivity |]. cbn [length]. split; [lia |].
    constructor; [discriminate | exact Hall].
Qed.

End SqueezeLoop.

Lemma filter_indices_bound (sh : list nat) (k : nat) (f : nat -> bool) :
  Forall (fun i => k <= i < k + length sh)
         (map fst (filter (fun p => f (snd p)) (combine (seq k (length sh)) sh))).
Proof.
  revert k. induction sh as [| n sh IH]; intros k; cbn [length seq combine filter map].
  - constructor.
  - specialize (IH (S k)).
    assert (Hw : Forall (fun i => k <= i < k + S (length sh))
                   (map fst (filter (fun p => f (snd p)) (combine (seq (S k) (length sh)) sh)))).
    { eapply Forall_impl; [| exact IH]. cbn. intros i Hi. lia. }
    cbn [snd]. destruct (f n); cbn [map fst]; [constructor; [lia | exact Hw] | exact Hw].
Qed.

Lemma filter_pairs_length {A B : Type} (f : nat -> bool) (l1 : list A) (l2 : list B)
    (sh : list nat) :
  length l1 = length sh -> length l2 = length sh ->
  length (filter (fun p => f (snd p)) (combine l1 sh))
  = length (filter (fun p => f (snd p)) (combine l2 sh)).
Proof.
  revert l1 l2. induction sh as [| n sh IH]; intros [| a l1] [| b l2] H1 H2;
    cbn [length] in *; try lia; [reflexivity |].
  cbn [combine filter snd]. destruct (f n); cbn [length]; rewrite (IH l1 l2); lia.
Qed.

Lemma filter_shape_length (f : nat -> bool) (names : list string) (sh : list nat) :
  length names = length sh ->
  length (filter (fun p => f (snd p)) (combine names sh)) = length (filter f sh).
Proof.
  revert names. induction sh as [| n sh IH]; intros [| a names] H; cbn [length] in *; try lia;
    [reflexivity |].
  cbn [combine filter snd]. destruct (f n); cbn [length]; rewrite IH; lia.
Qed.

(** X18: on a slice whose data have at least one entry along every
    dimension, with all coordinates set, [squeeze] keeps exactly the
    dimensions whose length is not one, in their order, and records exactly
    the dimensions of length one as fixed coordinates; the squeezed data
    have one axis per dimension kept, and so have the two coordinate lists.
    (The coordinate arrays of a dimension of length one must have a first
    entry to record.) *)
Theorem squeeze_keeps_long_dimensions :
  forall (self : Slice) (d : array),
    data self = Some d ->
    length (shape d) = length (dimensions self) ->
    length (coords self) = length (dimensions self) ->
    length (coords_stag self) = length (dimensions self) ->
    Forall (fun n => 1 <= n) (shape d) ->
    Forall (fun c => c <> None) (coords self) ->
    Forall (fun c => c <> None) (coords_stag self) ->
    Forall2 (fun n c => n = 1 -> exists c0 m r, c = Some c0 /\ shape c0 = S m :: r)
            (shape d) (coords self) ->
    exists s' fixed,
      squeeze self = Ok s'
      /\ dimensions s' = dimensions_not_one self
      /\ ndim s' = length (dimensions s')
      /\ data s' = Some (Numerix.squeeze d)
      /\ length (shape (Numerix.squeeze d)) = ndim s'
      /\ length (coords s') = ndim s' /\ length (coords_stag s') = ndim s'
      /\ Forall (fun c => c <> None) (coords s')
      /\ Forall (fun c => c <> None) (coords_stag s')
      /\ fixedcoords s' = Some fixed
      /\ map fst fixed = dimensions_of_length_one self.
Proof.
  intros self d Hd Hlen Hclen Hslen Hpos Hcs Hss Hfix.
  destruct (squeeze_loop self d Hd (dimensions self) 0 (shape d) (coords self) [] [] []
              eq_refl Hlen eq_refl Hclen Hpos Hfix) as (fixed & Hloop & Hnames).
  cbn [app] in Hloop.
  set (gi := map fst (filter (fun p => negb (snd p =? 1))
                        (combine (seq 0 (length (dimensions self))) (shape d)))) in *.
  assert (Hgi : Forall (fun i => i < length (dimensions self)) gi).
  { pose proof (filter_indices_bound (shape d) 0 (fun n => negb (n =? 1))) as H.
    rewrite Hlen in H. eapply Forall_impl; [| exact H]. cbn. intros i Hi. lia. }
  assert (Hsome : forall cs : list (option array),
             length cs = length (dimensions self) -> Forall (fun c => c <> None) cs ->
             Forall (fun i => exists c, nth_error cs i = Some (Some c)) gi).
  { intros cs Hl Hall. eapply Forall_impl; [| exact Hgi]. cbn. intros i Hi.
    destruct (nth_error cs i) as [[c |] |] eqn:E.
    - eauto.
    - exfalso. rewrite Forall_forall in Hall. apply (Hall None); [| reflexivity].
      eapply nth_error_In. exact E.
    - apply nth_error_None in E. lia. }
  destruct (squeeze_all_ok (coords self) gi (Hsome _ Hclen Hcs)) as (cs' & Hc' & Hcl & Hca).
  destruct (squeeze_all_ok (coords_stag self) gi (Hsome _ Hslen Hss)) as (ss' & Hs' & Hsl & Hsa).
  unfold squeeze, enumerate. rewrite Hloop. cbn [bind]. rewrite Hc'. cbn [bind].
  rewrite Hs'. cbn [bind]. rewrite Hd. cbn [attr_of bind].
  do 2 eexists. split; [reflexivity |].
  cbn [dimensions ndim data coords coords_stag fixedcoords].
  unfold dimensions_not_one, dimensions_of_length_one. rewrite Hd.
  assert (Hgl : length gi
                = length (map fst (filter (fun p => negb (snd p =? 1))
                                     (combine (dimensions self) (shape d))))).
  { unfold gi. rewrite !length_map.
    apply (filter_pairs_length (fun n => negb (n =? 1))); [rewrite length_seq; lia | lia]. }
  split; [reflexivity |]. split; [reflexivity |]. split; [reflexivity |].
  split.
  { unfold Numerix.squeeze. cbn [shape]. rewrite length_map.
    symmetry. apply (filter_shape_length (fun n => negb (n =? 1))). auto. }
  split; [congruence |]. split; [congruence |].
  split; [exact Hca |]. split; [exact Hsa |]. split; [reflexivity | exact Hnames].
Qed.

Lemma squeeze_keeps_long_dimensions_witness :
  exists s' fixed,
    squeeze thin_slice = Ok s'
    /\ dimensions s' = ["b"]
    /\ fixedcoords s' = Some fixed
    /\ map fst fixed = ["a"].
Proof.
  destruct (squeeze_keeps_long_dimensions thin_slice (mkarray [1; 3] [7; 8; 9]%Q))
    as (s' & fixed & Hrun & Hdims & _ & _ & _ & _ & _ & _ & _ & Hfixed & Hnames).
  - reflexivity.
  - reflexivity.
  - reflexivity.
  - reflexivity.
  - repeat constructor.
  - repeat constructor; discriminate.
  - repeat constructor; discriminate.
  - constructor.
    + intros _. exists (vector [5]%Q), 0, []. split; reflexivity.
    + constructor; [intros H; discriminate | constructor].
  - exists s', fixed. split; [exact Hrun |]. split; [exact Hdims |].
    split; [exact Hfixed | exact Hnames].
Defined.

(** ** VariableStore.filterNodes *)

Lemma element_rect_nested (P : element -> Prop) :
  (forall name label type children,
     Forall P children -> P (Element name label type children)) ->
  forall e, P e.
Proof.
  intros Hstep. fix IH 1. intros [name label type children].
  apply Hstep. induction children as [| c r IHr]; constructor; [apply IH | exact IHr].
Qed.

Lemma set_union_In (s1 s2 : list string) (x : string) :
  In x (set_union s1 s2) <-> In x s1 \/ In x s2.
Proof.
  unfold set_union. revert s1. induction s2 as [| y r IH]; intros s1; cbn [fold_left In].
  - tauto.
  - rewrite IH, set_add_In. intuition.
Qed.

Lemma set_union_NoDup (s1 s2 : list string) : NoDup s1 -> NoDup (set_union s1 s2).
Proof.
  unfold set_union. revert s1. induction s2 as [| y r IH]; intros s1 H; cbn [fold_left].
  - exact H.
  - apply IH. now apply set_add_NoDup.
Qed.

Lemma filterNodes_filtered (items : list (string * string)) :
  forall (node : element) (kept : option element) (ids : list string),
    filterNodes node (PyDict items) = Ok (kept, ids) -> filtered items node kept ids.
Proof.
  intros node. induction node as [name label type children IH] using element_rect_nested.
  intros kept ids H. cbn [filterNodes] in H.
  inv_bind_as H u Hname. inv_bind_as H r0 Hself.
  destruct r0 as [[label' type'] ids0].
  match type of H with
  | context [bind (?v children ids0) _] => set (visit := v) in H
  end.
  assert (Hself' : NoDup ids0
                   /\ forall x, In x ids0 <-> x = name /\ dict_get items x <> None).
  { cbn [py_contains] in Hself. destruct (dict_get items name) as [v |] eqn:E; cbn [is_some] in Hself.
    - inv_bind_as Hself l' Hl. injection Hself as _ _ <-.
      split; [repeat constructor; intros [] |].
      intros x. cbn [In]. split.
      + intros [<- | []]. split; [reflexivity | congruence].
      + intros [-> _]. now left.
    - injection Hself as _ _ <-. split; [constructor |].
      intros x. cbn [In]. split; [tauto |]. intros [-> Hx]. congruence. }
  destruct Hself' as [Hnd0 Hin0]. clear Hself.
  assert (Hvisit : forall l acc l' ids',
             Forall (fun e => forall kept ids,
                       filterNodes e (PyDict items) = Ok (kept, ids) ->
                       filtered items e kept ids) l ->
             NoDup acc ->
             visit l acc = Ok (l', ids') ->
             NoDup ids'
             /\ (forall x, In x ids' <-> In x acc
                                         \/ (In x (flat_map node_names l)
                                             /\ dict_get items x <> None))
             /\ (forall x, In x ids' -> In x acc \/ In x (flat_map node_names l'))).
  { induction l as [| ch rest IHl]; intros acc l' ids' Hall Hacc Hv.
    - cbn [visit] in Hv. injection Hv as _ <-. split; [exact Hacc |].
      split; [| tauto]. intros x. cbn [flat_map In]. tauto.
    - apply Forall_cons_iff in Hall. destruct Hall as [Hch Hrest].
      cbn [visit] in Hv. fold visit in Hv.
      inv_bind_as Hv c Hc. inv_bind_as Hv r Hr. injection Hv as <- <-.
      destruct c as [ckept cids]. destruct r as [rl rids]. cbn [fst snd] in *.
      destruct (Hch _ _ Hc) as (Hcnd & Hcin & Hcnone & Hckept).
      destruct (IHl _ _ _ Hrest (set_union_NoDup _ cids Hacc) Hr) as (Hrnd & Hrin & Hrkept).
      split; [exact Hrnd |]. split.
      + intros x. rewrite Hrin, set_union_In, Hcin. cbn [flat_map]. rewrite in_app_iff. tauto.
      + intros x Hx. destruct (Hrkept x Hx) as [Hu | Hl].
        * apply set_union_In in Hu. destruct Hu as [Hu | Hu]; [now left |].
          right. destruct ckept as [ch' |].
          -- cbn [flat_map]. apply in_app_iff. left. now apply (Hckept ch' eq_refl).
          -- destruct Hcnone as [Hcnone _]. destruct (Hcnone eq_refl) as [-> _]. destruct Hu.
        * right. destruct ckept; [cbn [flat_map]; apply in_app_iff |]; auto. }
  inv_bind_as H r Hr. destruct r as [children' nodeids].
  destruct (Hvisit _ _ _ _ IH Hnd0 Hr) as (Hnd & Hin & Hkeptnames).
  assert (Hids : forall x, In x nodeids <-> In x (node_names (Element name label type children))
                                            /\ dict_get items x <> None).
  { intros x. rewrite Hin, Hin0. cbn [node_names In]. split.
    - intros [[-> Hx] | [Hx1 Hx2]]; auto.
    - intros [[<- | Hx1] Hx2]; auto. }
  unfold filtered.
  destruct ((length nodeids =? 0) && negb (name =? "other")%string) eqn:E;
    injection H as <- <-.
  - split; [exact Hnd |]. split; [exact Hids |].
    apply andb_prop in E. destruct E as [E1 E2].
    apply Nat.eqb_eq in E1. apply negb_true_iff in E2. apply String.eqb_neq in E2.
    split; [| discriminate].
    split; [intros _ | reflexivity].
    split; [now apply length_zero_iff_nil | exact E2].
  - split; [exact Hnd |]. split; [exact Hids |]. split.
    + split; [discriminate |]. intros [-> Hother]. cbn [length Nat.eqb andb] in E.
      apply negb_false_iff in E. apply String.eqb_eq in E. contradiction.
    + intros k Hk x Hx. injection Hk as <-. cbn [node_names In].
      destruct (Hkeptnames x Hx) as [H0 | Hl]; [| now right].
      left. apply Hin0 in H0. destruct H0 as [-> _]. reflexivity.
Qed.

(** X20: on a dictionary of variables, [filterNodes] returns, without
    repeats, exactly the names of the nodes at and below the given node
    that are keys of the dictionary; the node is removed exactly when that
    set is empty and the node is not called "other". *)
Theorem filterNodes_finds_dictionary_keys :
  forall (node : element) (items : list (string * string))
         (kept : option element) (ids : list string),
    filterNodes node (PyDict items) = Ok (kept, ids) ->
    NoDup ids
    /\ (forall x, In x ids <-> In x (node_names node) /\ dict_get items x <> None)
    /\ (kept = None <-> ids = [] /\ (match node with Element n _ _ _ => n end) <> "other").
Proof.
  intros node items kept ids H.
  destruct (filterNodes_filtered items node kept ids H) as (H1 & H2 & H3 & _). auto.
Qed.

Lemma filterNodes_finds_dictionary_keys_witness :
  exists kept ids,
    filterNodes small_schema (PyDict [("temp", "Temperature"); ("salt", "Salinity")])
    = Ok (Some kept, ids)
    /\ ids = ["temp"]
    /\ node_names kept = ["root"; "physics"; "temp"; "other"]
    /\ (In "salt" ids <-> In "salt" (node_names small_schema)
                          /\ dict_get [("temp", "Temperature"); ("salt", "Salinity")] "salt"
                             <> None).
Proof.
  do 2 eexists. split; [reflexivity |]. split; [reflexivity |]. split; [reflexivity |].
  apply (filterNodes_finds_dictionary_keys small_schema
           [("temp", "Temperature"); ("salt", "Salinity")] _ _ eq_refl).
Defined.

(** ** VariableFlat.getSlice on two-dimensional slices *)

Lemma getitem_point (d : array) (n0 n1 a b : nat) :
  shape d = [n0; n1] -> a < n0 -> b < n1 ->
  getitem 0%Q d [Range a (Some (a + 1)); Range b (Some (b + 1))]
  = Ok (mkarray [1; 1] [qget d [a; b]]).
Proof.
  intros Hs Ha Hb. unfold getitem. rewrite Hs. cbn [block_shape bind].
  unfold range_stop, range_start.
  replace (Nat.min (a + 1) n0 - Nat.min a n0) with 1 by lia.
  replace (Nat.min (b + 1) n1 - Nat.min b n1) with 1 by lia.
  unfold build. cbn [size Nat.mul seq map unravel Nat.div Nat.modulo abs_index].
  cbn. unfold range_start. rewrite !Nat.min_l by lia. rewrite !Nat.add_0_r. reflexivity.
Qed.

Lemma setitem_point (a : array) (n k : nat) (x : Q) :
  shape a = [n] -> k < n ->
  exists a',
    setitem 0%Q a [Range k (Some (k + 1))] (mkarray [1; 1] [x]) = Ok a'
    /\ shape a' = [n] /\ wf a'
    /\ forall m, m < n -> qget a' [m] = if m =? k then x else qget a [m].
Proof.
  intros Hs Hk. unfold setitem. rewrite Hs. cbn [block_shape bind].
  unfold range_stop, range_start.
  replace (Nat.min (k + 1) n - Nat.min k n) with 1 by lia.
  unfold broadcast_to. cbn [shape length Nat.sub strip_leading Nat.ltb Nat.leb repeat app
                           broadcastable Nat.eqb orb andb bind].
  eexists. split; [reflexivity |]. split; [reflexivity |]. split; [apply wf_build |].
  intros m Hm. unfold qget.
  rewrite get_build by (cbn [in_bounds]; apply Nat.ltb_lt in Hm; now rewrite Hm).
  cbn [locate]. unfold range_start, range_stop. rewrite !Nat.min_l by lia.
  destruct (Nat.eqb_spec m k) as [-> | N].
  - assert (E1 : (k <=? k) = true) by (apply Nat.leb_le; lia).
    assert (E2 : (k <? k + 1) = true) by (apply Nat.ltb_lt; lia).
    rewrite E1, E2. cbn [andb option_map]. rewrite Nat.sub_diag. reflexivity.
  - assert (E : (k <=? m) && (m <? k + 1) = false).
    { apply andb_false_iff. destruct (Nat.lt_ge_cases m k) as [H | H].
      - left. apply Nat.leb_gt. exact H.
      - right. apply Nat.ltb_ge. lia. }
    rewrite E. reflexivity.
Qed.

Lemma broadcast_scalar (x : Q) (n : nat) :
  broadcast_to 0%Q (scalar x) [n]
  = Ok (build [n] (fun b => get 0%Q (mkarray [1] [x]) (source_index [1] b))).
Proof.
  unfold broadcast_to, scalar. cbn [shape length Nat.sub strip_leading flat].
  change (1 <? 0) with false. cbn [repeat app broadcastable Nat.eqb].
  now rewrite orb_true_r.
Qed.

Lemma setitem_fill (a : array) (n lo hi : nat) (x : Q) :
  shape a = [n] -> lo <= hi -> hi <= n ->
  exists a',
    setitem 0%Q a [Range lo (Some hi)] (scalar x) = Ok a'
    /\ shape a' = [n] /\ wf a'
    /\ forall m, m < n ->
         qget a' [m] = if (lo <=? m) && (m <? hi) then x else qget a [m].
Proof.
  intros Hs Hlo Hhi. unfold setitem. rewrite Hs. cbn [block_shape bind].
  unfold range_stop, range_start. rewrite !Nat.min_l by lia.
  rewrite broadcast_scalar. cbn [bind].
  eexists. split; [reflexivity |]. split; [reflexivity |]. split; [apply wf_build |].
  intros m Hm. unfold qget.
  rewrite get_build by (cbn [in_bounds]; apply Nat.ltb_lt in Hm; now rewrite Hm).
  cbn [locate]. unfold range_start, range_stop. rewrite !Nat.min_l by lia.
  destruct ((lo <=? m) && (m <? hi)) eqn:E; [| reflexivity].
  cbn [option_map]. apply andb_prop in E. destruct E as [E1 E2].
  apply Nat.leb_le in E1. apply Nat.ltb_lt in E2.
  rewrite get_build by (cbn [in_bounds]; assert (Hb : (m - lo <? hi - lo) = true)
                          by (apply Nat.ltb_lt; lia); now rewrite Hb).
  reflexivity.
Qed.

Lemma block_position (sc s m : nat) :
  s * sc <= m -> m < (s + 1) * sc -> m / sc = s /\ m mod sc = m - s * sc.
Proof.
  intros H1 H2. assert (Hsc : sc <> 0) by nia.
  assert (E : m = sc * s + (m - s * sc)) by lia.
  split.
  - symmetry. apply (Nat.div_unique m sc s (m - s * sc)); [lia | exact E].
  - symmetry. apply (Nat.mod_unique m sc s (m - s * sc)); [lia | exact E].
Qed.

Section FlatTwoDimensions.

Variable self : VariableFlat.
Variable sourceslice : Slice.
Variable d : array.
Variable ctarget : array.
Variable sc tc : nat.

Hypothesis Hndim : ndim sourceslice = 2.
Hypothesis Hnew : inewtargetdim self = 0.
Hypothesis Hcase :
  (idimension (flat_base self) = 0 /\ itargetdim self = 1)
  \/ (idimension (flat_base self) = 1 /\ itargetdim self = 0).
Hypothesis Hshape : shape d = list_insert [tc] (idimension (flat_base self)) sc.
Hypothesis Htarget : length (flat ctarget) = tc.

Lemma flat_copy_point (i j : nat) (nd : array) :
  i < tc -> j < sc -> shape nd = [tc * sc] ->
  exists nd',
    flat_copy self sourceslice d sc i nd j = Ok nd'
    /\ shape nd' = [tc * sc] /\ wf nd'
    /\ forall m, m < tc * sc ->
         qget nd' [m] = if m =? i * sc + j
                        then qget d (list_insert [i] (idimension (flat_base self)) j)
                        else qget nd [m].
Proof.
  intros Hi Hj Hnd. assert (Hk : i * sc + j < tc * sc) by nia.
  unfold flat_copy. rewrite Hndim, Hnew, Hnd.
  destruct Hcase as [[Ha Ht] | [Ha Ht]]; rewrite Ha, Ht in *;
    cbn [repeat list_setitem bind length list_insert] in *.
  - rewrite (getitem_point d sc tc j i Hshape Hj Hi). cbn [bind].
    apply (setitem_point nd (tc * sc) (i * sc + j) _ Hnd Hk).
  - rewrite (getitem_point d tc sc i j Hshape Hi Hj). cbn [bind].
    apply (setitem_point nd (tc * sc) (i * sc + j) _ Hnd Hk).
Qed.

Lemma flat_copy_loop (i : nat) (len : nat) :
  forall (s : nat) (nd : array),
    i < tc -> s + len <= sc -> shape nd = [tc * sc] -> wf nd ->
    exists nd',
      foldM (flat_copy self sourceslice d sc i) (seq s len) nd = Ok nd'
      /\ shape nd' = [tc * sc] /\ wf nd'
      /\ forall m, m < tc * sc ->
           qget nd' [m] = if (i * sc + s <=? m) && (m <? i * sc + s + len)
                          then qget d (list_insert [i] (idimension (flat_base self))
                                                   (m - i * sc))
                          else qget nd [m].
Proof.
  induction len as [| len IH]; intros s nd Hi Hs Hnd Hwf.
  - exists nd. cbn [seq foldM]. split; [reflexivity |]. split; [exact Hnd |].
    split; [exact Hwf |]. intros m Hm.
    assert (E : (i * sc + s <=? m) && (m <? i * sc + s + 0) = false).
    { apply andb_false_iff. destruct (Nat.lt_ge_cases m (i * sc + s)) as [H | H].
      - left. now apply Nat.leb_gt.
      - right. apply Nat.ltb_ge. lia. }
    now rewrite E.
  - destruct (flat_copy_point i s nd Hi ltac:(lia) Hnd) as (nd1 & Hstep & Hnd1 & Hwf1 & Hget1).
    destruct (IH (S s) nd1 Hi ltac:(lia) Hnd1 Hwf1) as (nd' & Hloop & Hnd' & Hwf' & Hget').
    exists nd'. cbn [seq foldM]. rewrite Hstep. cbn [bind].
    split; [exact Hloop |]. split; [exact Hnd' |]. split; [exact Hwf' |].
    intros m Hm. rewrite (Hget' m Hm), (Hget1 m Hm).
    destruct (Nat.eqb_spec m (i * sc + s)) as [-> | N].
    + assert (E1 : (i * sc + S s <=? i * sc + s) && (i * sc + s <? i * sc + S s + len) = false).
      { apply andb_false_iff. left. apply Nat.leb_gt. lia. }
      assert (E2 : (i * sc + s <=? i * sc + s) && (i * sc + s <? i * sc + s + S len) = true).
      { apply andb_true_intro. split; [apply Nat.leb_le | apply Nat.ltb_lt]; lia. }
      rewrite E1, E2. f_equal. f_equal. lia.
    + destruct ((i * sc + S s <=? m) && (m <? i * sc + S s + len)) eqn:E.
      * apply andb_prop in E. destruct E as [E1 E2].
        apply Nat.leb_le in E1. apply Nat.ltb_lt in E2.
        assert (E3 : (i * sc + s <=? m) && (m <? i * sc + s + S len) = true).
        { apply andb_true_intro. split; [apply Nat.leb_le | apply Nat.ltb_lt]; lia. }
        now rewrite E3.
      * assert (E3 : (i * sc + s <=? m) && (m <? i * sc + s + S len) = false).
        { apply andb_false_iff. apply andb_false_iff in E. destruct E as [E | E].
          - apply Nat.leb_gt in E. left. apply Nat.leb_gt. lia.
          - apply Nat.ltb_ge in E. right. apply Nat.ltb_ge. lia. }
        now rewrite E3.
Qed.

Lemma flat_fill_loop (len : nat) :
  forall (s : nat) (nc nd : array),
    s + len <= tc -> shape nc = [tc * sc] -> wf nc -> shape nd = [tc * sc] -> wf nd ->
    exists nc' nd',
      foldM (flat_fill self sourceslice d ctarget sc) (seq s len) (nc, nd) = Ok (nc', nd')
      /\ shape nc' = [tc * sc] /\ wf nc' /\ shape nd' = [tc * sc] /\ wf nd'
      /\ forall m, m < tc * sc ->
           (qget nd' [m] = if (s * sc <=? m) && (m <? (s + len) * sc)
                           then qget d (list_insert [m / sc] (idimension (flat_base self))
                                                    (m mod sc))
                           else qget nd [m])
           /\ (qget nc' [m] = if (s * sc <=? m) && (m <? (s + len) * sc)
                              then nth (m / sc) (flat ctarget) 0%Q
                              else qget nc [m]).
Proof.
  induction len as [| len IH]; intros s nc nd Hs Hnc Hwc Hnd Hwd.
  - exists nc, nd. cbn [seq foldM]. split; [reflexivity |]. repeat (split; [assumption |]).
    intros m Hm.
    assert (E : (s * sc <=? m) && (m <? (s + 0) * sc) = false).
    { apply andb_false_iff. destruct (Nat.lt_ge_cases m (s * sc)) as [H | H].
      - left. now apply Nat.leb_gt.
      - right. apply Nat.ltb_ge. lia. }
    rewrite E. auto.
  - assert (Hci : list_item (flat ctarget) s = Ok (nth s (flat ctarget) 0%Q)).
    { apply list_item_nth. lia. }
    destruct (setitem_fill nc (tc * sc) (s * sc) ((s + 1) * sc) (nth s (flat ctarget) 0%Q) Hnc
                ltac:(nia) ltac:(nia)) as (nc1 & Hfill & Hnc1 & Hwc1 & Hgetc).
    destruct (flat_copy_loop s sc 0 nd ltac:(lia) ltac:(lia) Hnd Hwd)
      as (nd1 & Hcopy & Hnd1 & Hwd1 & Hgetd).
    destruct (IH (S s) nc1 nd1 ltac:(lia) Hnc1 Hwc1 Hnd1 Hwd1)
      as (nc' & nd' & Hloop & Hnc' & Hwc' & Hnd' & Hwd' & Hget').
    exists nc', nd'. cbn [seq foldM]. unfold flat_fill at 1.
    rewrite Hci. cbn [bind]. rewrite Hfill. cbn [bind]. rewrite Hcopy. cbn [bind].
    split; [exact Hloop |]. repeat (split; [assumption |]).
    intros m Hm. destruct (Hget' m Hm) as [Hd' Hc']. rewrite Hd', Hc'.
    rewrite (Hgetd m Hm), (Hgetc m Hm). clear Hd' Hc' Hget' Hgetd Hgetc.
    rewrite !Nat.add_0_r.
    destruct ((S s * sc <=? m) && (m <? (S s + len) * sc)) eqn:E.
    + apply andb_prop in E. destruct E as [E1 E2].
      apply Nat.leb_le in E1. apply Nat.ltb_lt in E2.
      assert (E3 : (s * sc <=? m) && (m <? (s + S len) * sc) = true).
      { apply andb_true_intro. split; [apply Nat.leb_le | apply Nat.ltb_lt]; nia. }
      rewrite E3. auto.
    + destruct ((s * sc <=? m) && (m <? s * sc + sc)) eqn:E0.
      * apply andb_prop in E0. destruct E0 as [E1 E2].
        apply Nat.leb_le in E1. apply Nat.ltb_lt in E2.
        assert (E3 : (s * sc <=? m) && (m <? (s + S len) * sc) = true).
        { apply andb_true_intro. split; [apply Nat.leb_le | apply Nat.ltb_lt]; nia. }
        assert (E4 : (s * sc <=? m) && (m <? (s + 1) * sc) = true).
        { apply andb_true_intro. split; [apply Nat.leb_le | apply Nat.ltb_lt]; nia. }
        rewrite E3, E4.
        destruct (block_position sc s m E1 ltac:(nia)) as [Hq Hr]. rewrite Hq, Hr. auto.
      * assert (Hout : m < s * sc \/ s * sc + sc <= m).
        { apply andb_false_iff in E0. destruct E0 as [E0 | E0].
          - apply Nat.leb_gt in E0. now left.
          - apply Nat.ltb_ge in E0. now right. }
        assert (Hout' : m < S s * sc \/ (S s + len) * sc <= m).
        { apply andb_false_iff in E. destruct E as [E | E].
          - apply Nat.leb_gt in E. now left.
          - apply Nat.ltb_ge in E. now right. }
        assert (E3 : (s * sc <=? m) && (m <? (s + S len) * sc) = false).
        { apply andb_false_iff. destruct Hout as [H | H].
          - left. now apply Nat.leb_gt.
          - right. apply Nat.ltb_ge. destruct Hout' as [H' | H']; nia. }
        assert (E4 : (s * sc <=? m) && (m <? (s + 1) * sc) = false).
        { apply andb_false_iff. destruct Hout as [H | H].
          - left. now apply Nat.leb_gt.
          - right. apply Nat.ltb_ge. nia. }
        rewrite E3, E4. auto.
Qed.

End FlatTwoDimensions.

Lemma VariableFlat_init_two_dimensions (variable : PlotVariable) (dimname target : string)
    (self : VariableFlat) :
  VariableFlat_init variable dimname target = Ok self ->
  length (getDimensions variable) = 2 -> NoDup (getDimensions variable) ->
  target <> dimname ->
  sourcevar (flat_base self) = variable
  /\ inewtargetdim self = 0
  /\ ((idimension (flat_base self) = 0 /\ itargetdim self = 1)
      \/ (idimension (flat_base self) = 1 /\ itargetdim self = 0))
  /\ Reduce_getDimensions (flat_base self) = [target].
Proof.
  intros Hinit Hlen Hnd Hne.
  unfold VariableFlat_init in Hinit.
  inv_bind_as Hinit info Hinfo. inv_bind_as Hinit base Hbase.
  destruct (index_of target (getDimensions variable)) as [t |] eqn:Et; [| discriminate].
  injection Hinit as <-. cbn [flat_base itargetdim inewtargetdim].
  destruct (index_of_Some _ _ _ Et) as [Ht _].
  destruct (VariableReduceDimension_getDimensions_drops_one_aux _ _ _ _ _ Hbase Hnd)
    as (Hi & Hdims & Hlt).
  assert (Hsrc : sourcevar base = variable).
  { unfold VariableReduceDimension_init in Hbase.
    destruct (index_of dimname (getDimensions variable)); [| discriminate].
    now injection Hbase as <-. }
  assert (Htlt : t < 2) by (rewrite <- Hlen; apply nth_error_Some; congruence).
  rewrite Hlen in Hlt.
  assert (Hdiff : t <> idimension base) by (intros ->; congruence).
  split; [exact Hsrc |].
  destruct (getDimensions variable) as [| d0 [| d1 [| d2 r]]]; try discriminate.
  destruct (idimension base) as [| [| i]], t as [| [| t]]; try lia; cbn in *.
  - split; [reflexivity |]. split; [left; auto |]. rewrite Hdims. congruence.
  - split; [reflexivity |]. split; [right; auto |]. rewrite Hdims. congruence.
Qed.

(** X21: on a variable with two dimensions, flattening either one into the
    other works for every source slice whose data and coordinate vectors
    have matching lengths: the new slice has the absorbing dimension only,
    its data hold at position [i * sourceCount + j] the source value at
    (absorbing = i, flattened = j), and its coordinates hold there the
    coordinate of the absorbing dimension at [i].  The interface
    coordinates of the absorbing dimension are left as they were. *)
Theorem VariableFlat_getSlice_two_dimensions :
  forall (variable : PlotVariable) (dimname target : string) (self : VariableFlat)
         (b : bound) (sourceslice : Slice) (d : array) (cflat ctarget : list Q),
    VariableFlat_init variable dimname target = Ok self ->
    length (getDimensions variable) = 2 -> NoDup (getDimensions variable) ->
    target <> dimname ->
    getSlice variable (list_insert [b] (idimension (flat_base self)) (None, None))
    = Ok sourceslice ->
    ndim sourceslice = 2 ->
    data sourceslice = Some d ->
    shape d = list_insert [length ctarget] (idimension (flat_base self)) (length cflat) ->
    coords sourceslice
    = list_insert [Some (vector ctarget)] (idimension (flat_base self)) (Some (vector cflat)) ->
    exists newslice nd nc,
      VariableFlat_getSlice self [b] = Ok newslice
      /\ dimensions newslice = [target]
      /\ data newslice = Some nd /\ shape nd = [length ctarget * length cflat]
      /\ coords newslice = [Some nc] /\ shape nc = [length ctarget * length cflat]
      /\ coords_stag newslice
         = remove_at (idimension (flat_base self)) (coords_stag sourceslice)
      /\ forall i j, i < length ctarget -> j < length cflat ->
           qget nd [i * length cflat + j]
           = qget d (list_insert [i] (idimension (flat_base self)) j)
           /\ qget nc [i * length cflat + j] = nth i ctarget 0%Q.
Proof.
  intros variable dimname target self b sourceslice d cflat ctarget
         Hinit Hlen Hnd Hne Hget Hndim Hd Hshape Hcoords.
  destruct (VariableFlat_init_two_dimensions _ _ _ _ Hinit Hlen Hnd Hne)
    as (Hsrc & Hnew & Hcase & Hdims).
  pose (sc := length cflat). pose (tc := length ctarget).
  assert (Hnc0 : shape (empty 0%Q [tc * sc]) = [tc * sc]) by reflexivity.
  destruct (flat_fill_loop self sourceslice d (vector ctarget) sc tc Hndim Hnew Hcase Hshape
              eq_refl tc 0 (empty 0%Q [tc * sc]) (empty 0%Q [tc * sc])
              ltac:(lia) Hnc0 (wf_build _ _) Hnc0 (wf_build _ _))
    as (nc' & nd' & Hloop & Hncs & Hncw & Hnds & Hndw & Hvals).
  unfold sc, tc in *. clear sc tc.
  assert (Hrun : VariableFlat_getSlice self [b]
                 = Ok (set_data
                         (set_coords_stag
                            (set_coords (newSlice [target]) [Some nc'])
                            (remove_at (idimension (flat_base self)) (coords_stag sourceslice)))
                         (Some nd'))).
  { unfold VariableFlat_getSlice. rewrite Hsrc, Hlen.
    cbn [length Nat.sub Nat.eqb assert bind]. rewrite Hget. cbn [bind].
    rewrite Hdims, Hcoords, Hd, Hnew. cbn [attr_of].
    destruct Hcase as [[Ha Ht] | [Ha Ht]]; rewrite Ha, Ht in *;
      cbn [list_insert list_item nth_error bind attr_of vector shape length Nat.eqb assert] in *;
      rewrite Hshape;
      cbn [list_item nth_error bind list_setitem list_del];
      unfold array in *; rewrite Hloop; cbn [bind];
      unfold remove_at, enumerate.
    all: destruct (coords_stag sourceslice) as [| s0 [| s1 r]]; cbn; reflexivity. }
  do 3 eexists. split; [exact Hrun |].
  cbn [set_data set_coords_stag set_coords newSlice dimensions data coords coords_stag].
  split; [reflexivity |]. split; [reflexivity |]. split; [exact Hnds |].
  split; [reflexivity |]. split; [exact Hncs |]. split; [reflexivity |].
  intros i j Hi Hj.
  assert (Hm : i * length cflat + j < length ctarget * length cflat) by nia.
  destruct (Hvals _ Hm) as [Hdv Hcv].
  assert (E : (0 * length cflat <=? i * length cflat + j)
              && (i * length cflat + j <? (0 + length ctarget) * length cflat) = true).
  { apply andb_true_intro. split; [apply Nat.leb_le | apply Nat.ltb_lt]; lia. }
  rewrite E in Hdv, Hcv.
  destruct (block_position (length cflat) i (i * length cflat + j) ltac:(lia) ltac:(lia))
    as [Hq Hr].
  rewrite Hq, Hr in Hdv. rewrite Hq in Hcv.
  rewrite Hdv, Hcv. split; [f_equal; f_equal; lia | reflexivity].
Qed.

Lemma VariableFlat_getSlice_two_dimensions_witness :
  exists self newslice nd,
    VariableFlat_init table "a" "b" = Ok self
    /\ VariableFlat_getSlice self [no_bounds] = Ok newslice
    /\ data newslice = Some nd
    /\ qget nd [1 * 2 + 0] = 2%Q.
Proof.
  destruct (VariableFlat_init table "a" "b") as [self | e] eqn:Hinit; [| discriminate].
  destruct (VariableFlat_getSlice_two_dimensions table "a" "b" self no_bounds table_slice
              (mkarray [2; 3] [1; 2; 3; 4; 5; 6]%Q) [10; 20]%Q [0; 1; 2]%Q Hinit)
    as (newslice & nd & nc & Hrun & _ & Hd & _ & _ & _ & _ & Hvals);
    try (injection Hinit as <-; reflexivity).
  - repeat constructor; simpl; intuition discriminate.
  - discriminate.
  - exists self, newslice, nd. split; [reflexivity |]. split; [exact Hrun |].
    split; [exact Hd |].
    destruct (Hvals 1 0) as [Hv _]; [cbn; lia | cbn; lia |].
    cbn [length] in Hv. rewrite Hv. injection Hinit as <-. reflexivity.
Defined.

(** ** Figure.update: dimensions forced to a single value *)

Lemma dimension_step_sliced (dim2data : list (string * bound)) (var var' : PlotVariable)
    (bnds bnds' : list bound) (dimname : string) :
  dimension_step dim2data (var, bnds) dimname = Ok (var', bnds') ->
  (exists self x, getSlice var' = VariableSlice_getSlice self x)
  \/ (var' = var
      /\ forall x y, assoc dimname dim2data = Some (Some x, Some y) -> Qeq_bool x y = false).
Proof.
  unfold dimension_step. intros H.
  destruct (assoc dimname dim2data) as [[lo hi] |].
  - cbn [fst snd] in H.
    destruct (Qopt_eqb lo hi && is_some lo) eqn:E.
    + destruct lo as [x |]; [| now rewrite andb_false_r in E].
      inv_bind H. injection H as <- <-. left.
      unfold VariableSlice in Ha. inv_bind Ha. injection Ha as <-.
      cbn [getSlice]. eauto.
    + injection H as <- <-. right. split; [reflexivity |].
      intros x y Hxy. injection Hxy as -> ->. cbn [Qopt_eqb is_some] in E.
      now rewrite andb_true_r in E.
  - injection H as <- <-. right. split; [reflexivity |]. discriminate.
Qed.

Lemma dimension_loop_sliced (dim2data : list (string * bound)) (dims : list string) :
  forall var bnds var' bnds',
    foldM (dimension_step dim2data) dims (var, bnds) = Ok (var', bnds') ->
    (exists self x, getSlice var = VariableSlice_getSlice self x)
    \/ (exists dimname x y, In dimname dims
                            /\ assoc dimname dim2data = Some (Some x, Some y)
                            /\ Qeq_bool x y = true) ->
    exists self x, getSlice var' = VariableSlice_getSlice self x.
Proof.
  induction dims as [| dimname dims IH]; intros var bnds var' bnds' H Hsliced; cbn [foldM] in H.
  - injection H as <- <-. destruct Hsliced as [H | (dn & x & y & [] & _)]. exact H.
  - inv_bind H. destruct a as [var1 bnds1].
    apply (IH _ _ _ _ H). clear IH H.
    apply dimension_step_sliced in Ha. destruct Ha as [Hs | [-> Hnot]]; [now left |].
    destruct Hsliced as [Hs | (dn & x & y & [<- | Hin] & Hassoc & Hxy)].
    + now left.
    + rewrite (Hnot _ _ Hassoc) in Hxy. discriminate.
    + right. exists dn, x, y. auto.
Qed.

(** X22: when one of the dimensions of a series' variable has a forced
    range whose ends are equal, the variable that [update] fetches its data
    from is a slice transform, and the slice it gets, if it gets one, has no
    data and is not valid: the series is skipped, never drawn. *)
Theorem update_single_value_range_skips_series :
  forall (dim2data : list (string * bound)) (var0 var : PlotVariable)
         (dimbounds : list bound) (varslice : Slice),
    foldM (dimension_step dim2data) (getDimensions var0) (var0, []) = Ok (var, dimbounds) ->
    (exists dimname x y, In dimname (getDimensions var0)
                         /\ assoc dimname dim2data = Some (Some x, Some y)
                         /\ (x == y)%Q) ->
    getSlice var dimbounds = Ok varslice ->
    data varslice = None /\ isValid varslice = false.
Proof.
  intros dim2data var0 var dimbounds varslice Hloop (dn & x & y & Hin & Hassoc & Hxy) Hget.
  destruct (dimension_loop_sliced _ _ _ _ _ _ Hloop) as (self & v & Hvar).
  { right. exists dn, x, y. split; [exact Hin |]. split; [exact Hassoc |].
    now apply Qeq_bool_iff. }
  rewrite Hvar in Hget. apply VariableSlice_getSlice_empty in Hget. subst varslice.
  split; [reflexivity | apply isValid_newSlice].
Qed.

Lemma update_single_value_range_skips_series_witness :
  exists var dimbounds varslice,
    foldM (dimension_step [("time", (Some 0%Q, Some 0%Q))]) (getDimensions temp) (temp, [])
    = Ok (var, dimbounds)
    /\ getSlice var dimbounds = Ok varslice
    /\ isValid varslice = false.
Proof.
  destruct (foldM (dimension_step [("time", (Some 0%Q, Some 0%Q))]) (getDimensions temp)
              (temp, [])) as [[var dimbounds] | e] eqn:Hloop; [| discriminate].
  destruct (getSlice var dimbounds) as [varslice | e] eqn:Hget;
    [| cbn in Hloop; injection Hloop as <- <-; discriminate].
  exists var, dimbounds, varslice. split; [reflexivity |]. split; [exact Hget |].
  apply (update_single_value_range_skips_series [("time", (Some 0%Q, Some 0%Q))] temp var
           dimbounds varslice Hloop); [| exact Hget].
  exists "time", 0%Q, 0%Q. split; [left; reflexivity |]. split; reflexivity.
Defined.

(** ** The number of bounds *)

(** X23: [MergedVariable.getSlice] and [VariableFlat.getSlice] check the
    number of bounds before they fetch anything: the merged variable wants
    one pair per dimension of its first variable and one for the merge
    dimension, the flatten transform one pair less than the source variable
    has dimensions; any other number fails the assertion. *)
Theorem getSlice_asserts_number_of_bounds :
  forall (bounds : list bound),
    (forall (v0 : PlotVariable) (vars : list PlotVariable) (mergedimid : string),
       length bounds <> S (length (getDimensions v0)) ->
       MergedVariable_getSlice (v0 :: vars) mergedimid bounds
       = Raise (AssertionError
                  "Number of specified dimensions does not equal number of data dimensions."))
    /\ (forall (self : VariableFlat),
          length bounds <> length (getDimensions (sourcevar (flat_base self))) - 1 ->
          VariableFlat_getSlice self bounds
          = Raise (AssertionError "Invalid number of dimension specified.")).
Proof.
  intros bounds. split.
  - intros v0 vars mergedimid H. unfold MergedVariable_getSlice, MergedVariable_getDimensions.
    cbn [list_item nth_error bind newSlice ndim length].
    apply Nat.eqb_neq in H. rewrite H. reflexivity.
  - intros self H. unfold VariableFlat_getSlice.
    apply Nat.eqb_neq in H. rewrite H. reflexivity.
Qed.

Lemma getSlice_asserts_number_of_bounds_witness :
  MergedVariable_getSlice two_runs "obs" [no_bounds]
  = Raise (AssertionError
             "Number of specified dimensions does not equal number of data dimensions.")
  /\ (exists self, VariableFlat_init table "a" "b" = Ok self
                   /\ VariableFlat_getSlice self []
                      = Raise (AssertionError "Invalid number of dimension specified.")).
Proof.
  destruct (getSlice_asserts_number_of_bounds [no_bounds]) as [Hm _].
  split.
  - apply Hm. cbn. lia.
  - eexists. split; [reflexivity |].
    apply (getSlice_asserts_number_of_bounds []). cbn. lia.
Defined.

(** ** Figure: the change flag *)

(** X24: a change of a property value marks the figure as changed, with or
    without a rebuild, and [resetChanged] clears the mark; a change of any
    other feature of a property does nothing at all.  While updates are
    suspended the value change only sets the two flags. *)
Theorem onPropertyChanged_marks_value_changes :
  forall (series_ranges : Slice -> result unit) (decorate : list drawing -> result unit)
         (self self' : Figure) (feature : string),
    onPropertyChanged series_ranges decorate self feature = Ok self' ->
    (feature <> "value" -> self' = self)
    /\ (feature = "value" ->
        hasChanged self' = true
        /\ hasChanged (resetChanged self') = false
        /\ (updating self = false -> self' = set_dirty (set_haschanged self true) true)).
Proof.
  intros series_ranges decorate self self' feature H.
  unfold onPropertyChanged in H. split.
  - intros Hne. apply String.eqb_neq in Hne. rewrite Hne in H. now injection H as <-.
  - intros ->. cbn in H. unfold onPropertyStoreChanged, update in H.
    cbn [set_haschanged updating] in H.
    destruct (updating self) eqn:Hu; cbn [negb] in H.
    + cbv zeta in H. inv_bind H. inv_bind H. injection H as <-.
      unfold hasChanged, resetChanged. cbn. repeat split. discriminate.
    + injection H as <-. unfold hasChanged, resetChanged. cbn. repeat split.
Qed.

Lemma onPropertyChanged_marks_value_changes_witness :
  exists self',
    onPropertyChanged quiet_ranges quiet_decorate pending_figure "value" = Ok self'
    /\ hasChanged pending_figure = false /\ hasChanged self' = true.
Proof.
  eexists. split; [reflexivity |]. split; [reflexivity |].
  eapply (onPropertyChanged_marks_value_changes quiet_ranges quiet_decorate pending_figure _
            "value" eq_refl); reflexivity.
Defined.

(** ** VariableStore.getVariableTree *)

Section EditOther.

Variable extra : list element.


End EditOther.







(** ** Line properties: what is stored reads back *)

(** X26: the line style that [setLineProperties] stores for a section of
    the matplotlib settings reads back through [getLineProperties] as the
    same style string when it is one of '-', '--', '-.' and ':', and as no
    line for any other string; the marker reads back as no marker, the line
    width as the width of the settings, and the two colours as the colour
    of the settings.  A line style set in the tree of explicit values is
    the one returned, whatever the default. *)
Theorem getLineProperties_reads_defaults_back :
  forall (color : Type) (getNormalized : color -> Q * Q * Q) (rc : RcSection color),
    (exists args,
       getLineProperties getNormalized no_line_values (setLineProperties rc no_line_values)
       = Ok args
       /\ arg_linestyle args
          = (if mem (rc_linestyle rc) ["-"; "--"; "-."; ":"] then rc_linestyle rc else "")
       /\ arg_marker args = ""
       /\ arg_linewidth args = Some (rc_linewidth rc)
       /\ arg_color args = getNormalized (rc_color rc)
       /\ arg_markerfacecolor args = getNormalized (rc_color rc)
       /\ arg_markersize args = Some (kwargs_get (rc_markersize rc) 6%Q))
    /\ forall (forced : LineNode color) (k : Z),
         LineStyle forced = Some k -> MarkerType forced = None ->
         match linestyles (Some k) with
         | Ok s => exists args,
                     getLineProperties getNormalized forced (setLineProperties rc no_line_values)
                     = Ok args /\ arg_linestyle args = s
         | Raise e => getLineProperties getNormalized forced
                        (setLineProperties rc no_line_values) = Raise e
         end.
Proof.
  intros color getNormalized rc. split.
  - unfold getLineProperties, setLineProperties, no_line_values.
    cbn [MarkerType LineStyle LineWidth Color MarkerSize MarkerFaceColor node_value kwargs_get
         markertypes bind].
    unfold linestyle_code, mem. cbn [existsb].
    destruct (String.eqb_spec (rc_linestyle rc) "-") as [E1 | N1].
    { rewrite E1. cbn. eexists. split; [reflexivity |]. cbn. auto 10. }
    destruct (String.eqb_spec (rc_linestyle rc) "--") as [E2 | N2].
    { rewrite E2. cbn. eexists. split; [reflexivity |]. cbn. auto 10. }
    destruct (String.eqb_spec (rc_linestyle rc) "-.") as [E3 | N3].
    { rewrite E3. cbn. eexists. split; [reflexivity |]. cbn. auto 10. }
    destruct (String.eqb_spec (rc_linestyle rc) ":") as [E4 | N4].
    { rewrite E4. cbn. eexists. split; [reflexivity |]. cbn. auto 10. }
    rewrite !(String.eqb_sym _ (rc_linestyle rc)).
    apply String.eqb_neq in N1, N2, N3, N4. rewrite N1, N2, N3, N4.
    cbn. eexists. split; [reflexivity |]. cbn. auto 10.
  - intros forced k Hk Hm.
    unfold getLineProperties, setLineProperties. rewrite Hk, Hm.
    cbn [MarkerType LineStyle LineWidth Color MarkerSize MarkerFaceColor node_value kwargs_get
         no_line_values markertypes bind].
    destruct (linestyles (Some k)) as [s | e]; cbn [bind]; [| reflexivity].
    destruct (Color forced), (MarkerFaceColor forced); cbn [node_value attr_of bind];
      eexists; split; reflexivity.
Qed.

Lemma getLineProperties_reads_defaults_back_witness :
  exists args,
    getLineProperties (fun c : Q * Q * Q => c)
      {| CanHaveMarker := None; LineStyle := Some 3%Z; LineWidth := None; Color := None;
         MarkerType := None; MarkerSize := None; MarkerFaceColor := None |}
      (setLineProperties {| rc_linewidth := 3 # 2; rc_color := (0, 0, 1)%Q;
                            rc_linestyle := "--"; rc_markersize := None |}
                         no_line_values)
    = Ok args
    /\ arg_linestyle args = "-.".
Proof.
  destruct (getLineProperties_reads_defaults_back (Q * Q * Q) (fun c => c)
              {| rc_linewidth := 3 # 2; rc_color := (0, 0, 1)%Q;
                 rc_linestyle := "--"; rc_markersize := None |}) as [_ H].
  apply (H {| CanHaveMarker := None; LineStyle := Some 3%Z; LineWidth := None; Color := None;
              MarkerType := None; MarkerSize := None; MarkerFaceColor := None |} 3%Z);
    reflexivity.
Defined.

(** ** CustomDateFormatter.strftime *)

Lemma string_app_nil_r (s : string) : (s ++ "")%string = s.
Proof.
  induction s as [| c s IH]; [reflexivity | cbn [String.append]; now rewrite IH].
Qed.

Lemma py_int_two_digits (m : nat) : m < 100 -> py_int (two_digits m) = Ok m.
Proof.
  intros H. do 100 (destruct m as [| m]; [reflexivity |]). lia.
Qed.

(** X27: a format that holds none of the codes %e, %n and %Q is passed to
    the formatter of matplotlib unchanged; and when that formatter prints
    the month as two digits, the format "%Q" becomes "Q1" for the months 1
    to 3, "Q2" for 4 to 6, "Q3" for 7 to 9 and "Q4" for 10 to 12 before it
    is passed on. *)
Theorem strftime_quarter_of_month :
  forall (datetime : Type) (base_strftime : datetime -> string -> string) (dt : datetime),
    (forall fmt,
       contains2 "%" "e" fmt = false -> contains2 "%" "n" fmt = false ->
       contains2 "%" "Q" fmt = false ->
       strftime base_strftime dt fmt = Ok (base_strftime dt fmt))
    /\ (forall m,
          1 <= m <= 12 -> base_strftime dt "%m" = two_digits m ->
          exists q,
            strftime base_strftime dt "%Q" = Ok (base_strftime dt ("Q" ++ format_int q)%string)
            /\ 1 <= q <= 4 /\ 3 * (q - 1) < m <= 3 * q).
Proof.
  intros datetime base_strftime dt. split.
  - intros fmt He Hn HQ. unfold strftime. rewrite He. cbn [bind]. rewrite Hn. cbn [bind].
    rewrite HQ. reflexivity.
  - intros m Hm Hbase. exists (quarter m).
    unfold strftime. cbn [contains2 Ascii.eqb Bool.eqb andb orb bind]. rewrite Hbase.
    rewrite py_int_two_digits by lia. cbn [bind replace2 Ascii.eqb Bool.eqb andb].
    rewrite string_app_nil_r. split; [reflexivity |].
    unfold quarter.
    assert (Hq : m + 2 = 3 * ((m + 2) / 3) + (m + 2) mod 3) by (apply Nat.div_mod; lia).
    assert (Hr : (m + 2) mod 3 < 3) by (apply Nat.mod_upper_bound; lia).
    lia.
Qed.

Lemma strftime_quarter_of_month_witness :
  strftime (fun (_ : unit) (fmt : string) => if (fmt =? "%m")%string then "08" else fmt)
           tt "%Q"
  = Ok "Q3"
  /\ strftime (fun (_ : unit) (fmt : string) => if (fmt =? "%m")%string then "08" else fmt)
              tt "%Y-%d"
     = Ok "%Y-%d".
Proof.
  destruct (strftime_quarter_of_month unit
              (fun _ fmt => if (fmt =? "%m")%string then "08" else fmt) tt) as [Hplain Hq].
  split.
  - destruct (Hq 8) as (q & Hrun & Hrange & Hmonth); [lia | reflexivity |].
    assert (E : q = 3) by lia. subst q. exact Hrun.
  - apply Hplain; reflexivity.
Defined.
